(** * map_scanner: a shallow embedding of the scan core

    The development follows the Python sources of the [map_scanner]
    package: [utils.py], [config.py], [exceptions.py], [screen_capture.py],
    [mouse_controller.py] and the orchestrator [map_scanner.py].

    Conventions.
    - Python [int] is [Z].  A Python [float] is a rational ([Q]).  Where a
      result depends on how the code rounds (the order of two quality
      scores, the step sizes), the arithmetic is that of IEEE 754 binary64,
      module [binary64]: every operation is rounded to the nearest double,
      ties to even.  The other results (bounds that rounding does not
      disturb) are stated over exact rationals.
    - Python [str] is [string]; a character is a code point below 256.  A
      log message is kept as the bytes of its UTF-8 encoding.
    - Exceptions are values of [exn]; a call either returns or raises.
    - The screen, the mouse, OpenCV and the OCR engine are external: they
      are consulted through an [Env] record of oracles. *)

From Stdlib Require Import ZArith QArith List String Ascii Bool Lia Lqa.
From Stdlib Require Import Qround Qabs Qpower Numbers.DecimalString.
Import ListNotations.

Local Open Scope string_scope.
Local Open Scope Z_scope.

(* ================================================================== *)
(** ** Python strings *)

Module PyStr.

Definition code (c : ascii) : N := N_of_ascii c.

(** [str.isspace] on the code points below 256. *)
Definition isspace (c : ascii) : bool :=
  let n := code c in
  ((9 <=? n) && (n <=? 13) || (28 <=? n) && (n <=? 32)
   || (n =? 133) || (n =? 160))%N.

(** [str.lower] on one code point below 256. *)
Definition lower_char (c : ascii) : ascii :=
  let n := code c in
  if ((65 <=? n) && (n <=? 90)
      || (192 <=? n) && (n <=? 222) && negb (n =? 215))%N
  then ascii_of_N (n + 32) else c.

Fixpoint lower (s : string) : string :=
  match s with
  | EmptyString => EmptyString
  | String c r => String (lower_char c) (lower r)
  end.

Fixpoint lstrip (s : string) : string :=
  match s with
  | EmptyString => EmptyString
  | String c r => if isspace c then lstrip r else s
  end.

Fixpoint rstrip (s : string) : string :=
  match s with
  | EmptyString => EmptyString
  | String c r =>
      match rstrip r with
      | EmptyString => if isspace c then EmptyString else String c EmptyString
      | r' => String c r'
      end
  end.

(** [s.strip()] *)
Definition strip (s : string) : string := rstrip (lstrip s).

(** [sub in s] *)
Fixpoint contains (sub s : string) : bool :=
  prefix sub s ||
  match s with
  | EmptyString => false
  | String _ r => contains sub r
  end.

(** [s.split()]: the maximal runs of non-whitespace characters.
    [cur] holds the run being read, in reverse. *)
Fixpoint rev_string (acc s : string) : string :=
  match s with
  | EmptyString => acc
  | String c r => rev_string (String c acc) r
  end.

Definition flush (cur : string) (k : list string) : list string :=
  match cur with
  | EmptyString => k
  | _ => rev_string EmptyString cur :: k
  end.

Fixpoint split_from (cur : string) (s : string) : list string :=
  match s with
  | EmptyString => flush cur []
  | String c r =>
      if isspace c then flush cur (split_from EmptyString r)
      else split_from (String c cur) r
  end.

Definition split (s : string) : list string := split_from EmptyString s.

Definition is_empty (s : string) : bool :=
  match s with EmptyString => true | _ => false end.

(** *** The five anchored, lazy patterns of [re.sub]

    [^O.*?C] matches at position 0 only (no MULTILINE flag): the text
    must start with [O], and the match ends at the first [C] after it,
    provided no newline comes before that [C] ([.] excludes newline).
    [^.*?C] is the same without the opening character. *)

Definition newline : ascii := ascii_of_N 10.

(** The text after the first [close], if it is found before a newline. *)
Fixpoint after_first (close : ascii) (s : string) : option string :=
  match s with
  | EmptyString => None
  | String c r =>
      if Ascii.eqb c close then Some r
      else if Ascii.eqb c newline then None
      else after_first close r
  end.

Inductive pattern : Type :=
| Delimited (open close : ascii)   (* ^O.*?C *)
| UpTo (close : ascii).            (* ^.*?C  *)

(** The remainder after the match at position 0, when there is one. *)
Definition match_front (p : pattern) (s : string) : option string :=
  match p with
  | Delimited o c =>
      match s with
      | String a r => if Ascii.eqb a o then after_first c r else None
      | EmptyString => None
      end
  | UpTo c => after_first c s
  end.

(** [re.sub(p, '', s)] *)
Definition re_sub (p : pattern) (s : string) : string :=
  match match_front p s with
  | Some r => r
  | None => s
  end.

End PyStr.

(* ================================================================== *)
(** ** utils.py *)

Module utils.

Definition patterns : list PyStr.pattern :=
  [ PyStr.Delimited "[" "]";      (* ^\[.*?\] *)
    PyStr.Delimited "(" ")";      (* ^\(.*?\) *)
    PyStr.Delimited "{" "}";      (* ^\{.*?\} *)
    PyStr.Delimited "<" ">";      (* ^\<.*?\> *)
    PyStr.UpTo "|" ]%char.        (* ^.*?\|   *)

(** The body of the [for pattern in patterns] loop. *)
Definition strip_step (cleaned_text : string) (p : PyStr.pattern) : string :=
  PyStr.strip (PyStr.re_sub p cleaned_text).

Definition extract_player_name_from_alliance_tag (text : string) : string :=
  let cleaned_text := fold_left strip_step patterns text in
  if PyStr.is_empty cleaned_text then text else cleaned_text.

(** [max(min_val, min(value, max_val))] *)
Definition safe_clamp (value min_val max_val : Z) : Z :=
  Z.max min_val (Z.min value max_val).

(** The weights dictionary, read by the four keys the function uses. *)
Record Weights : Type := {
  w_confidence : Q;
  w_size : Q;
  w_count : Q;
  w_readability : Q
}.

Definition Qmin (a b : Q) : Q := if Qlt_le_dec b a then b else a.

Definition size_score (height : Q) : Q :=
  if Qle_bool 12 height && Qle_bool height 25 then 100
  else if Qle_bool 8 height && negb (Qle_bool 12 height) then 85
  else if negb (Qle_bool height 25) && Qle_bool height 35 then 85
  else if negb (Qle_bool 8 height) then 50
  else 70.

Definition calculate_quality_score
    (confidence height : Q) (text_count readable_words : Z)
    (weights : Weights) : Q :=
  let confidence_score := Qmin confidence 100 in
  let size_score := size_score height in
  let count_score := inject_Z (Z.min (text_count * 15) 100) in
  let readability_score := inject_Z (Z.min (readable_words * 25) 100) in
  confidence_score * w_confidence weights +
  size_score * w_size weights +
  count_score * w_count weights +
  readability_score * w_readability weights.

End utils.

(* ================================================================== *)
(** ** Python values and class namespaces (config.py) *)

#[local] Unset Elimination Schemes.
Inductive pyval : Type :=
| VInt (z : Z)
| VFloat (q : Q)
| VBool (b : bool)
| VTuple (items : list pyval)
| VList (items : list pyval)
| VDict (items : list (string * pyval)).

#[local] Set Elimination Schemes.

(** A class body: its attributes in declaration order. *)
Record pyclass : Type := {
  class_name : string;
  class_dict : list (string * pyval)
}.

Fixpoint assoc {A : Type} (k : string) (l : list (string * A)) : option A :=
  match l with
  | [] => None
  | (k', v) :: r => if String.eqb k k' then Some v else assoc k r
  end.

Module config.

Definition WindowConfig : pyclass := {|
  class_name := "WindowConfig";
  class_dict :=
    [ ("MIN_WINDOW_WIDTH", VInt 500);
      ("MIN_WINDOW_HEIGHT", VInt 300);
      ("UI_MARGINS", VDict [ ("left", VFloat (6 # 100));
                             ("right", VFloat (12 # 100));
                             ("top", VFloat (8 # 100));
                             ("bottom", VFloat (12 # 100)) ]) ] |}.

Definition CaptureConfig : pyclass := {|
  class_name := "CaptureConfig";
  class_dict :=
    [ ("DEFAULT_CAPTURE_SIZE", VTuple [VInt 500; VInt 400]);
      ("BASE_STEP_SIZE", VInt 900);
      ("TARGET_OVERLAP_PERCENT", VInt 15);
      ("MOVEMENT_DELAY", VFloat (3 # 10));
      ("SETTLE_DELAY", VFloat (5 # 10));
      ("ZOOM_DELAY", VFloat (5 # 10));
      ("POST_DRAG_PAUSE_RANGE", VTuple [VFloat (1 # 10); VFloat (3 # 10)]);
      ("MAX_COLUMNS_PER_ROW", VInt 100);
      ("MAX_ROWS_TOTAL", VInt 50);
      ("MAX_CORNER_SEARCH_ATTEMPTS", VInt 200);
      ("DURATION_VARIANCE_RANGE", VTuple [VFloat (8 # 10); VFloat (12 # 10)]);
      ("POSITION_VARIANCE_RANGE",
         VTuple [VFloat (98 # 100); VFloat (102 # 100)]) ] |}.

(** Of [OCRConfig] only the numeric thresholds are kept; the Tesseract
    option strings and strategy names are not used below. *)
Definition OCRConfig : pyclass := {|
  class_name := "OCRConfig";
  class_dict :=
    [ ("MIN_TEXT_LENGTH", VInt 2);
      ("MIN_CONFIDENCE_THRESHOLD", VInt 20);
      ("MIN_QUALITY_THRESHOLD", VInt 25) ] |}.

Definition ScanConfig : pyclass := {|
  class_name := "ScanConfig";
  class_dict :=
    [ ("DEFAULT_MAX_ROWS", VInt 20);
      ("SIMILARITY_THRESHOLD", VFloat 98);
      ("QUALITY_WEIGHTS", VDict [ ("confidence", VFloat (3 # 10));
                                  ("size", VFloat (2 # 10));
                                  ("count", VFloat (2 # 10));
                                  ("readability", VFloat (3 # 10)) ]);
      ("ZOOM_LEVELS_TO_TEST",
         VList [ VTuple [VInt 1; VInt 2]; VTuple [VInt 2; VInt 2];
                 VTuple [VInt 3; VInt 2];
                 VTuple [VInt (-1); VInt 2]; VTuple [VInt (-2); VInt 2];
                 VTuple [VInt (-3); VInt 2] ]) ] |}.

End config.

(* ================================================================== *)
(** ** exceptions.py *)

Inductive exn_class : Type :=
| Exception          (* any exception raised outside the package *)
| AttributeError
| TypeError
| MapScannerError
| SafetyExit
| WindowError
| OCRError
| CaptureError
| MovementError
| CalibrationError.

(** An exception object: its class and [str(e)]. *)
Record exn : Type := Exn { exn_class_of : exn_class; str_of : string }.

Definition is_SafetyExit (e : exn) : bool :=
  match exn_class_of e with SafetyExit => true | _ => false end.

(** Every class above derives from [Exception]; so [except Exception]
    handles each of them. *)
Definition is_Exception (e : exn) : bool := true.

Inductive outcome (A : Type) : Type :=
| Return (a : A)
| Raise (e : exn).
Arguments Return {A} a.
Arguments Raise {A} e.

(** What a call into an external library gives: a value, or some
    exception of that library (never one of this package's classes). *)
Inductive ext (A : Type) : Type :=
| Ok (a : A)
| Fails (msg : string).
Arguments Ok {A} a.
Arguments Fails {A} msg.

(* ================================================================== *)
(** ** The world and the monad of effects *)

Definition Frame : Type := list (list (Z * Z * Z)).   (* rows of RGB pixels *)
Definition Gray : Type := list (list Z).

Inductive Action : Type :=
| Screenshot (x y w h : Z)
| MoveTo (x y : Z) (duration : Q)
| Drag (dx dy : Z) (duration : Q)
| Scroll (clicks : Z).

Inductive Level : Type := INFO | WARNING | ERROR.

Record World : Type := {
  running : bool;                  (* MapScanner.running *)
  optimal_zoom_level : Z;          (* MapScanner.optimal_zoom_level *)
  clock : nat;                     (* external calls answered so far *)
  actions : list Action;           (* pyautogui calls issued, latest first *)
  log : list (Level * string)      (* logger records, latest first *)
}.

Record OcrResults : Type := {
  best_text : string;
  best_confidence : Q
}.

(** The external collaborators.  An oracle answers by the value of the
    clock at the time of the call, so that answers may change over time. *)
Record Env : Type := {
  pyautogui_screenshot : nat -> Z * Z * Z * Z -> ext Frame;
  pyautogui_moveTo : nat -> Z -> Z -> ext unit;
  pyautogui_drag : nat -> Z -> Z -> ext unit;
  pyautogui_scroll : nat -> Z -> ext unit;
  pyautogui_position : nat -> Z * Z;
  pyautogui_size : Z * Z;
  random_uniform : nat -> Q -> Q -> Q;
  window_is_valid : nat -> bool;
  cv2_cvtColor : Frame -> ext Gray;
  cv2_matchTemplate : Gray -> Gray -> ext Q;
  (* the two OCR entry points catch every exception themselves *)
  ocr_extract_text_comprehensive : Frame -> OcrResults;
  ocr_evaluate_quality : Frame -> Q
}.

Definition M (A : Type) : Type := World -> outcome A * World.

Definition ret {A} (a : A) : M A := fun w => (Return a, w).
Definition raise {A} (e : exn) : M A := fun w => (Raise e, w).
Definition bind {A B} (m : M A) (k : A -> M B) : M B :=
  fun w => match m w with
           | (Return a, w') => k a w'
           | (Raise e, w') => (Raise e, w')
           end.

(** [try: m  except ...: h e] *)
Definition try_except {A} (m : M A) (h : exn -> M A) : M A :=
  fun w => match m w with
           | (Return a, w') => (Return a, w')
           | (Raise e, w') => h e w'
           end.

Declare Scope py_scope.
Delimit Scope py_scope with py.
Notation "x <- m ;; k" := (bind m (fun x => k))
  (at level 61, m at next level, right associativity) : py_scope.
Notation "' pat <- m ;; k" := (bind m (fun x => match x with pat => k end))
  (at level 61, pat pattern, m at next level, right associativity) : py_scope.
Notation "m ;; k" := (bind m (fun _ => k))
  (at level 61, right associativity) : py_scope.
Local Open Scope py_scope.

Definition lift {A} (o : outcome A) : M A := fun w => (o, w).

Definition tick : M nat :=
  fun w => (Return (clock w),
            {| running := running w; optimal_zoom_level := optimal_zoom_level w;
               clock := S (clock w); actions := actions w; log := log w |}).

Definition act (a : Action) : M unit :=
  fun w => (Return tt,
            {| running := running w; optimal_zoom_level := optimal_zoom_level w;
               clock := clock w; actions := a :: actions w; log := log w |}).

Definition logger (l : Level) (msg : string) : M unit :=
  fun w => (Return tt,
            {| running := running w; optimal_zoom_level := optimal_zoom_level w;
               clock := clock w; actions := actions w; log := (l, msg) :: log w |}).

Definition get_running : M bool := fun w => (Return (running w), w).

Definition set_optimal_zoom_level (z : Z) : M unit :=
  fun w => (Return tt,
            {| running := running w; optimal_zoom_level := z;
               clock := clock w; actions := actions w; log := log w |}).

(** A call into an external library. *)
Definition extcall {A} (r : ext A) : M A :=
  match r with
  | Ok a => ret a
  | Fails msg => raise (Exn Exception msg)
  end.

(** [Class.ATTR]: the attribute, or [AttributeError]. *)
Definition getattr (c : pyclass) (attr : string) : outcome pyval :=
  match assoc attr (class_dict c) with
  | Some v => Return v
  | None =>
      Raise (Exn AttributeError
               ("type object '" ++ class_name c ++
                "' has no attribute '" ++ attr ++ "'"))
  end.

Definition Z_to_string (z : Z) : string :=
  NilZero.string_of_int (Z.to_int z).

(** [f"{q:.1f}"] *)
Definition round_half_even (q : Q) : Z :=
  let f := Qfloor q in
  let r := (q - inject_Z f)%Q in
  if Qle_bool r (1 # 2)
  then if Qle_bool (1 # 2) r then (if Z.even f then f else f + 1) else f
  else f + 1.

Definition format_1f (q : Q) : string :=
  let t := Z.abs (round_half_even (q * 10)) in
  (if Qle_bool 0 q then "" else "-") ++
  Z_to_string (t / 10) ++ "." ++ Z_to_string (t mod 10).

Definition Qlt_bool (a b : Q) : bool := negb (Qle_bool b a).

(** [int(q)]: truncation toward zero. *)
Definition int_of_Q (q : Q) : Z := Z.quot (Qnum q) (Zpos (Qden q)).

Definition as_int (v : pyval) : outcome Z :=
  match v with
  | VInt z => Return z
  | _ => Raise (Exn TypeError "an integer is required")
  end.

Definition as_float (v : pyval) : outcome Q :=
  match v with
  | VFloat q => Return q
  | VInt z => Return (inject_Z z)
  | _ => Raise (Exn TypeError "a number is required")
  end.

Definition as_range (v : pyval) : outcome (Q * Q) :=
  match v with
  | VTuple [VFloat a; VFloat b] => Return (a, b)
  | _ => Raise (Exn TypeError "a pair of numbers is required")
  end.

Definition as_pair (v : pyval) : outcome (Z * Z) :=
  match v with
  | VTuple [VInt a; VInt b] => Return (a, b)
  | _ => Raise (Exn TypeError "cannot unpack a pair of integers")
  end.

Fixpoint all_pairs (items : list pyval) : outcome (list (Z * Z)) :=
  match items with
  | [] => Return []
  | v :: r =>
      match as_pair v, all_pairs r with
      | Return p, Return ps => Return (p :: ps)
      | Raise e, _ => Raise e
      | _, Raise e => Raise e
      end
  end.

Definition as_zoom_levels (v : pyval) : outcome (list (Z * Z)) :=
  match v with
  | VList items => all_pairs items
  | _ => Raise (Exn TypeError "object is not iterable")
  end.

Definition obind {A B} (o : outcome A) (k : A -> outcome B) : outcome B :=
  match o with
  | Return a => k a
  | Raise e => Raise e
  end.

Definition attr_int (c : pyclass) (attr : string) : M Z :=
  lift (obind (getattr c attr) as_int).
Definition attr_float (c : pyclass) (attr : string) : M Q :=
  lift (obind (getattr c attr) as_float).
Definition attr_range (c : pyclass) (attr : string) : M (Q * Q) :=
  lift (obind (getattr c attr) as_range).

(** [except SafetyExit: raise] followed by [except Exception as e: h e] *)
Definition reraise_SafetyExit {A} (h : exn -> M A) (e : exn) : M A :=
  if is_SafetyExit e then raise e else h e.

(** [utils.add_variance] *)
Definition add_variance (env : Env) (value : Q) (variance_range : Q * Q) : M Q :=
  t <- tick ;;
  let multiplier :=
    random_uniform env t (fst variance_range) (snd variance_range) in
  ret (value * multiplier)%Q.

(* ================================================================== *)
(** ** mouse_controller.py *)

Module MouseController.

Record t : Type := {
  center_x : Z;
  center_y : Z;
  effective_game_area : option (Z * Z * Z * Z);
  client_rect : option (Z * Z * Z * Z)
}.

Section Methods.
Variable env : Env.
Variable self : t.

Definition _calculate_safe_coordinates (x y margin : Z) : Z * Z :=
  match effective_game_area self with
  | Some (eff_x, eff_y, eff_width, eff_height) =>
      (utils.safe_clamp x (eff_x + margin) (eff_x + eff_width - margin),
       utils.safe_clamp y (eff_y + margin) (eff_y + eff_height - margin))
  | None =>
      match client_rect self with
      | Some (c0, c1, c2, c3) =>
          (utils.safe_clamp x (c0 + margin) (c2 - margin),
           utils.safe_clamp y (c1 + margin) (c3 - margin))
      | None =>
          let '(screen_width, screen_height) := pyautogui_size env in
          (utils.safe_clamp x margin (screen_width - margin),
           utils.safe_clamp y margin (screen_height - margin))
      end
  end.

Definition moveTo (x y : Z) (duration : Q) : M unit :=
  t <- tick ;;
  act (MoveTo x y duration) ;;
  extcall (pyautogui_moveTo env t x y).

Definition safe_move_mouse (x y : Z) (duration : Q) (running_flag : bool)
  : M bool :=
  try_except
    (if negb running_flag
     then raise (Exn SafetyExit "Mouse movement stopped")
     else
       let '(safe_x, safe_y) := _calculate_safe_coordinates x y 50 in
       moveTo safe_x safe_y duration ;;
       ret true)
    (reraise_SafetyExit (fun e =>
       logger ERROR ("Failed to move mouse: " ++ str_of e) ;;
       ret false)).

Definition _ensure_centered_start : M unit :=
  t <- tick ;;
  let '(current_x, current_y) := pyautogui_position env t in
  if (Z.abs (current_x - center_x self) >? 10)
     || (Z.abs (current_y - center_y self) >? 10)
  then
    center_duration <- add_variance env (2 # 10) (75 # 100, 125 # 100) ;;
    moveTo (center_x self) (center_y self) center_duration ;;
    _ <- add_variance env (1 # 10) (5 # 10, 15 # 10) ;;
    ret tt
  else ret tt.

Definition _recenter_mouse : M unit :=
  recenter_duration <- add_variance env (2 # 10) (75 # 100, 125 # 100) ;;
  moveTo (center_x self) (center_y self) recenter_duration.

Definition safe_drag (dx dy : Z) (duration : Q) (running_flag : bool)
  : M bool :=
  try_except
    (if negb running_flag
     then raise (Exn SafetyExit "Drag operation stopped")
     else
       duration_range <- attr_range config.CaptureConfig "DURATION_VARIANCE_RANGE" ;;
       final_duration <- add_variance env duration duration_range ;;
       position_range <- attr_range config.CaptureConfig "POSITION_VARIANCE_RANGE" ;;
       mx <- add_variance env 1 position_range ;;
       let actual_dx := int_of_Q (inject_Z dx * mx) in
       position_range <- attr_range config.CaptureConfig "POSITION_VARIANCE_RANGE" ;;
       my <- add_variance env 1 position_range ;;
       let actual_dy := int_of_Q (inject_Z dy * my) in
       _ensure_centered_start ;;
       let target_x := center_x self + actual_dx in
       let target_y := center_y self + actual_dy in
       let '(safe_target_x, safe_target_y) :=
         _calculate_safe_coordinates target_x target_y 100 in
       let final_dx := safe_target_x - center_x self in
       let final_dy := safe_target_y - center_y self in
       t <- tick ;;
       act (Drag final_dx final_dy final_duration) ;;
       extcall (pyautogui_drag env t final_dx final_dy) ;;
       pause_range <- attr_range config.CaptureConfig "POST_DRAG_PAUSE_RANGE" ;;
       _ <- add_variance env (2 # 10) pause_range ;;
       _recenter_mouse ;;
       settle_delay <- attr_float config.CaptureConfig "SETTLE_DELAY" ;;
       _ <- add_variance env settle_delay (8 # 10, 12 # 10) ;;
       if negb running_flag
       then raise (Exn SafetyExit "Drag operation stopped during settlement")
       else ret true)
    (reraise_SafetyExit (fun e =>
       logger ERROR ("Failed to perform drag: " ++ str_of e) ;;
       ret false)).

(** [zoom_control] reads no field of [self]. *)
Definition zoom_control (clicks : Z) (running_flag : bool) : M bool :=
  try_except
    (if negb running_flag
     then raise (Exn SafetyExit "Zoom operation stopped")
     else
       t <- tick ;;
       act (Scroll clicks) ;;
       extcall (pyautogui_scroll env t clicks) ;;
       _ <- attr_float config.CaptureConfig "ZOOM_DELAY" ;;
       ret true)
    (reraise_SafetyExit (fun e =>
       logger ERROR ("Zoom control failed: " ++ str_of e) ;;
       ret false)).

End Methods.

End MouseController.

(* ================================================================== *)
(** ** screen_capture.py *)

Module ScreenCapture.

Record t : Type := {
  center_x : Z;
  center_y : Z;
  capture_size : Z * Z;
  effective_game_area : option (Z * Z * Z * Z)
}.

Definition _calculate_capture_coordinates (self : t) : Z * Z :=
  let x := center_x self - fst (capture_size self) / 2 in
  let y := center_y self - snd (capture_size self) / 2 in
  match effective_game_area self with
  | Some (eff_x, eff_y, eff_width, eff_height) =>
      (utils.safe_clamp x eff_x (eff_x + eff_width - fst (capture_size self)),
       utils.safe_clamp y eff_y (eff_y + eff_height - snd (capture_size self)))
  | None => (x, y)
  end.

Section Methods.
Variable env : Env.
Variable self : t.

(** The result is [Optional[np.ndarray]] in the source: [None] is
    [None], an array is [Some]. *)
Definition capture_screen (running_flag : bool) : M (option Frame) :=
  try_except
    (if negb running_flag
     then raise (Exn SafetyExit "Capture stopped")
     else
       let '(x, y) := _calculate_capture_coordinates self in
       let '(w, h) := capture_size self in
       t <- tick ;;
       act (Screenshot x y w h) ;;
       screenshot <- extcall (pyautogui_screenshot env t (x, y, w, h)) ;;
       ret (Some screenshot))
    (reraise_SafetyExit (fun e =>
       logger ERROR ("Failed to capture screen: " ++ str_of e) ;;
       raise (Exn CaptureError ("Screen capture failed: " ++ str_of e)))).

Definition detect_movement (before_image after_image : option Frame)
  : M (bool * string) :=
  try_except
    (match before_image, after_image with
     | Some before_image, Some after_image =>
         before_gray <- extcall (cv2_cvtColor env before_image) ;;
         after_gray <- extcall (cv2_cvtColor env after_image) ;;
         correlation <- extcall (cv2_matchTemplate env before_gray after_gray) ;;
         let similarity_percentage := (correlation * 100)%Q in
         threshold <- attr_float config.CaptureConfig "SIMILARITY_THRESHOLD" ;;
         let movement_detected := Qlt_bool similarity_percentage threshold in
         ret (movement_detected,
              format_1f similarity_percentage ++ "% similar")
     | _, _ => ret (false, "Invalid images provided")
     end)
    (fun e =>
       logger ERROR ("Movement detection failed: " ++ str_of e) ;;
       ret (false, str_of e)).

Definition capture_and_detect_movement
    (mouse_controller : MouseController.t) (dx dy : Z) (duration : Q)
    (running_flag : bool) : M (bool * string) :=
  try_except
    (before_img <- capture_screen running_flag ;;
     match before_img with
     | None => ret (false, "Could not capture before image")
     | Some _ =>
         dragged <- MouseController.safe_drag env mouse_controller
                      dx dy duration true ;;
         if negb dragged then ret (false, "Drag operation failed")
         else
           after_img <- capture_screen running_flag ;;
           match after_img with
           | None => ret (false, "Could not capture after image")
           | Some _ => detect_movement before_img after_img
           end
     end)
    (fun e =>
       logger ERROR ("Capture and movement detection failed: " ++ str_of e) ;;
       ret (false, str_of e)).

End Methods.

End ScreenCapture.

(* ================================================================== *)
(** ** map_scanner.py *)

(** The dictionary built for a found target.  [matched_word] is present
    only for a word match; [scan_position] and [scan_count] are added by
    the row scan. *)
Record TargetMatch : Type := {
  name : string;
  detected_text : string;
  matched_word : option string;
  match_type : string;
  confidence : Q;
  ocr_strategy : string;
  scan_position : option string;
  scan_count : option Z
}.

(** [max(items, key=key)]: the first item whose key no later item exceeds
    strictly; [first] is the head of the (non-empty) sequence. *)
Fixpoint py_max_from {A : Type} (key : A -> Q) (best : A) (rest : list A) : A :=
  match rest with
  | [] => best
  | x :: r => py_max_from key (if Qlt_bool (key best) (key x) then x else best) r
  end.

Definition py_max {A : Type} (key : A -> Q) (items : list A) : option A :=
  match items with
  | [] => None
  | x :: r => Some (py_max_from key x r)
  end.

(** [range(n)] *)
Definition range (n : Z) : list Z := map Z.of_nat (seq 0 (Z.to_nat n)).

(** A [for] loop whose body may [return v] from the enclosing function
    ([Some v]) or fall through to the next item ([None]). *)
Fixpoint for_each {I A : Type} (items : list I) (body : I -> M (option A))
  : M (option A) :=
  match items with
  | [] => ret None
  | i :: rest =>
      r <- body i ;;
      match r with
      | Some v => ret (Some v)
      | None => for_each rest body
      end
  end.

(** Runs [m] and hands an exception back as a value, for a [try] block
    whose handler needs the locals as they are when the exception occurs. *)
Definition catching {A} (m : M A) : M (exn + A) :=
  try_except (a <- m ;; ret (inr a)) (fun e => ret (inl e)).

(** The methods the orchestrator calls on [self.screen_capture]. *)
Record ScreenCaptureObj : Type := {
  sc_capture_screen : bool -> M (option Frame);
  sc_capture_and_detect_movement :
    MouseController.t -> Z -> Z -> Q -> bool -> M (bool * string)
}.

Definition ScreenCapture_obj (env : Env) (sc : ScreenCapture.t) : ScreenCaptureObj :=
  {| sc_capture_screen := ScreenCapture.capture_screen env sc;
     sc_capture_and_detect_movement :=
       ScreenCapture.capture_and_detect_movement env sc |}.

Module MapScanner.

Record t : Type := {
  window_center_x : Z;               (* window_manager.center_x *)
  window_center_y : Z;               (* window_manager.center_y *)
  screen_capture : ScreenCaptureObj;
  mouse_controller : MouseController.t;
  step_size : Z;
  vertical_step_size : Z;
  max_columns_per_row : Z;
  max_rows_total : Z
}.

(** *** Target matching (the loop of [search_for_targets]) *)

Definition word_matches (target_lower target_without_tags word : string) : bool :=
  let word_without_tags :=
    PyStr.lower (utils.extract_player_name_from_alliance_tag word) in
  String.eqb target_lower (PyStr.lower word)
  || String.eqb target_lower word_without_tags
  || String.eqb target_without_tags (PyStr.lower word)
  || String.eqb target_without_tags word_without_tags.

(** [for word in words: if ...: append; break] *)
Fixpoint first_word_match (ocr_results : OcrResults)
    (target_name target_lower target_without_tags : string)
    (words : list string) : option TargetMatch :=
  match words with
  | [] => None
  | word :: rest =>
      if word_matches target_lower target_without_tags word
      then Some {| name := target_name;
                   detected_text := best_text ocr_results;
                   matched_word := Some word;
                   match_type := "exact_word";
                   confidence := best_confidence ocr_results;
                   ocr_strategy := "comprehensive";
                   scan_position := None;
                   scan_count := None |}
      else first_word_match ocr_results target_name target_lower
             target_without_tags rest
  end.

(** One iteration of [for target_name in target_names]: what it appends
    to [found_targets], if anything. *)
Definition match_target (ocr_results : OcrResults) (detected_text : string)
    (target_name : string) : option TargetMatch :=
  let target_lower := PyStr.lower target_name in
  let target_without_tags :=
    PyStr.lower (utils.extract_player_name_from_alliance_tag target_name) in
  if PyStr.contains target_lower detected_text
  then Some {| name := target_name;
               detected_text := best_text ocr_results;
               matched_word := None;
               match_type := "exact_full";
               confidence := best_confidence ocr_results;
               ocr_strategy := "comprehensive";
               scan_position := None;
               scan_count := None |}
  else
    let words := PyStr.split detected_text in
    first_word_match ocr_results target_name target_lower
      target_without_tags words.

Fixpoint collect_targets (ocr_results : OcrResults) (detected_text : string)
    (target_names : list string) (found_targets : list TargetMatch)
  : list TargetMatch :=
  match target_names with
  | [] => found_targets
  | target_name :: rest =>
      collect_targets ocr_results detected_text rest
        match match_target ocr_results detected_text target_name with
        | Some m => found_targets ++ [m]
        | None => found_targets
        end
  end.

Definition found_targets_of (ocr_results : OcrResults)
    (target_names : list string) : list TargetMatch :=
  collect_targets ocr_results (PyStr.lower (best_text ocr_results))
    target_names [].

Section Methods.
Variable env : Env.
Variable self : t.

Definition _check_safety_exit : M unit :=
  running <- get_running ;;
  if negb running then raise (Exn SafetyExit "Scanner stopped")
  else
    t <- tick ;;
    if negb (window_is_valid env t)
    then raise (Exn SafetyExit "Game window closed")
    else ret tt.

Definition search_for_targets (image : option Frame)
    (target_names : list string) : M (bool * option TargetMatch) :=
  try_except
    (match image with
     | None => ret (false, None)
     | Some image =>
         let ocr_results := ocr_extract_text_comprehensive env image in
         if PyStr.is_empty (best_text ocr_results) then ret (false, None)
         else
           let found_targets := found_targets_of ocr_results target_names in
           match py_max confidence found_targets with
           | Some best_match => ret (true, Some best_match)
           | None => ret (false, None)
           end
     end)
    (fun e =>
       logger ERROR ("Target search failed: " ++ str_of e) ;;
       ret (false, None)).

(** [f"  Attempt {attempt+1}: {'MOVED' if moved else 'CORNER HIT'}"] *)
Definition attempt_message (attempt : Z) (moved : bool) : string :=
  "  Attempt " ++ Z_to_string (attempt + 1) ++ ": "
  ++ (if moved then "MOVED" else "CORNER HIT").

(** The body of the [for attempt in range(...)] loop of
    [find_top_left_corner]: [Some v] is [return v]. *)
Definition corner_attempt (drag_distance attempt : Z) : M (option bool) :=
  _check_safety_exit ;;
  running <- get_running ;;
  '(moved, info) <- sc_capture_and_detect_movement (screen_capture self)
                      (mouse_controller self)
                      drag_distance drag_distance (4 # 10) running ;;
  (if (attempt mod 10 =? 0) || negb moved
   then logger INFO (attempt_message attempt moved)
   else ret tt) ;;
  if negb moved then
    running <- get_running ;;
    '(moved_confirm, _) <- sc_capture_and_detect_movement
                             (screen_capture self)
                             (mouse_controller self)
                             200 200 (3 # 10) running ;;
    if negb moved_confirm
    then logger INFO "✓ TOP-LEFT CORNER REACHED" ;; ret (Some true)
    else ret None
  else ret None.

Definition find_top_left_corner : M bool :=
  logger INFO "🎯 FINDING TOP-LEFT CORNER" ;;
  running <- get_running ;;
  moved_to_center <- MouseController.safe_move_mouse env (mouse_controller self)
                       (window_center_x self) (window_center_y self)
                       (3 # 10) running ;;
  if negb moved_to_center then ret false
  else
    let drag_distance := 450 in
    logger INFO "Moving toward top-left corner..." ;;
    attempts <- attr_int config.CaptureConfig "MAX_CORNER_SEARCH_ATTEMPTS" ;;
    r <- for_each (range attempts) (corner_attempt drag_distance) ;;
    match r with
    | Some v => ret v
    | None => logger INFO "✓ Corner search completed" ;; ret true
    end.

(** [ocr_engine.evaluate_quality]: 0.0 for a missing image. *)
Definition evaluate_quality (image : option Frame) : Q :=
  match image with
  | None => 0
  | Some image => ocr_evaluate_quality env image
  end.

(** The scroll issued for one entry of [ZOOM_LEVELS_TO_TEST]:
    [clicks_per_level if zoom_level > 0 else -clicks_per_level]. *)
Definition zoom_clicks_of (zoom_level clicks_per_level : Z) : Z :=
  if zoom_level >? 0 then clicks_per_level else - clicks_per_level.

(** The loop over the zoom levels; the state is
    [(zoom_results, best_quality, best_zoom_level)]. *)
Fixpoint test_zoom_levels (levels : list (Z * Z))
    (st : list (Z * Q) * Q * Z) : M (list (Z * Q) * Q * Z) :=
  match levels with
  | [] => ret st
  | (zoom_level, clicks_per_level) :: rest =>
      let '(zoom_results, best_quality, best_zoom_level) := st in
      _check_safety_exit ;;
      let zoom_clicks := zoom_clicks_of zoom_level clicks_per_level in
      running <- get_running ;;
      zoomed <- MouseController.zoom_control env zoom_clicks running ;;
      if negb zoomed then test_zoom_levels rest st
      else
        running <- get_running ;;
        test_image <- sc_capture_screen (screen_capture self) running ;;
        let quality := evaluate_quality test_image in
        let zoom_results := (zoom_results ++ [(zoom_level, quality)])%list in
        if Qlt_bool best_quality quality
        then test_zoom_levels rest (zoom_results, quality, zoom_level)
        else test_zoom_levels rest (zoom_results, best_quality, best_zoom_level)
  end.

Definition sum_Z (l : list Z) : Z := fold_left Z.add l 0.

Definition _reset_and_apply_optimal_zoom (zoom_results : list (Z * Q))
    (best_zoom_level : Z) : M unit :=
  let total_applied_zoom :=
    sum_Z (map (fun r => Z.abs (fst r) * 2) (tl zoom_results)) in
  (if total_applied_zoom >? 0 then
     let reset_clicks :=
       sum_Z (map (fun r => - fst r * 2) (tl zoom_results)) in
     if negb (reset_clicks =? 0) then
       running <- get_running ;;
       _ <- MouseController.zoom_control env reset_clicks running ;;
       ret tt
     else ret tt
   else ret tt) ;;
  if negb (best_zoom_level =? 0) then
    let optimal_clicks := best_zoom_level * 2 in
    running <- get_running ;;
    _ <- MouseController.zoom_control env optimal_clicks running ;;
    set_optimal_zoom_level best_zoom_level
  else ret tt.

Definition calibrate_zoom : M bool :=
  try_except
    (running <- get_running ;;
     moved_to_center <- MouseController.safe_move_mouse env
                          (mouse_controller self)
                          (window_center_x self) (window_center_y self)
                          (3 # 10) running ;;
     if negb moved_to_center then ret false
     else
       running <- get_running ;;
       current_image <- sc_capture_screen (screen_capture self) running ;;
       let current_quality := evaluate_quality current_image in
       levels <- lift (obind (getattr config.ScanConfig "ZOOM_LEVELS_TO_TEST")
                             as_zoom_levels) ;;
       '(zoom_results, _, best_zoom_level) <-
          test_zoom_levels levels
            ([(0, current_quality)], current_quality, 0) ;;
       _reset_and_apply_optimal_zoom zoom_results best_zoom_level ;;
       running <- get_running ;;
       final_image <- sc_capture_screen (screen_capture self) running ;;
       let final_quality := evaluate_quality final_image in
       threshold <- attr_float config.OCRConfig "MIN_QUALITY_THRESHOLD" ;;
       ret (Qle_bool threshold final_quality))
    (fun e =>
       logger ERROR ("Zoom calibration failed: " ++ str_of e) ;;
       raise (Exn CalibrationError ("Zoom calibration failed: " ++ str_of e))).

(** The [while True] loop of [_scan_row].  The loop leaves by [break]
    once [col] exceeds [max_columns_per_row], so it runs at most
    [max_columns_per_row] times; [fuel] counts the iterations that may
    still follow the current one. *)
Fixpoint _scan_row_loop (fuel : nat) (row : Z) (target_names : list string)
    (step_dx col scan_count : Z) (targets_found : list TargetMatch)
  : M (list TargetMatch) :=
  _check_safety_exit ;;
  let scan_count := scan_count + 1 in
  running <- get_running ;;
  image <- sc_capture_screen (screen_capture self) running ;;
  targets_found <-
    match image with
    | Some _ =>
        '(found, target_info) <- search_for_targets image target_names ;;
        match found, target_info with
        | true, Some target_info =>
            ret ((targets_found ++
                 [ {| name := name target_info;
                      detected_text := detected_text target_info;
                      matched_word := matched_word target_info;
                      match_type := match_type target_info;
                      confidence := confidence target_info;
                      ocr_strategy := ocr_strategy target_info;
                      scan_position :=
                        Some ("Row " ++ Z_to_string (row + 1) ++ ", Col "
                              ++ Z_to_string col)%string;
                      scan_count := Some scan_count |} ])%list)
        | _, _ => ret targets_found
        end
    | None => ret targets_found
    end ;;
  delay <- attr_float config.CaptureConfig "MOVEMENT_DELAY" ;;
  running <- get_running ;;
  '(moved, _) <- sc_capture_and_detect_movement (screen_capture self)
                   (mouse_controller self) (- step_dx) 0 delay running ;;
  if negb moved then ret targets_found
  else
    let col := col + 1 in
    if col >? max_columns_per_row self then
      logger WARNING ("Reached safety limit ("
                      ++ Z_to_string (max_columns_per_row self)
                      ++ " columns)") ;;
      ret targets_found
    else
      match fuel with
      | O => ret targets_found
      | S fuel => _scan_row_loop fuel row target_names step_dx col
                    scan_count targets_found
      end.

Definition _scan_row (row : Z) (target_names : list string) (scan_count : Z)
  : M (list TargetMatch) :=
  let going_right := (row mod 2 =? 0) in
  let step_dx := if going_right then step_size self else - step_size self in
  _scan_row_loop (Z.to_nat (max_columns_per_row self - 1)) row target_names
    step_dx 1 scan_count [].

(** [except Exception as e] of [perform_scan] *)
Definition scan_failed (targets_found : list TargetMatch) (e : exn)
  : M (list TargetMatch) :=
  logger ERROR ("Scan failed: " ++ str_of e) ;;
  ret targets_found.

(** The [for row in range(...)] loop of [perform_scan], inside its
    [try] block.  The handler returns [targets_found] as it is when the
    exception occurs, so the loop hands the exception to [scan_failed]
    together with the list accumulated so far. *)
Fixpoint scan_rows (rows : list Z) (target_names : list string)
    (max_rows scan_count : Z) (targets_found : list TargetMatch)
  : M (list TargetMatch) :=
  match rows with
  | [] => ret targets_found
  | row :: rest =>
      r <- catching (_check_safety_exit ;;
                     _scan_row row target_names scan_count) ;;
      match r with
      | inl e => scan_failed targets_found e
      | inr found =>
          let targets_found := (targets_found ++ found)%list in
          if row <? max_rows - 1 then
            r <- catching
                   (delay <- attr_float config.CaptureConfig "MOVEMENT_DELAY" ;;
                    running <- get_running ;;
                    sc_capture_and_detect_movement (screen_capture self)
                      (mouse_controller self) 0 (- vertical_step_size self)
                      delay running) ;;
            match r with
            | inl e => scan_failed targets_found e
            | inr (moved_down, _) =>
                if negb moved_down then ret targets_found
                else scan_rows rest target_names max_rows scan_count
                       targets_found
            end
          else scan_rows rest target_names max_rows scan_count targets_found
      end
  end.

Definition perform_scan (target_names : list string) (max_rows : Z)
  : M (list TargetMatch) :=
  let targets_found := [] in
  let scan_count := 0 in
  r <- catching
         (found_corner <- find_top_left_corner ;;
          if negb found_corner then
            logger ERROR "Failed to find top-left corner" ;; ret false
          else
            running <- get_running ;;
            MouseController.safe_move_mouse env (mouse_controller self)
              (window_center_x self) (window_center_y self)
              (3 # 10) running) ;;
  match r with
  | inl e => scan_failed targets_found e
  | inr false => ret targets_found
  | inr true =>
      scan_rows (range (Z.min max_rows (max_rows_total self)))
        target_names max_rows scan_count targets_found
  end.

End Methods.

End MapScanner.

(* ================================================================== *)
(** ** Concrete collaborators used in the examples *)

Definition blank_frame : Frame := [[(0, 0, 0)]].

(** An environment in which every external call succeeds, the window
    stays valid, two frames correlate by [correlation], and the OCR reads
    [text] with confidence [conf] and quality [quality]. *)
Definition calm_env (correlation : Q) (text : string) (conf quality : Q) : Env := {|
  pyautogui_screenshot := fun _ _ => Ok blank_frame;
  pyautogui_moveTo := fun _ _ _ => Ok tt;
  pyautogui_drag := fun _ _ _ => Ok tt;
  pyautogui_scroll := fun _ _ => Ok tt;
  pyautogui_position := fun _ => (960, 540);
  pyautogui_size := (1920, 1080);
  random_uniform := fun _ lo hi => ((lo + hi) / 2)%Q;
  window_is_valid := fun _ => true;
  cv2_cvtColor := fun _ => Ok [[0]];
  cv2_matchTemplate := fun _ _ => Ok correlation;
  ocr_extract_text_comprehensive :=
    fun _ => {| best_text := text; best_confidence := conf |};
  ocr_evaluate_quality := fun _ => quality
|}.

Definition demo_mouse : MouseController.t := {|
  MouseController.center_x := 960;
  MouseController.center_y := 540;
  MouseController.effective_game_area := Some (115, 86, 1574, 864);
  MouseController.client_rect := Some (0, 0, 1920, 1080)
|}.

Definition demo_capture : ScreenCapture.t := {|
  ScreenCapture.center_x := 960;
  ScreenCapture.center_y := 540;
  ScreenCapture.capture_size := (500, 400);
  ScreenCapture.effective_game_area := Some (115, 86, 1574, 864)
|}.

Definition demo_scanner (env : Env) : MapScanner.t := {|
  MapScanner.window_center_x := 960;
  MapScanner.window_center_y := 540;
  MapScanner.screen_capture := ScreenCapture_obj env demo_capture;
  MapScanner.mouse_controller := demo_mouse;
  MapScanner.step_size := 550;
  MapScanner.vertical_step_size := 340;
  MapScanner.max_columns_per_row := 150;
  MapScanner.max_rows_total := 50
|}.

Definition world0 (running : bool) : World := {|
  running := running;
  optimal_zoom_level := 0;
  clock := 0;
  actions := [];
  log := []
|}.

Definition scrolls (w : World) : list Z :=
  flat_map (fun a => match a with Scroll c => [c] | _ => [] end)
           (rev (actions w)).

(** [ScanConfig.QUALITY_WEIGHTS] *)
Definition default_weights : utils.Weights := {|
  utils.w_confidence := 3 # 10;
  utils.w_size := 2 # 10;
  utils.w_count := 2 # 10;
  utils.w_readability := 3 # 10
|}.

Definition weights_of (v : pyval) : option utils.Weights :=
  match v with
  | VDict d =>
      match assoc "confidence" d, assoc "size" d,
            assoc "count" d, assoc "readability" d with
      | Some (VFloat a), Some (VFloat b), Some (VFloat c), Some (VFloat e) =>
          Some {| utils.w_confidence := a; utils.w_size := b;
                  utils.w_count := c; utils.w_readability := e |}
      | _, _, _, _ => None
      end
  | _ => None
  end.

Definition is_some {A} (o : option A) : bool :=
  match o with Some _ => true | None => false end.

Definition option_list {A} (o : option A) : list A :=
  match o with Some a => [a] | None => [] end.

(** Some tag pattern matches at the front of [s]. *)
Definition tagged (s : string) : bool :=
  existsb (fun p => is_some (PyStr.match_front p s)) utils.patterns.

(** The text is empty or starts with a character that is not white space. *)
Definition starts_clean (s : string) : Prop :=
  match s with
  | EmptyString => True
  | String c _ => PyStr.isspace c = false
  end.

(** The match recorded for a target found in the whole text. *)
Definition full_match (ocr_results : OcrResults) (target_name : string)
  : TargetMatch := {|
  name := target_name;
  detected_text := best_text ocr_results;
  matched_word := None;
  match_type := "exact_full";
  confidence := best_confidence ocr_results;
  ocr_strategy := "comprehensive";
  scan_position := None;
  scan_count := None
|}.

(** As [calm_env], but scrolling out (negative clicks) fails. *)
Definition zoom_in_only_env (quality : Q) : Env := {|
  pyautogui_screenshot := fun _ _ => Ok blank_frame;
  pyautogui_moveTo := fun _ _ _ => Ok tt;
  pyautogui_drag := fun _ _ _ => Ok tt;
  pyautogui_scroll :=
    fun _ clicks => if clicks <? 0 then Fails "scroll refused" else Ok tt;
  pyautogui_position := fun _ => (960, 540);
  pyautogui_size := (1920, 1080);
  random_uniform := fun _ lo hi => ((lo + hi) / 2)%Q;
  window_is_valid := fun _ => true;
  cv2_cvtColor := fun _ => Ok [[0]];
  cv2_matchTemplate := fun _ _ => Ok 1%Q;
  ocr_extract_text_comprehensive :=
    fun _ => {| best_text := ""; best_confidence := 0 |};
  ocr_evaluate_quality := fun _ => quality
|}.

Definition zoom_levels : list (Z * Z) :=
  [(1, 2); (2, 2); (3, 2); (-1, 2); (-2, 2); (-3, 2)].

Definition stopped_world (z : Z) (c : nat) (a : list Action)
    (l : list (Level * string)) : World :=
  {| running := false; optimal_zoom_level := z; clock := c;
     actions := a; log := l |}.

(** *** A scripted stand-in for [self.screen_capture]

    It answers the movement probes of the corner search from two scripts:
    [first k] is the report of the 450px drag of attempt [k], [confirm k]
    the report of the 200px confirmation drag of that attempt.  Each probe
    is recorded as a [Drag]; the attempt in progress is read off the number
    of 450px probes recorded so far. *)

Definition is_probe (distance : Z) (a : Action) : bool :=
  match a with
  | Drag dx _ _ => dx =? distance
  | _ => false
  end.

Definition probes (distance : Z) (w : World) : nat :=
  List.length (filter (is_probe distance) (actions w)).

Definition scripted_capture (first confirm : nat -> bool) : ScreenCaptureObj := {|
  sc_capture_screen := fun _ => ret (Some blank_frame);
  sc_capture_and_detect_movement :=
    fun _ dx dy duration _ w =>
      let n := probes 450 w in
      let moved := if dx =? 450 then first n else confirm (n - 1)%nat in
      (act (Drag dx dy duration) ;; ret (moved, "scripted")) w
|}.

Definition scripted_scanner (first confirm : nat -> bool) : MapScanner.t := {|
  MapScanner.window_center_x := 960;
  MapScanner.window_center_y := 540;
  MapScanner.screen_capture := scripted_capture first confirm;
  MapScanner.mouse_controller := demo_mouse;
  MapScanner.step_size := 550;
  MapScanner.vertical_step_size := 340;
  MapScanner.max_columns_per_row := 150;
  MapScanner.max_rows_total := 50
|}.

Definition fresh_world (c : nat) (l : list (Level * string)) : World :=
  {| running := true; optimal_zoom_level := 0; clock := c;
     actions := []; log := l |}.

(** The last record written to the log. *)
Definition last_logged (w : World) : option (Level * string) :=
  hd_error (log w).

(** The corner search is about to start attempt [a]. *)
Definition searching (a : nat) (w : World) : Prop :=
  running w = true /\ probes 450 w = a.

(** In attempt [k] neither the 450px drag nor its 200px confirmation
    reports movement. *)
Definition confirmed_pair (first confirm : nat -> bool) (k : nat) : Prop :=
  first k = false /\ confirm k = false.

(** The call raised [SafetyExit]. *)
Definition is_SafetyExit_raised {A} (o : outcome A) : bool :=
  match o with
  | Raise e => is_SafetyExit e
  | Return _ => false
  end.


(* ================================================================== *)
(** ** IEEE 754 binary64 arithmetic

    A finite double is the rational it denotes.  [round] gives the double
    nearest to a rational, ties to the even significand, with 53
    significant bits and the subnormal numbers below [2 ** -1022].
    Overflow to infinity is not modelled; no operation below comes near
    it. *)

Module binary64.

(** [2 ** e] *)
Definition pow2 (e : Z) : Q := Qpower 2 e.

(** [floor(log2(abs(q)))], for [q] other than 0. *)
Definition ilog2 (q : Q) : Z :=
  let k := Z.log2 (Z.abs (Qnum q)) - Z.log2 (Zpos (Qden q)) in
  if Qle_bool (pow2 k) (Qabs q) then k else k - 1.

(** The exponent of the smallest subnormal number. *)
Definition emin : Z := -1074.

(** The exponent of the unit in the last place at [q]: 53 significant
    bits, and no exponent below [emin]. *)
Definition ulp_exponent (q : Q) : Z := Z.max (ilog2 q - 52) emin.

(** Rounding of a positive number to the nearest multiple of its unit in
    the last place, ties to the even multiple. *)
Definition round_magnitude (q : Q) : Q :=
  let e := ulp_exponent q in
  (inject_Z (round_half_even (q / pow2 e)) * pow2 e)%Q.

(** Round to nearest, ties to even. *)
Definition round (q : Q) : Q :=
  match Qnum q with
  | Z0 => 0%Q
  | Zpos _ => round_magnitude q
  | Zneg _ => (- round_magnitude (- q))%Q
  end.

Definition add (a b : Q) : Q := round (a + b).
Definition sub (a b : Q) : Q := round (a - b).
Definition mul (a b : Q) : Q := round (a * b).
Definition div (a b : Q) : Q := round (a / b).

(** [float(n)] *)
Definition of_Z (n : Z) : Q := round (inject_Z n).

End binary64.

(** ** utils.py in binary64 arithmetic *)

(** The weights as Python holds them: each decimal literal of
    [config.py] denotes the nearest double. *)
Definition as_binary64 (weights : utils.Weights) : utils.Weights := {|
  utils.w_confidence := binary64.round (utils.w_confidence weights);
  utils.w_size := binary64.round (utils.w_size weights);
  utils.w_count := binary64.round (utils.w_count weights);
  utils.w_readability := binary64.round (utils.w_readability weights)
|}.

Module utils_binary64.

(** [calculate_quality_score] with every product and sum rounded as
    Python rounds it: [a*wa + b*wb + c*wc + d*wd] is evaluated from the
    left, and the integer scores are converted to doubles before they are
    multiplied.  [utils.calculate_quality_score] is the same expression
    without the roundings. *)
Definition calculate_quality_score
    (confidence height : Q) (text_count readable_words : Z)
    (weights : utils.Weights) : Q :=
  let confidence_score := utils.Qmin confidence 100 in
  let size_score := utils.size_score height in
  let count_score := Z.min (text_count * 15) 100 in
  let readability_score := Z.min (readable_words * 25) 100 in
  binary64.add
    (binary64.add
       (binary64.add
          (binary64.mul confidence_score (utils.w_confidence weights))
          (binary64.mul size_score (utils.w_size weights)))
       (binary64.mul (binary64.of_Z count_score) (utils.w_count weights)))
    (binary64.mul (binary64.of_Z readability_score)
                  (utils.w_readability weights)).

(** [int(capture_size * (1 - overlap_percent / 100))] *)
Definition calculate_overlap_step (capture_size : Z) (overlap_percent : Q) : Z :=
  int_of_Q
    (binary64.mul (binary64.of_Z capture_size)
                  (binary64.sub 1 (binary64.div overlap_percent 100))).

End utils_binary64.

(** A number that is a double. *)
Definition is_binary64 (q : Q) : bool := Qeq_bool (binary64.round q) q.

(* ================================================================== *)
(** ** utils.py, the other helpers *)

(** The margins dictionary, read by the four keys the function uses. *)
Record Margins : Type := {
  m_left : Q;
  m_right : Q;
  m_top : Q;
  m_bottom : Q
}.

Definition calculate_effective_area (client_rect : Z * Z * Z * Z)
    (ui_margins : Margins) : Z * Z * Z * Z :=
  let '(c0, c1, c2, c3) := client_rect in
  let window_width := c2 - c0 in
  let window_height := c3 - c1 in
  let left_margin := int_of_Q (inject_Z window_width * m_left ui_margins) in
  let right_margin := int_of_Q (inject_Z window_width * m_right ui_margins) in
  let top_margin := int_of_Q (inject_Z window_height * m_top ui_margins) in
  let bottom_margin := int_of_Q (inject_Z window_height * m_bottom ui_margins) in
  let effective_x := c0 + left_margin in
  let effective_y := c1 + top_margin in
  let effective_width := window_width - left_margin - right_margin in
  let effective_height := window_height - top_margin - bottom_margin in
  (effective_x, effective_y, effective_width, effective_height).

(** [WindowConfig.UI_MARGINS] *)
Definition default_margins : Margins := {|
  m_left := 6 # 100;
  m_right := 12 # 100;
  m_top := 8 # 100;
  m_bottom := 12 # 100
|}.

Definition margins_of (v : pyval) : option Margins :=
  match v with
  | VDict d =>
      match assoc "left" d, assoc "right" d, assoc "top" d, assoc "bottom" d with
      | Some (VFloat a), Some (VFloat b), Some (VFloat c), Some (VFloat e) =>
          Some {| m_left := a; m_right := b; m_top := c; m_bottom := e |}
      | _, _, _, _ => None
      end
  | _ => None
  end.

(** [s.split(sep)] for a separator of one character: the pieces between
    the separators, empty pieces included. *)
Fixpoint split_on (sep : ascii) (s : string) : list string :=
  match s with
  | EmptyString => [EmptyString]
  | String c r =>
      if Ascii.eqb c sep then EmptyString :: split_on sep r
      else match split_on sep r with
           | piece :: pieces => String c piece :: pieces
           | [] => [String c EmptyString]
           end
  end.

(** [[name.strip() for name in targets_str.split(",") if name.strip()]] *)
Definition parse_target_names (targets_str : string) : list string :=
  if PyStr.is_empty targets_str then []
  else map PyStr.strip
         (filter (fun name => negb (PyStr.is_empty (PyStr.strip name)))
                 (split_on "," targets_str)).

(** The character [c] occurs in [s]. *)
Fixpoint occurs (c : ascii) (s : string) : Prop :=
  match s with
  | EmptyString => False
  | String a r => a = c \/ occurs c r
  end.


(** [r] is a contiguous part of [s]. *)
Definition substring (r s : string) : Prop :=
  exists pre post : string, s = pre ++ r ++ post.


(* ================================================================== *)
(** ** window_manager.py: the computations on the client rectangle *)

Module WindowManager.

Record t : Type := {
  client_rect : option (Z * Z * Z * Z);
  window_width : Z;
  window_height : Z;
  effective_game_area : option (Z * Z * Z * Z);
  center_x : Z;
  center_y : Z
}.

(** [WindowConfig.UI_MARGINS], as the dictionary the callee reads. *)
Definition ui_margins : outcome Margins :=
  obind (getattr config.WindowConfig "UI_MARGINS")
        (fun v => match margins_of v with
                  | Some m => Return m
                  | None => Raise (Exn TypeError "margins are not numbers")
                  end).

Definition analyze_window_and_calculate_areas (self : t) : M (bool * t) :=
  match client_rect self with
  | None =>
      logger ERROR "No client rect available for window analysis" ;;
      ret (false, self)
  | Some rect =>
      margins <- lift ui_margins ;;
      let area := calculate_effective_area rect margins in
      let '(effective_x, effective_y, effective_width, effective_height) :=
        area in
      ret (true,
           {| client_rect := client_rect self;
              window_width := window_width self;
              window_height := window_height self;
              effective_game_area := Some area;
              center_x := effective_x + effective_width / 2;
              center_y := effective_y + effective_height / 2 |})
  end.

(** The coverage percentages written to the log divide by the sides of
    the effective area; a side of 0 raises [ZeroDivisionError] there. *)
Definition calculate_optimal_capture_size (self : t) : M (Z * Z) :=
  match effective_game_area self with
  | None =>
      lift (obind (getattr config.WindowConfig "DEFAULT_CAPTURE_SIZE") as_pair)
  | Some (_, _, effective_width, effective_height) =>
      let capture_width :=
        Z.max (int_of_Q (inject_Z effective_width * (85 # 100))) 600 in
      let capture_height :=
        Z.max (int_of_Q (inject_Z effective_height * (80 # 100))) 500 in
      if (effective_width =? 0) || (effective_height =? 0)
      then raise (Exn Exception "division by zero")
      else ret (capture_width, capture_height)
  end.

End WindowManager.

(** [MapScanner._optimize_for_screen_size]: the settings it assigns,
    given the window manager's effective area and the capture size.
    The three factors are the doubles nearest to 0.35, 0.30 and 0.25. *)
Definition _optimize_for_screen_size (self : MapScanner.t)
    (effective_game_area : option (Z * Z * Z * Z)) (capture_size : Z * Z)
  : M MapScanner.t :=
  match effective_game_area with
  | None => ret self
  | Some (_, _, effective_width, effective_height) =>
      let '(recommended_step, max_columns) :=
        if 1600 <=? effective_width
        then (int_of_Q (binary64.mul (binary64.of_Z effective_width)
                                     (binary64.round (35 # 100))), 150)
        else if 1200 <=? effective_width
        then (int_of_Q (binary64.mul (binary64.of_Z effective_width)
                                     (binary64.round (30 # 100))), 100)
        else (int_of_Q (binary64.mul (binary64.of_Z effective_width)
                                     (binary64.round (25 # 100))), 75) in
      let step_size := Z.max recommended_step 400 in
      overlap <- attr_float config.CaptureConfig "TARGET_OVERLAP_PERCENT" ;;
      let vertical_step_size :=
        utils_binary64.calculate_overlap_step (snd capture_size) overlap in
      let vertical_step_size := Z.max vertical_step_size 150 in
      ret {| MapScanner.window_center_x := MapScanner.window_center_x self;
             MapScanner.window_center_y := MapScanner.window_center_y self;
             MapScanner.screen_capture := MapScanner.screen_capture self;
             MapScanner.mouse_controller := MapScanner.mouse_controller self;
             MapScanner.step_size := step_size;
             MapScanner.vertical_step_size := vertical_step_size;
             MapScanner.max_columns_per_row := max_columns;
             MapScanner.max_rows_total := MapScanner.max_rows_total self |}
  end.

(** The window manager as [_prepare_window] leaves it for a client
    rectangle [(left, top, right, bottom)]. *)
Definition window_of (client_rect : Z * Z * Z * Z) : WindowManager.t :=
  let '(c0, c1, c2, c3) := client_rect in
  {| WindowManager.client_rect := Some client_rect;
     WindowManager.window_width := c2 - c0;
     WindowManager.window_height := c3 - c1;
     WindowManager.effective_game_area := None;
     WindowManager.center_x := 0;
     WindowManager.center_y := 0 |}.


(** The window manager once the effective area [(x, y, width, height)] is
    stored and the centre is moved to its middle, as
    [analyze_window_and_calculate_areas] leaves it. *)
Definition analysed_window (area : Z * Z * Z * Z) : WindowManager.t :=
  let '(x, y, width, height) := area in
  {| WindowManager.client_rect := None;
     WindowManager.window_width := 0;
     WindowManager.window_height := 0;
     WindowManager.effective_game_area := Some area;
     WindowManager.center_x := x + width / 2;
     WindowManager.center_y := y + height / 2 |}.

(** The screen capture object that [MapScanner.initialize] builds from the
    window manager and the capture size. *)
Definition initial_capture (wm : WindowManager.t) (capture_size : Z * Z)
  : ScreenCapture.t :=
  {| ScreenCapture.center_x := WindowManager.center_x wm;
     ScreenCapture.center_y := WindowManager.center_y wm;
     ScreenCapture.capture_size := capture_size;
     ScreenCapture.effective_game_area := WindowManager.effective_game_area wm |}.


(* ================================================================== *)
(** ** Invariants of the world *)

(** Running [m] from a world in [I] ends in a world in [I]. *)
Definition preserves {A} (I : World -> Prop) (m : M A) : Prop :=
  forall w, I w -> I (snd (m w)).

(** The messages logged at level INFO, latest first. *)
Definition info_records (w : World) : list string :=
  flat_map (fun r => match fst r with INFO => [snd r] | _ => [] end) (log w).

(** What the orchestrator's control flow can observe of the world: the
    running flag, the stored zoom level and the INFO records. *)
Definition view (w : World) : bool * Z * list string :=
  (running w, optimal_zoom_level w, info_records w).

(** An invariant that the clock, the issued actions and the records of
    level ERROR and WARNING do not affect. *)
Definition observable (I : World -> Prop) : Prop :=
  forall w w', view w = view w' -> I w -> I w'.

(** [m] may raise, but never [SafetyExit]. *)
Definition no_SafetyExit {A} (m : M A) : Prop :=
  forall w, is_SafetyExit_raised (fst (m w)) = false.

(** [m] always returns (it never raises). *)
Definition returns {A} (m : M A) : Prop :=
  forall w, exists a, fst (m w) = Return a.

(** [m] always returns [(False, info)]. *)
Definition reports_no_movement (m : M (bool * string)) : Prop :=
  forall w, exists info, fst (m w) = Return (false, info).


(** [m] returns [(False, info)] whenever it returns. *)
Definition false_or_raises (m : M (bool * string)) : Prop :=
  forall w, match fst (m w) with
            | Return (moved, _) => moved = false
            | Raise _ => True
            end.


Definition is_ok {A} (r : ext A) : bool :=
  match r with Ok _ => true | Fails _ => false end.


(** Whenever [m] returns, its result satisfies [P]. *)
Definition ensures {A} (P : A -> Prop) (m : M A) : Prop :=
  forall w, match fst (m w) with
            | Return a => P a
            | Raise _ => True
            end.


(** What makes a reported match genuine, for the OCR result it was read
    from: the target was asked for, and either its lower-cased name occurs
    in the lower-cased text, or one of the words of that text matches it. *)
Definition genuine_match (ocr_results : OcrResults)
    (target_names : list string) (m : TargetMatch) : Prop :=
  let detected := PyStr.lower (best_text ocr_results) in
  In (name m) target_names
  /\ detected_text m = best_text ocr_results
  /\ confidence m = best_confidence ocr_results
  /\ ((match_type m = "exact_full" /\ matched_word m = None
       /\ PyStr.contains (PyStr.lower (name m)) detected = true)
      \/ (match_type m = "exact_word"
          /\ PyStr.contains (PyStr.lower (name m)) detected = false
          /\ exists word,
               matched_word m = Some word
               /\ In word (PyStr.split detected)
               /\ MapScanner.word_matches (PyStr.lower (name m))
                    (PyStr.lower
                       (utils.extract_player_name_from_alliance_tag (name m)))
                    word = true)).


(** ** The zoom calibration, step by step *)

(** The screenshots and wheel scrolls issued so far, oldest first. *)
Definition is_zoom_event (a : Action) : bool :=
  match a with
  | Screenshot _ _ _ _ | Scroll _ => true
  | _ => false
  end.

Definition zoom_events (w : World) : list Action :=
  filter is_zoom_event (rev (actions w)).

(** The screenshot [capture_screen] takes for a given capturer. *)
Definition shot_of (sc : ScreenCapture.t) : Action :=
  let '(x, y) := ScreenCapture._calculate_capture_coordinates sc in
  let '(cw, ch) := ScreenCapture.capture_size sc in
  Screenshot x y cw ch.

(** The rectangle [capture_screen] photographs for a given capturer. *)
Definition capture_rect (sc : ScreenCapture.t) : Z * Z * Z * Z :=
  let '(x, y) := ScreenCapture._calculate_capture_coordinates sc in
  let '(cw, ch) := ScreenCapture.capture_size sc in
  (x, y, cw, ch).

(** The calibration state with the clock. *)
Definition timed_state (w : World) : bool * Z * list Action * nat :=
  (running w, optimal_zoom_level w, zoom_events w, clock w).

(** The zoom levels with the reading of the clock at which each is
    photographed, when the loop over the levels starts at [start]: a
    level takes three external calls (window check, scroll, screenshot). *)
Fixpoint timed_levels (start : nat) (levels : list (Z * Z)) : list (Z * nat) :=
  match levels with
  | [] => []
  | (zoom_level, _) :: rest =>
      (zoom_level, (start + 2)%nat) :: timed_levels (start + 3)%nat rest
  end.

(** [best] is the first element of [l] with the greatest key. *)
Definition first_maximum {A} (key : A -> Q) (best : A) (l : list A) : Prop :=
  exists before after,
    l = (before ++ best :: after)%list
    /\ (forall x, In x before -> (key x < key best)%Q)
    /\ (forall x, In x after -> (key x <= key best)%Q).

(** The quality read off the frame photographed at a reading of the
    clock, for a level recorded with that reading. *)
Definition reading (env : Env) (frames : nat -> Frame) (e : Z * nat) : Q :=
  ocr_evaluate_quality env (frames (snd e)).


(** ** The OCR engine (ocr_engine.py) *)

(** [sep.join(l)] *)
Fixpoint join (sep : string) (l : list string) : string :=
  match l with
  | [] => ""
  | [x] => x
  | x :: r => x ++ sep ++ join sep r
  end.

(** [str.isalpha] on one code point below 256. *)
Definition isalpha (c : ascii) : bool :=
  let n := PyStr.code c in
  ((65 <=? n) && (n <=? 90) || (97 <=? n) && (n <=? 122)
   || (n =? 170) || (n =? 181) || (n =? 186)
   || (192 <=? n) && (n <=? 214) || (216 <=? n) && (n <=? 246)
   || (248 <=? n))%N.

(** [any(c.isalpha() for c in s)] *)
Fixpoint any_alpha (s : string) : bool :=
  match s with
  | EmptyString => false
  | String c r => isalpha c || any_alpha r
  end.

(** [np.mean] of a list of integers; the code calls it on non-empty
    lists only. *)
Definition mean (l : list Z) : Q :=
  Qdiv (inject_Z (fold_right Z.add 0 l))
       (inject_Z (Z.of_nat (List.length l))).

(** [OCRConfig.OCR_STRATEGIES]: the pairs of a preprocessing strategy and
    the name of a Tesseract configuration, in the order they are tried. *)
Definition OCR_STRATEGIES : list (string * string) :=
  [ ("game_text", "game_names");
    ("white_text_outline", "single_word_game");
    ("upscale_sharp", "legacy_single");
    ("enhanced_contrast", "raw_line_game");
    ("game_text", "legacy_raw");
    ("upscale", "game_names");
    ("upscale_sharp", "sparse_text_game");
    ("default", "player_names");
    ("sharp_text", "alliance_names");
    ("denoise", "text_heavy");
    ("high_contrast", "single_word") ].

Module OCREngine.

(** One index of the dictionary of parallel lists that
    [pytesseract.image_to_data] returns; [word_conf] is
    [int(ocr_data['conf'][i])]. *)
Record Word : Type := {
  word_text : string;
  word_conf : Z;
  word_height : Z;
  word_width : Z
}.

(** An entry of [results['all_detections']]. *)
Record Detection : Type := {
  det_text : string;
  det_confidence : Z;
  det_strategy : string;
  det_config : string;
  det_height : Z;
  det_width : Z
}.

(** The [results] dictionary of [extract_text_comprehensive]. *)
Record Results : Type := {
  texts : list string;
  confidences : list Q;
  best_text : string;
  best_confidence : Q;
  all_detections : list Detection
}.

(** The metrics of the dictionary [evaluate_quality] returns beside the
    score; the three error dictionaries, which carry no metrics, are
    [None]. *)
Record QualityInfo : Type := {
  overall_quality : Q;
  avg_confidence : Q;
  avg_height : Q;
  text_count : Z;
  readable_words : Z;
  detected_texts : list string
}.

Section Engine.
(** Preprocessing with a strategy followed by [image_to_data] with the
    configuration of the given name: the words read, or an exception of
    either step. *)
Variable image_to_data : string -> string -> Frame -> ext (list Word).

(** [_process_ocr_data].  The detections are appended to the caller's
    [results['all_detections']] in place, so they are kept even when the
    loop is left by an exception. *)
Fixpoint _process_ocr_data (ocr_data : list Word)
    (preprocess_strategy ocr_config : string)
    (strategy_texts : list string) (strategy_confidences : list Z)
    (all_detections : list Detection)
  : outcome (list string * list Z) * list Detection :=
  match ocr_data with
  | [] => (Return (strategy_texts, strategy_confidences), all_detections)
  | row :: rest =>
      let text := PyStr.strip (word_text row) in
      let confidence := word_conf row in
      match obind (getattr config.OCRConfig "MIN_TEXT_LENGTH") as_int with
      | Raise e => (Raise e, all_detections)
      | Return min_text_length =>
          if Z.of_nat (String.length text) >=? min_text_length then
            match obind (getattr config.OCRConfig "MIN_CONFIDENCE_THRESHOLD")
                        as_int with
            | Raise e => (Raise e, all_detections)
            | Return min_confidence =>
                if confidence >? min_confidence then
                  _process_ocr_data rest preprocess_strategy ocr_config
                    (strategy_texts ++ [text])%list
                    (strategy_confidences ++ [confidence])%list
                    (all_detections ++
                     [{| det_text := text;
                         det_confidence := confidence;
                         det_strategy := preprocess_strategy;
                         det_config := ocr_config;
                         det_height := word_height row;
                         det_width := word_width row |}])%list
                else
                  _process_ocr_data rest preprocess_strategy ocr_config
                    strategy_texts strategy_confidences all_detections
            end
          else
            _process_ocr_data rest preprocess_strategy ocr_config
              strategy_texts strategy_confidences all_detections
      end
  end.

Definition with_detections (results : Results) (d : list Detection)
  : Results :=
  {| texts := texts results; confidences := confidences results;
     best_text := best_text results;
     best_confidence := best_confidence results;
     all_detections := d |}.

(** The body of the loop over the strategies, with its own
    [try ... except Exception: continue]. *)
Definition try_strategy (image : Frame) (results : Results)
    (s : string * string) : Results :=
  let '(preprocess_strategy, ocr_config) := s in
  match image_to_data preprocess_strategy ocr_config image with
  | Fails _ => results
  | Ok ocr_data =>
      match _process_ocr_data ocr_data preprocess_strategy ocr_config [] []
              (all_detections results) with
      | (Raise _, detections) => with_detections results detections
      | (Return (strategy_texts, strategy_confidences), detections) =>
          match strategy_texts with
          | [] => with_detections results detections
          | _ :: _ =>
              let combined_text := join " " strategy_texts in
              let avg_confidence := mean strategy_confidences in
              let better := Qlt_bool (best_confidence results) avg_confidence in
              {| texts := (texts results ++ [combined_text])%list;
                 confidences := (confidences results ++ [avg_confidence])%list;
                 best_text :=
                   if better then combined_text else best_text results;
                 best_confidence :=
                   if better then avg_confidence else best_confidence results;
                 all_detections := detections |}
          end
      end
  end.

Definition empty_results : Results :=
  {| texts := []; confidences := []; best_text := ""; best_confidence := 0;
     all_detections := [] |}.

(** The final clean-up of the best text. *)
Definition cleanup (results : Results) : Results :=
  if PyStr.is_empty (best_text results) then results
  else
    {| texts := texts results; confidences := confidences results;
       best_text := join " " (PyStr.split (best_text results));
       best_confidence := best_confidence results;
       all_detections := all_detections results |}.

(** [extract_text_comprehensive].  Nothing outside the loop body raises,
    so the outer handler, which returns [results] as they are, is not
    entered. *)
Definition extract_text_comprehensive (image : Frame) : Results :=
  cleanup (fold_left (try_strategy image) OCR_STRATEGIES empty_results).

(** The detections [evaluate_quality] counts as readable words. *)
Definition is_readable (det : Detection) : bool :=
  (3 <=? String.length (PyStr.strip (det_text det)))%nat
  && any_alpha (det_text det).

(** [evaluate_quality]: the score and the metrics.  A failure to read
    the weights is caught by the handler, which answers [0.0]. *)
Definition evaluate_quality (image : option Frame) : Q * option QualityInfo :=
  match image with
  | None => (0%Q, None)
  | Some image =>
      let ocr_results := extract_text_comprehensive image in
      match all_detections ocr_results with
      | [] => (0%Q, None)
      | _ :: _ =>
          let confidences := map det_confidence (all_detections ocr_results) in
          let heights := map det_height (all_detections ocr_results) in
          let avg_confidence := mean confidences in
          let avg_height := mean heights in
          let text_count :=
            Z.of_nat (List.length (all_detections ocr_results)) in
          let readable_words :=
            Z.of_nat (List.length (filter is_readable
                                          (all_detections ocr_results))) in
          match match getattr config.ScanConfig "QUALITY_WEIGHTS" with
                | Return v => weights_of v
                | Raise _ => None
                end with
          | None => (0%Q, None)
          | Some weights =>
              let overall_quality :=
                utils.calculate_quality_score avg_confidence avg_height
                  text_count readable_words weights in
              (overall_quality,
               Some {| overall_quality := overall_quality;
                       avg_confidence := avg_confidence;
                       avg_height := avg_height;
                       text_count := text_count;
                       readable_words := readable_words;
                       detected_texts :=
                         map det_text
                             (firstn 5 (all_detections ocr_results)) |})
          end
      end
  end.

End Engine.
End OCREngine.

(** A detection as [_process_ocr_data] makes it from a word. *)
Definition detection_of (preprocess_strategy ocr_config : string)
    (row : OCREngine.Word) : OCREngine.Detection :=
  {| OCREngine.det_text := PyStr.strip (OCREngine.word_text row);
     OCREngine.det_confidence := OCREngine.word_conf row;
     OCREngine.det_strategy := preprocess_strategy;
     OCREngine.det_config := ocr_config;
     OCREngine.det_height := OCREngine.word_height row;
     OCREngine.det_width := OCREngine.word_width row |}.

(** The words that [_process_ocr_data] keeps. *)
Definition is_kept (row : OCREngine.Word) : bool :=
  (2 <=? Z.of_nat (String.length (PyStr.strip (OCREngine.word_text row))))
  && (20 <? OCREngine.word_conf row).

(** What every recorded detection satisfies. *)
Definition passes_filter (det : OCREngine.Detection) : Prop :=
  (2 <= String.length (OCREngine.det_text det))%nat
  /\ 20 < OCREngine.det_confidence det
  /\ PyStr.strip (OCREngine.det_text det) = OCREngine.det_text det.

(** The detections one strategy contributes. *)
Definition detections_of (image_to_data : string -> string -> Frame -> ext (list OCREngine.Word))
    (image : Frame) (s : string * string) : list OCREngine.Detection :=
  match image_to_data (fst s) (snd s) image with
  | Ok ocr_data => map (detection_of (fst s) (snd s)) (filter is_kept ocr_data)
  | Fails _ => []
  end.

(** A text that begins with a character that is not white space. *)
Definition starts_word (s : string) : Prop :=
  match s with
  | EmptyString => False
  | String c _ => PyStr.isspace c = false
  end.

(** What holds of the results after any number of strategies. *)
Definition consistent (r : OCREngine.Results) : Prop :=
  Forall (fun c => (20 < c)%Q /\ (c <= OCREngine.best_confidence r)%Q)
         (OCREngine.confidences r)
  /\ (OCREngine.all_detections r = [] /\ OCREngine.best_text r = ""
      /\ OCREngine.best_confidence r = 0%Q /\ OCREngine.texts r = []
      \/ OCREngine.all_detections r <> []
         /\ starts_word (OCREngine.best_text r)
         /\ In (OCREngine.best_confidence r) (OCREngine.confidences r)).

(** An engine for the examples: the strategy [game_text] reads three
    words, every other strategy fails. *)
Definition demo_image_to_data (preprocess_strategy ocr_config : string)
    (image : Frame) : ext (list OCREngine.Word) :=
  if String.eqb preprocess_strategy "game_text" then
    Ok [ {| OCREngine.word_text := " [MoL]Alice ";
            OCREngine.word_conf := 87;
            OCREngine.word_height := 18;
            OCREngine.word_width := 120 |};
         {| OCREngine.word_text := "x";
            OCREngine.word_conf := 95;
            OCREngine.word_height := 18;
            OCREngine.word_width := 9 |};
         {| OCREngine.word_text := "Bob";
            OCREngine.word_conf := 12;
            OCREngine.word_height := 17;
            OCREngine.word_width := 31 |} ]
  else Fails "no text".

Definition demo_word : OCREngine.Word :=
  {| OCREngine.word_text := " [MoL]Alice ";
     OCREngine.word_conf := 87;
     OCREngine.word_height := 18;
     OCREngine.word_width := 120 |}.


(** ** The command line (main.py) *)

Module main.

(** The parsed arguments; [targets] and [log_file] are [None] when the
    option is not given. *)
Record Namespace : Type := {
  targets : option string;
  window : string;
  max_rows : Z;
  test : string;
  debug : bool;
  log_file : option string
}.

(** [parse_target_names(args.targets)]; for [None] the function answers
    [[]] as for the empty string. *)
Definition parse_targets (targets : option string) : list string :=
  match targets with
  | None => []
  | Some targets_str => parse_target_names targets_str
  end.

(** The truth value of [args.targets]. *)
Definition given (targets : option string) : bool :=
  match targets with
  | None => false
  | Some targets_str => negb (PyStr.is_empty targets_str)
  end.

Definition validate_arguments (args : Namespace) : bool * option string :=
  let test_mode := String.eqb (test args) "yes" in
  if negb test_mode && negb (given (targets args)) then
    (false, Some "--targets is required when not in test mode")
  else if negb test_mode
          && match parse_targets (targets args) with
             | [] => true
             | _ :: _ => false
             end then
    (false, Some "No valid target names provided")
  else if max_rows args <=? 0 then
    (false, Some "max-rows must be greater than 0")
  else if max_rows args >? 100 then
    (false, Some "max-rows should not exceed 100 for safety")
  else (true, None).

(** The target names [main] hands to the scanner:
    [parse_target_names(args.targets) if args.targets else []]. *)
Definition target_names (args : Namespace) : list string :=
  if given (targets args) then parse_targets (targets args) else [].

End main.

(* ================================================================== *)
(** * Results *)

(** ** Capture coordinates *)

Lemma safe_clamp_bounds (v lo hi : Z) :
  lo <= hi -> lo <= utils.safe_clamp v lo hi <= hi.
Proof. unfold utils.safe_clamp; lia. Qed.

(** C6: for an effective area (ex, ey, ew, eh) and a capture size (w, h)
    with w <= ew and h <= eh, the capture origin computed from any centre
    lies between the area's origin and the area's far corner minus the
    capture size, on both axes; so the capture rectangle is inside the
    area. *)
Theorem capture_origin_inside_area (cx cy w h ex ey ew eh : Z) :
  w <= ew -> h <= eh ->
  let self := {| ScreenCapture.center_x := cx;
                 ScreenCapture.center_y := cy;
                 ScreenCapture.capture_size := (w, h);
                 ScreenCapture.effective_game_area := Some (ex, ey, ew, eh) |} in
  let origin := ScreenCapture._calculate_capture_coordinates self in
  (ex <= fst origin <= ex + ew - w /\ ey <= snd origin <= ey + eh - h)
  /\ fst origin + w <= ex + ew /\ snd origin + h <= ey + eh.
Proof.
  intros Hw Hh self origin.
  assert (Hx : ex <= fst origin <= ex + ew - w)
    by (apply safe_clamp_bounds; lia).
  assert (Hy : ey <= snd origin <= ey + eh - h)
    by (apply safe_clamp_bounds; lia).
  repeat split; lia.
Qed.

Lemma capture_origin_inside_area_witness :
  let origin := ScreenCapture._calculate_capture_coordinates
                  {| ScreenCapture.center_x := 5000;
                     ScreenCapture.center_y := -40;
                     ScreenCapture.capture_size := (500, 400);
                     ScreenCapture.effective_game_area :=
                       Some (115, 86, 1574, 864) |} in
  (115 <= fst origin <= 115 + 1574 - 500 /\ 86 <= snd origin <= 86 + 864 - 400)
  /\ fst origin + 500 <= 115 + 1574 /\ snd origin + 400 <= 86 + 864.
Proof.
  apply (capture_origin_inside_area 5000 (-40) 500 400 115 86 1574 864); lia.
Defined.

(** ** Quality score *)

Lemma default_weights_from_config :
  match getattr config.ScanConfig "QUALITY_WEIGHTS" with
  | Return v => weights_of v
  | Raise _ => None
  end = Some default_weights.
Proof. reflexivity. Qed.

(** ** Alliance tags *)

Section Strip.
Import PyStr.

Lemma lstrip_starts_clean (s : string) : starts_clean (lstrip s).
Proof.
  induction s as [|c r IH]; simpl; [exact I|].
  destruct (isspace c) eqn:E; [exact IH | exact E].
Qed.

Lemma lstrip_of_clean (s : string) : starts_clean s -> lstrip s = s.
Proof. destruct s as [|c r]; simpl; [reflexivity|]. now intros ->. Qed.

Lemma rstrip_starts_clean (s : string) :
  starts_clean s -> starts_clean (rstrip s).
Proof.
  destruct s as [|c r]; simpl; [trivial|]. intros E.
  destruct (rstrip r); simpl; [rewrite E; exact E | exact E].
Qed.

Lemma rstrip_idempotent (s : string) : rstrip (rstrip s) = rstrip s.
Proof.
  induction s as [|c r IH]; simpl; [reflexivity|].
  destruct (rstrip r) as [|c' r'] eqn:E.
  - destruct (isspace c) eqn:Ec; simpl; [reflexivity | now rewrite Ec].
  - change (rstrip (String c (String c' r')))
      with (match rstrip (String c' r') with
            | EmptyString =>
                if isspace c then EmptyString else String c EmptyString
            | x => String c x
            end).
    now rewrite IH.
Qed.

Lemma strip_idempotent (s : string) : strip (strip s) = strip s.
Proof.
  unfold strip.
  rewrite (lstrip_of_clean (rstrip (lstrip s))).
  - apply rstrip_idempotent.
  - apply rstrip_starts_clean, lstrip_starts_clean.
Qed.

Lemma re_sub_no_match (p : pattern) (s : string) :
  match_front p s = None -> re_sub p s = s.
Proof. unfold re_sub. now intros ->. Qed.

Lemma fold_strip_fixed (ps : list pattern) (r : string) :
  (forall p, In p ps -> match_front p r = None) ->
  strip r = r ->
  fold_left utils.strip_step ps r = r.
Proof.
  intros Hp Hs. induction ps as [|p ps IH]; simpl; [reflexivity|].
  unfold utils.strip_step at 2.
  rewrite (re_sub_no_match p r), Hs by (apply Hp; now left).
  apply IH. intros q Hq. apply Hp. now right.
Qed.

Lemma untagged_no_match (r : string) :
  tagged r = false ->
  forall p, In p utils.patterns -> match_front p r = None.
Proof.
  unfold tagged. intros H p Hp.
  destruct (match_front p r) eqn:E; [|reflexivity].
  assert (Ht : existsb (fun p => is_some (match_front p r)) utils.patterns
               = true)
    by (apply existsb_exists; exists p; split; [exact Hp | now rewrite E]).
  congruence.
Qed.

Lemma cleaned_is_stripped (s : string) :
  exists x, fold_left utils.strip_step utils.patterns s = strip x.
Proof. unfold utils.patterns; simpl; unfold utils.strip_step at 1.
       eexists; reflexivity. Qed.

End Strip.

(** C5 (as the claim states it, refuted): stripping the result of stripping
    "(A)[B]X" is not the same as stripping it once, since each pattern is
    tried once, in a fixed order. *)
Lemma strip_tags_not_idempotent :
  utils.extract_player_name_from_alliance_tag
    (utils.extract_player_name_from_alliance_tag "(A)[B]X")
  <> utils.extract_player_name_from_alliance_tag "(A)[B]X".
Proof. vm_compute. discriminate. Qed.

(** C5 (amended): stripping "[ABC]PlayerX" gives "PlayerX" and stripping
    "PlayerX" leaves it unchanged; the five patterns are each applied once,
    in the order [..], (..), {..}, <..>, ..|, each followed by trimming
    white space; and stripping is idempotent on every string whose stripped
    form no longer starts with a tag pattern. *)
Theorem strip_tags_idempotent_when_untagged :
  utils.extract_player_name_from_alliance_tag "[ABC]PlayerX" = "PlayerX"
  /\ utils.extract_player_name_from_alliance_tag "PlayerX" = "PlayerX"
  /\ (forall s : string,
        let step p t := PyStr.strip (PyStr.re_sub p t) in
        let cleaned :=
          step (PyStr.UpTo "|")
            (step (PyStr.Delimited "<" ">")
               (step (PyStr.Delimited "{" "}")
                  (step (PyStr.Delimited "(" ")")
                     (step (PyStr.Delimited "[" "]") s)))) in
        utils.extract_player_name_from_alliance_tag s
        = if PyStr.is_empty cleaned then s else cleaned)
  /\ (forall s : string,
        tagged (utils.extract_player_name_from_alliance_tag s) = false ->
        utils.extract_player_name_from_alliance_tag
          (utils.extract_player_name_from_alliance_tag s)
        = utils.extract_player_name_from_alliance_tag s).
Proof.
  split; [reflexivity|]. split; [reflexivity|]. split; [reflexivity|].
  intros s. unfold utils.extract_player_name_from_alliance_tag at 1 3 4.
  destruct (cleaned_is_stripped s) as [x Hx].
  destruct (PyStr.is_empty (fold_left utils.strip_step utils.patterns s)) eqn:E.
  - intros _. unfold utils.extract_player_name_from_alliance_tag.
    now rewrite E.
  - intros Hu. unfold utils.extract_player_name_from_alliance_tag.
    rewrite (fold_strip_fixed utils.patterns
               (fold_left utils.strip_step utils.patterns s)).
    + now rewrite E.
    + now apply untagged_no_match.
    + rewrite Hx. apply strip_idempotent.
Qed.

Lemma strip_tags_idempotent_when_untagged_witness :
  utils.extract_player_name_from_alliance_tag
    (utils.extract_player_name_from_alliance_tag "[HxC] Player One ")
  = utils.extract_player_name_from_alliance_tag "[HxC] Player One ".
Proof.
  apply (proj2 (proj2 (proj2 strip_tags_idempotent_when_untagged))
           "[HxC] Player One ").
  reflexivity.
Defined.

(** ** Target matching *)

Section Matching.
Variable ocr_results : OcrResults.

Let detected := PyStr.lower (best_text ocr_results).
Let hit (t : string) : option TargetMatch :=
  MapScanner.match_target ocr_results detected t.

Lemma first_word_match_fields (t tl tw : string) (words : list string)
      (m : TargetMatch) :
  MapScanner.first_word_match ocr_results t tl tw words = Some m ->
  name m = t /\ confidence m = best_confidence ocr_results.
Proof.
  induction words as [|word rest IH]; simpl; [discriminate|].
  destruct (MapScanner.word_matches tl tw word); [|exact IH].
  intros [= <-]. now split.
Qed.

Lemma match_target_fields (t : string) (m : TargetMatch) :
  hit t = Some m ->
  name m = t /\ confidence m = best_confidence ocr_results.
Proof.
  unfold hit, MapScanner.match_target.
  destruct (PyStr.contains (PyStr.lower t) detected).
  - intros [= <-]. now split.
  - apply first_word_match_fields.
Qed.

Lemma collect_targets_flat_map (ts : list string) (acc : list TargetMatch) :
  MapScanner.collect_targets ocr_results detected ts acc
  = (acc ++ flat_map (fun t => option_list (hit t)) ts)%list.
Proof.
  revert acc. induction ts as [|t ts IH]; intros acc; simpl.
  - now rewrite app_nil_r.
  - rewrite IH. unfold hit at 2.
    destruct (MapScanner.match_target ocr_results detected t); simpl.
    + now rewrite <- app_assoc.
    + reflexivity.
Qed.

Lemma found_targets_flat_map (ts : list string) :
  MapScanner.found_targets_of ocr_results ts
  = flat_map (fun t => option_list (hit t)) ts.
Proof. unfold MapScanner.found_targets_of. apply collect_targets_flat_map. Qed.

Lemma found_confidence (ts : list string) (m : TargetMatch) :
  In m (MapScanner.found_targets_of ocr_results ts) ->
  confidence m = best_confidence ocr_results.
Proof.
  rewrite found_targets_flat_map, in_flat_map.
  intros (t & _ & Hm). destruct (hit t) as [m'|] eqn:E; simpl in Hm.
  - destruct Hm as [<-|[]]. now apply (match_target_fields t).
  - destruct Hm.
Qed.

Lemma Qlt_bool_irrefl (q : Q) : Qlt_bool q q = false.
Proof.
  unfold Qlt_bool. replace (Qle_bool q q) with true; [reflexivity|].
  symmetry. apply Qle_bool_iff, Qle_refl.
Qed.

Lemma py_max_from_constant {A : Type} (key : A -> Q) (best : A)
      (rest : list A) :
  (forall x, In x rest -> key x = key best) ->
  py_max_from key best rest = best.
Proof.
  induction rest as [|x r IH]; simpl; [reflexivity|]. intros H.
  rewrite (H x) by now left. rewrite Qlt_bool_irrefl.
  apply IH. intros y Hy. apply H. now right.
Qed.

Lemma py_max_found (ts : list string) :
  py_max confidence (MapScanner.found_targets_of ocr_results ts)
  = hd_error (MapScanner.found_targets_of ocr_results ts).
Proof.
  pose proof (found_confidence ts) as Hc.
  destruct (MapScanner.found_targets_of ocr_results ts) as [|m r]; simpl;
    [reflexivity|].
  f_equal. apply py_max_from_constant. intros x Hx.
  rewrite (Hc x) by now right. symmetry. apply Hc. now left.
Qed.

Lemma hd_found (ts : list string) :
  hd_error (flat_map (fun t => option_list (hit t)) ts)
  = match find (fun t => is_some (hit t)) ts with
    | Some t => hit t
    | None => None
    end.
Proof.
  induction ts as [|t ts IH]; simpl; [reflexivity|].
  destruct (hit t) eqn:E; simpl; [now rewrite E | exact IH].
Qed.

Lemma found_names_count (ts : list string) (t : string) :
  (count_occ string_dec
     (map name (flat_map (fun t => option_list (hit t)) ts)) t
   <= count_occ string_dec ts t)%nat.
Proof.
  induction ts as [|u ts IH]; simpl; [lia|].
  destruct (hit u) as [m|] eqn:E; simpl.
  - destruct (match_target_fields u m E) as [-> _].
    destruct (string_dec u t); lia.
  - destruct (string_dec u t); lia.
Qed.

End Matching.

(** C9: in [search_for_targets] every candidate match of one frame carries
    the frame's [best_confidence]; the match returned as the one of highest
    confidence is therefore the first candidate, which is the match of the
    earliest target of [target_names] that matches; and the candidates are
    gathered one per matching entry of [target_names], in order, so a name
    has no more candidates than it has entries in the list. *)
Theorem search_returns_earliest_target
    (env : Env) (image : Frame) (target_names : list string) (w : World) :
  let ocr_results := ocr_extract_text_comprehensive env image in
  let detected := PyStr.lower (best_text ocr_results) in
  let hit := MapScanner.match_target ocr_results detected in
  let found := MapScanner.found_targets_of ocr_results target_names in
  (forall m, In m found -> confidence m = best_confidence ocr_results)
  /\ found = flat_map (fun t => option_list (hit t)) target_names
  /\ (forall t, count_occ string_dec (map name found) t
                <= count_occ string_dec target_names t)%nat
  /\ py_max confidence found
     = match find (fun t => is_some (hit t)) target_names with
       | Some t => hit t
       | None => None
       end
  /\ MapScanner.search_for_targets env (Some image) target_names w
     = (Return
          (if PyStr.is_empty (best_text ocr_results) then (false, None)
           else match find (fun t => is_some (hit t)) target_names with
                | Some t => (true, hit t)
                | None => (false, None)
                end), w).
Proof.
  intros ocr_results detected hit found.
  assert (Hmax : py_max confidence found
                 = match find (fun t => is_some (hit t)) target_names with
                   | Some t => hit t
                   | None => None
                   end).
  { unfold found. rewrite py_max_found, found_targets_flat_map. apply hd_found. }
  split; [apply found_confidence|].
  split; [apply found_targets_flat_map|].
  split; [intros t; unfold found; rewrite found_targets_flat_map;
          apply found_names_count|].
  split; [exact Hmax|].
  unfold MapScanner.search_for_targets, try_except.
  fold ocr_results.
  destruct (PyStr.is_empty (best_text ocr_results)); [reflexivity|].
  fold found. rewrite Hmax.
  destruct (find (fun t => is_some (hit t)) target_names) as [t|] eqn:Ef.
  - apply find_some in Ef. destruct Ef as [_ Ef].
    destruct (hit t); [reflexivity | discriminate].
  - reflexivity.
Qed.

Lemma search_returns_earliest_target_witness :
  let env := calm_env 1 "Alice [x]bob carol" 77 0 in
  let ocr_results := ocr_extract_text_comprehensive env blank_frame in
  confidence (full_match ocr_results "Bob") = 77%Q
  /\ fst (MapScanner.search_for_targets env (Some blank_frame)
            ["Dave"; "Bob"; "Alice"] (world0 true))
     = Return (true, Some (full_match ocr_results "Bob")).
Proof.
  intros env ocr_results.
  destruct (search_returns_earliest_target env blank_frame
              ["Dave"; "Bob"; "Alice"] (world0 true))
    as (Hconf & _ & _ & _ & Hsearch).
  split.
  - apply (Hconf (full_match ocr_results "Bob")).
    left. reflexivity.
  - rewrite Hsearch. reflexivity.
Defined.

(** C3 (as the claim states it, refuted): for the best text
    "[ally]johndoe says hi" and the targets ["JohnDoe"], the match returned
    is not of type "exact_word" with matched word "johndoe". *)
Lemma search_tagged_text_not_exact_word :
  ~ exists m : TargetMatch,
      fst (MapScanner.search_for_targets
             (calm_env 1 "[ally]johndoe says hi" 50 60)
             (Some blank_frame) ["JohnDoe"] (world0 true))
      = Return (true, Some m)
      /\ match_type m = "exact_word"
      /\ matched_word m = Some "johndoe".
Proof.
  intros (m & Hm & Ht & _). vm_compute in Hm.
  injection Hm as <-. vm_compute in Ht. discriminate Ht.
Qed.

(** C3 (amended): when the OCR best text is "[ally]johndoe says hi" and
    the target list is ["JohnDoe"], [search_for_targets] finds exactly one
    candidate and returns it; its match type is "exact_full" and it records
    no matched word, because the lower-cased target "johndoe" is a
    substring of the lower-cased text and the whole text is checked before
    the words. *)
Theorem search_tagged_text_exact_full (env : Env) (image : Frame) (w : World) :
  best_text (ocr_extract_text_comprehensive env image)
  = "[ally]johndoe says hi" ->
  let ocr_results := ocr_extract_text_comprehensive env image in
  MapScanner.found_targets_of ocr_results ["JohnDoe"]
  = [full_match ocr_results "JohnDoe"]
  /\ MapScanner.search_for_targets env (Some image) ["JohnDoe"] w
     = (Return (true, Some (full_match ocr_results "JohnDoe")), w)
  /\ match_type (full_match ocr_results "JohnDoe") = "exact_full"
  /\ matched_word (full_match ocr_results "JohnDoe") = None.
Proof.
  intros Ht ocr_results.
  assert (Hf : MapScanner.found_targets_of ocr_results ["JohnDoe"]
               = [full_match ocr_results "JohnDoe"]).
  { unfold MapScanner.found_targets_of, full_match. fold ocr_results in Ht.
    cbn [MapScanner.collect_targets]. unfold MapScanner.match_target.
    rewrite Ht. reflexivity. }
  split; [exact Hf|]. split; [|split; reflexivity].
  unfold MapScanner.search_for_targets, try_except. fold ocr_results.
  rewrite Hf. fold ocr_results in Ht. rewrite Ht. reflexivity.
Qed.

Lemma search_tagged_text_exact_full_witness :
  let env := calm_env 1 "[ally]johndoe says hi" 50 60 in
  let ocr_results := ocr_extract_text_comprehensive env blank_frame in
  MapScanner.found_targets_of ocr_results ["JohnDoe"]
  = [full_match ocr_results "JohnDoe"]
  /\ MapScanner.search_for_targets env (Some blank_frame) ["JohnDoe"]
       (world0 true)
     = (Return (true, Some (full_match ocr_results "JohnDoe")), world0 true)
  /\ match_type (full_match ocr_results "JohnDoe") = "exact_full"
  /\ matched_word (full_match ocr_results "JohnDoe") = None.
Proof.
  apply (search_tagged_text_exact_full
           (calm_env 1 "[ally]johndoe says hi" 50 60) blank_frame (world0 true)).
  reflexivity.
Defined.

(** ** Movement detection *)

Lemma CaptureConfig_has_no_threshold :
  getattr config.CaptureConfig "SIMILARITY_THRESHOLD"
  = Raise (Exn AttributeError
             "type object 'CaptureConfig' has no attribute 'SIMILARITY_THRESHOLD'")
  /\ getattr config.ScanConfig "SIMILARITY_THRESHOLD" = Return (VFloat 98).
Proof. split; reflexivity. Qed.

(** C1: [detect_movement] reads the threshold as
    [CaptureConfig.SIMILARITY_THRESHOLD], an attribute that only
    [ScanConfig] has; the lookup raises inside the [try] block and the
    handler answers "no movement".  So the answer is [moved = false] for
    every pair of frames, also for two frames whose similarity is 50%,
    where the claim asks for [moved = true]. *)
Theorem detect_movement_never_reports_movement :
  (forall (env : Env) (before after : option Frame) (w : World),
      exists info w',
        ScreenCapture.detect_movement env before after w
        = (Return (false, info), w'))
  /\ (let env := calm_env (1 # 2) "" 0 0 in
      cv2_matchTemplate env [[0]] [[0]] = Ok (1 # 2)
      /\ Qlt_bool ((1 # 2) * 100) 98 = true
      /\ fst (ScreenCapture.detect_movement env (Some blank_frame)
                (Some blank_frame) (world0 true))
         = Return (false,
                   "type object 'CaptureConfig' has no attribute 'SIMILARITY_THRESHOLD'")).
Proof.
  split.
  - intros env before after w.
    unfold ScreenCapture.detect_movement, try_except.
    destruct before as [b|], after as [a|];
      try (do 2 eexists; reflexivity).
    unfold bind at 1, extcall.
    destruct (cv2_cvtColor env b) as [gb|msg];
      [|do 2 eexists; reflexivity].
    cbn [ret]. unfold bind at 1.
    destruct (cv2_cvtColor env a) as [ga|msg];
      [|do 2 eexists; reflexivity].
    cbn [ret]. unfold bind at 1.
    destruct (cv2_matchTemplate env gb ga) as [c|msg];
      do 2 eexists; reflexivity.
  - repeat split; reflexivity.
Qed.

(** ** Cancellation *)

(** C2: a [SafetyExit] raised by [capture_screen] inside
    [capture_and_detect_movement] is caught by that method's
    [except Exception] and turned into the result [(False, "Capture stopped")];
    and a [SafetyExit] that leaves [find_top_left_corner] is caught by
    [perform_scan], which returns its (empty) list of targets.  In both
    places the cancellation does not reach the caller. *)
Theorem safety_exit_does_not_propagate
    (env : Env) (sc : ScreenCapture.t) (mc : MouseController.t)
    (dx dy : Z) (duration : Q) (self : MapScanner.t)
    (target_names : list string) (max_rows : Z)
    (z : Z) (c : nat) (a : list Action) (l : list (Level * string)) :
  let w := stopped_world z c a l in
  fst (ScreenCapture.capture_screen env sc false w)
  = Raise (Exn SafetyExit "Capture stopped")
  /\ fst (ScreenCapture.capture_and_detect_movement env sc mc dx dy duration
            false w)
     = Return (false, "Capture stopped")
  /\ fst (MapScanner.find_top_left_corner env self w)
     = Raise (Exn SafetyExit "Mouse movement stopped")
  /\ fst (MapScanner.perform_scan env self target_names max_rows w)
     = Return [].
Proof. repeat split; reflexivity. Qed.

(** ** Zoom calibration *)

(** C4: the scroll issued for a tested zoom level is [clicks_per_level]
    with the sign of the level, that is 2 or -2 for every entry of
    [ZOOM_LEVELS_TO_TEST]; it is not the level times 2 (4 for level +2).
    The reset helper, however, undoes [level * 2] clicks per tested level:
    when only the three zoom-in scrolls succeed (6 clicks), it scrolls
    back by 12. *)
Theorem zoom_test_scrolls_two_clicks :
  obind (getattr config.ScanConfig "ZOOM_LEVELS_TO_TEST") as_zoom_levels
  = Return zoom_levels
  /\ map (fun lc => MapScanner.zoom_clicks_of (fst lc) (snd lc)) zoom_levels
     = [2; 2; 2; -2; -2; -2]
  /\ map (fun lc => fst lc * 2) zoom_levels = [2; 4; 6; -2; -4; -6]
  /\ (let env := calm_env 1 "" 0 50 in
      scrolls (snd (MapScanner.calibrate_zoom env (demo_scanner env)
                      (world0 true)))
      = [2; 2; 2; -2; -2; -2])
  /\ (let env := zoom_in_only_env 50 in
      scrolls (snd (MapScanner.calibrate_zoom env (demo_scanner env)
                      (world0 true)))
      = [2; 2; 2; -2; -2; -2; -12]).
Proof. repeat split; vm_compute; reflexivity. Qed.

(** ** Screen capture *)

(** C10: for every call, [capture_screen] raises [SafetyExit] when the
    running flag is false, and with the flag true it returns an array or
    raises [CaptureError]; so it raises [SafetyExit] exactly when the flag
    is false and it never returns [None].  Hence whatever a caller does in
    its [None] branch is immaterial: two continuations that agree on arrays
    behave alike after [capture_screen]. *)
Theorem capture_screen_never_none (env : Env) (self : ScreenCapture.t) (w : World) :
  ScreenCapture.capture_screen env self false w
  = (Raise (Exn SafetyExit "Capture stopped"), w)
  /\ ((exists image w',
          ScreenCapture.capture_screen env self true w
          = (Return (Some image), w'))
      \/ (exists msg w',
             ScreenCapture.capture_screen env self true w
             = (Raise (Exn CaptureError msg), w')))
  /\ (forall running_flag,
         is_SafetyExit_raised
           (fst (ScreenCapture.capture_screen env self running_flag w))
         = negb running_flag)
  /\ (forall running_flag,
         fst (ScreenCapture.capture_screen env self running_flag w)
         <> Return None)
  /\ (forall (A : Type) (k k' : option Frame -> M A) running_flag,
         (forall image w', k (Some image) w' = k' (Some image) w') ->
         bind (ScreenCapture.capture_screen env self running_flag) k w
         = bind (ScreenCapture.capture_screen env self running_flag) k' w).
Proof.
  assert (Hstop : ScreenCapture.capture_screen env self false w
                  = (Raise (Exn SafetyExit "Capture stopped"), w))
    by reflexivity.
  assert (Hrun : (exists image w',
                     ScreenCapture.capture_screen env self true w
                     = (Return (Some image), w'))
                 \/ (exists msg w',
                        ScreenCapture.capture_screen env self true w
                        = (Raise (Exn CaptureError msg), w'))).
  { unfold ScreenCapture.capture_screen, try_except.
    destruct (ScreenCapture._calculate_capture_coordinates self) as [x y].
    destruct (ScreenCapture.capture_size self) as [cw ch].
    cbn [negb]. unfold bind, tick, act, extcall.
    destruct (pyautogui_screenshot env (clock w) (x, y, cw, ch)) as [img|msg].
    - left. do 2 eexists. reflexivity.
    - right. do 2 eexists. reflexivity. }
  split; [exact Hstop|]. split; [exact Hrun|]. split; [|split].
  - intros [|]; [|now rewrite Hstop].
    destruct Hrun as [(i & w1 & H)|(m & w1 & H)]; now rewrite H.
  - intros [|]; [|now rewrite Hstop].
    destruct Hrun as [(i & w1 & H)|(m & w1 & H)]; now rewrite H.
  - intros A k k' [|] Hk; unfold bind; [|now rewrite Hstop].
    destruct Hrun as [(i & w1 & H)|(m & w1 & H)]; rewrite H;
      [apply Hk | reflexivity].
Qed.

Lemma capture_screen_never_none_witness :
  let env := calm_env 1 "" 0 0 in
  let k (image : option Frame) : M bool :=
    match image with Some _ => ret true | None => ret false end in
  let k' (image : option Frame) : M bool := ret true in
  bind (ScreenCapture.capture_screen env demo_capture true) k (world0 true)
  = bind (ScreenCapture.capture_screen env demo_capture true) k' (world0 true).
Proof.
  intros env k k'.
  apply (proj2 (proj2 (proj2 (proj2
           (capture_screen_never_none env demo_capture (world0 true)))))).
  intros image w'. reflexivity.
Defined.

(** ** Corner search *)

Lemma for_each_cons {I A : Type} (i : I) (rest : list I)
      (body : I -> M (option A)) (w : World) :
  for_each (i :: rest) body w
  = match body i w with
    | (Return (Some v), w') => (Return (Some v), w')
    | (Return None, w') => for_each rest body w'
    | (Raise e, w') => (Raise e, w')
    end.
Proof.
  simpl. unfold bind. destruct (body i w) as [[[v|]|e] w']; reflexivity.
Qed.

Lemma range_seq (n : nat) : range (Z.of_nat n) = map Z.of_nat (seq 0 n).
Proof. unfold range. now rewrite Nat2Z.id. Qed.

Section CornerSearch.
Variable env : Env.
Variable first confirm : nat -> bool.
Hypothesis window_stays : forall t, window_is_valid env t = true.
Hypothesis move_succeeds : forall t x y, pyautogui_moveTo env t x y = Ok tt.

Let self := scripted_scanner first confirm.
Let pair_at := confirmed_pair first confirm.

Arguments MapScanner.attempt_message : simpl never.

Ltac run_attempt :=
  unfold MapScanner.corner_attempt, MapScanner._check_safety_exit;
  unfold bind, get_running, tick, ret, logger, act; simpl;
  rewrite window_stays; simpl; unfold probes; simpl.

Ltac open_world w Hr Hp :=
  destruct w as [r z c acts l];
  unfold probes in Hp; simpl in Hr, Hp; subst.

Lemma attempt_moved (a : nat) (w : World) :
  searching a w -> first a = true ->
  exists w', MapScanner.corner_attempt env self 450 (Z.of_nat a) w
             = (Return None, w') /\ searching (S a) w'.
Proof.
  intros [Hr Hp] Hf. open_world w Hr Hp.
  run_attempt. rewrite Hf. simpl.
  destruct (Z.of_nat _ mod 10 =? 0); simpl;
    eexists; (split; [reflexivity | split; reflexivity]).
Qed.

Lemma attempt_unconfirmed (a : nat) (w : World) :
  searching a w -> first a = false -> confirm a = true ->
  exists w', MapScanner.corner_attempt env self 450 (Z.of_nat a) w
             = (Return None, w') /\ searching (S a) w'.
Proof.
  intros [Hr Hp] Hf Hc. open_world w Hr Hp.
  run_attempt. rewrite Hf. simpl.
  rewrite orb_true_r. simpl. rewrite Nat.sub_0_r, Hc. simpl.
  eexists; (split; [reflexivity | split; reflexivity]).
Qed.

Lemma attempt_confirmed (a : nat) (w : World) :
  searching a w -> first a = false -> confirm a = false ->
  exists w', MapScanner.corner_attempt env self 450 (Z.of_nat a) w
             = (Return (Some true), w')
             /\ last_logged w' = Some (INFO, "✓ TOP-LEFT CORNER REACHED")
             /\ probes 450 w' = S a.
Proof.
  intros [Hr Hp] Hf Hc. open_world w Hr Hp.
  run_attempt. rewrite Hf. simpl.
  rewrite orb_true_r. simpl. rewrite Nat.sub_0_r, Hc. simpl.
  eexists; (split; [reflexivity | split; reflexivity]).
Qed.

(** The loop from attempt [a] on, for [n] attempts. *)
Lemma attempts_spec (n : nat) : forall (a : nat) (w : World),
  searching a w ->
  let r := for_each (map Z.of_nat (seq a n))
             (MapScanner.corner_attempt env self 450) w in
  (forall k, (a <= k < a + n)%nat -> pair_at k ->
             (forall j, (a <= j < k)%nat -> ~ pair_at j) ->
             fst r = Return (Some true)
             /\ last_logged (snd r) = Some (INFO, "✓ TOP-LEFT CORNER REACHED")
             /\ probes 450 (snd r) = S k)
  /\ ((forall j, (a <= j < a + n)%nat -> ~ pair_at j) ->
      fst r = Return None /\ searching (a + n) (snd r)).
Proof.
  induction n as [|n IH]; intros a w Hs; cbn [seq map];
    [|rewrite for_each_cons]; cbv zeta.
  - split; [intros k Hk; lia|]. intros _. rewrite Nat.add_0_r. now split.
  - destruct (first a) eqn:Hf; [|destruct (confirm a) eqn:Hc].
    + destruct (attempt_moved a w Hs Hf) as (w' & E & Hs').
      rewrite E.
      destruct (IH (S a) w' Hs') as [IH1 IH2]. split.
      * intros k Hk Hp Hmin.
        assert (k <> a) by (intros ->; destruct Hp; congruence).
        apply IH1; [lia | exact Hp | intros j Hj; apply Hmin; lia].
      * intros Hno. replace (a + S n)%nat with (S a + n)%nat by lia.
        apply IH2. intros j Hj. apply Hno. lia.
    + destruct (attempt_unconfirmed a w Hs Hf Hc) as (w' & E & Hs').
      rewrite E.
      destruct (IH (S a) w' Hs') as [IH1 IH2]. split.
      * intros k Hk Hp Hmin.
        assert (k <> a) by (intros ->; destruct Hp; congruence).
        apply IH1; [lia | exact Hp | intros j Hj; apply Hmin; lia].
      * intros Hno. replace (a + S n)%nat with (S a + n)%nat by lia.
        apply IH2. intros j Hj. apply Hno. lia.
    + destruct (attempt_confirmed a w Hs Hf Hc) as (w' & E & Hl & Hp').
      rewrite E. simpl. split.
      * intros k Hk Hp Hmin.
        assert (k = a) as ->.
        { destruct (Nat.eq_dec k a) as [|Hne]; [assumption|].
          exfalso. apply (Hmin a); [lia | now split]. }
        now repeat split.
      * intros Hno. exfalso. apply (Hno a); [lia | now split].
Qed.

(** Either some attempt below [n] is the first confirmed pair, or none
    is a confirmed pair. *)
Lemma first_pair_or_none (n : nat) :
  (exists k, (k < n)%nat /\ pair_at k
             /\ forall j, (j < k)%nat -> ~ pair_at j)
  \/ (forall j, (j < n)%nat -> ~ pair_at j).
Proof.
  induction n as [|n [(k & Hk & Hp & Hmin)|Hno]].
  - right. intros j Hj. lia.
  - left. exists k. split; [lia | split; [exact Hp | exact Hmin]].
  - destruct (first n) eqn:Hf; [|destruct (confirm n) eqn:Hc].
    + right. intros j Hj Hpj.
      destruct (Nat.eq_dec j n) as [->|]; [destruct Hpj; congruence|].
      apply (Hno j); [lia | exact Hpj].
    + right. intros j Hj Hpj.
      destruct (Nat.eq_dec j n) as [->|]; [destruct Hpj; congruence|].
      apply (Hno j); [lia | exact Hpj].
    + left. exists n. split; [lia | split; [now split | exact Hno]].
Qed.

Arguments for_each : simpl never.
Arguments range : simpl never.

(** The steps before the loop, and the step after it. *)
Lemma corner_search_unfold (c : nat) (l : list (Level * string)) :
  MapScanner.find_top_left_corner env self (fresh_world c l)
  = match for_each (range 200) (MapScanner.corner_attempt env self 450)
            {| running := true; optimal_zoom_level := 0; clock := S c;
               actions := [MoveTo 960 540 (3 # 10)];
               log := (INFO, "Moving toward top-left corner...")
                      :: (INFO, "🎯 FINDING TOP-LEFT CORNER") :: l |} with
    | (Return (Some v), w') => (Return v, w')
    | (Return None, w') =>
        (Return true,
         {| running := running w'; optimal_zoom_level := optimal_zoom_level w';
            clock := clock w'; actions := actions w';
            log := (INFO, "✓ Corner search completed") :: log w' |})
    | (Raise e, w') => (Raise e, w')
    end.
Proof.
  unfold MapScanner.find_top_left_corner.
  unfold MouseController.safe_move_mouse, MouseController.moveTo, try_except.
  unfold bind, get_running, tick, ret, logger, act, fresh_world. simpl.
  rewrite move_succeeds. simpl.
  destruct (for_each _ _ _) as [[[v|]|e] w']; reflexivity.
Qed.

End CornerSearch.

(** C7: the corner search, driven by scripted movement reports, returns
    success in every case.  It declares "corner reached" exactly when some
    attempt among the first 200 has a 450px drag without movement whose
    200px confirmation drag is also without movement, and it stops at the
    first such attempt.  An attempt whose 450px drag reports no movement but
    whose confirmation reports movement does not stop it.  When no attempt
    has such a pair, it runs all MAX_CORNER_SEARCH_ATTEMPTS = 200 attempts
    and still returns success. *)
Theorem corner_search_stops_on_confirmed_pair
    (env : Env) (first confirm : nat -> bool)
    (c : nat) (l : list (Level * string)) :
  (forall t, window_is_valid env t = true) ->
  (forall t x y, pyautogui_moveTo env t x y = Ok tt) ->
  let r := MapScanner.find_top_left_corner env (scripted_scanner first confirm)
             (fresh_world c l) in
  attr_int config.CaptureConfig "MAX_CORNER_SEARCH_ATTEMPTS" (fresh_world c l)
  = (Return 200, fresh_world c l)
  /\ fst r = Return true
  /\ (forall k, (k < 200)%nat -> confirmed_pair first confirm k ->
                (forall j, (j < k)%nat -> ~ confirmed_pair first confirm j) ->
                last_logged (snd r) = Some (INFO, "✓ TOP-LEFT CORNER REACHED")
                /\ probes 450 (snd r) = S k)
  /\ ((forall j, (j < 200)%nat -> ~ confirmed_pair first confirm j) ->
      last_logged (snd r) = Some (INFO, "✓ Corner search completed")
      /\ probes 450 (snd r) = 200%nat)
  /\ (last_logged (snd r) = Some (INFO, "✓ TOP-LEFT CORNER REACHED") ->
      exists k, (k < 200)%nat /\ confirmed_pair first confirm k).
Proof.
  intros Hwin Hmove r. split; [reflexivity|].
  unfold r. rewrite (corner_search_unfold env first confirm Hmove c l).
  replace (range 200) with (map Z.of_nat (seq 0 200)) by reflexivity.
  set (w0 := {| running := true; optimal_zoom_level := 0; clock := S c;
                actions := [MoveTo 960 540 (3 # 10)];
                log := (INFO, "Moving toward top-left corner...")
                       :: (INFO, "🎯 FINDING TOP-LEFT CORNER") :: l |}).
  assert (Hs : searching 0 w0) by (split; reflexivity).
  destruct (attempts_spec env first confirm Hwin 200 0 w0 Hs) as [Hpair Hnone].
  remember (for_each (map Z.of_nat (seq 0 200))
              (MapScanner.corner_attempt env (scripted_scanner first confirm)
                 450) w0) as res eqn:Eres.
  clear Eres.
  destruct (first_pair_or_none first confirm 200)
    as [(k & Hk & Hp & Hmin)|Hno].
  - destruct (Hpair k) as (E & _ & _);
      [lia | exact Hp | intros j Hj; apply Hmin; lia|].
    destruct res as [[[v|]|e] w']; simpl in *; try discriminate E.
    injection E as ->.
    split; [reflexivity|]. split; [|split].
    + intros k' Hk' Hp' Hmin'.
      destruct (Hpair k') as (_ & Hl & Hn);
        [lia | exact Hp' | intros j Hj; apply Hmin'; lia|].
      now split.
    + intros Hno. exfalso. now apply (Hno k).
    + intros _. now exists k.
  - destruct Hnone as (E & _ & Hn); [intros j Hj; apply Hno; lia|].
    destruct res as [[[v|]|e] w']; simpl in *; try discriminate E.
    split; [reflexivity|]. split; [|split].
    + intros k' Hk' Hp' _. exfalso. now apply (Hno k').
    + intros _. split; [reflexivity | exact Hn].
    + intros H. discriminate H.
Qed.

Lemma corner_search_stops_on_confirmed_pair_witness :
  let r := MapScanner.find_top_left_corner (calm_env 1 "" 0 0)
             (scripted_scanner (fun _ => false) (fun k => Nat.eqb k 0))
             (fresh_world 0 []) in
  fst r = Return true
  /\ last_logged (snd r) = Some (INFO, "✓ TOP-LEFT CORNER REACHED")
  /\ probes 450 (snd r) = 2%nat.
Proof.
  destruct (corner_search_stops_on_confirmed_pair (calm_env 1 "" 0 0)
              (fun _ => false) (fun k => Nat.eqb k 0) 0%nat [])
    as (_ & Hr & Hpair & _).
  - intros t. reflexivity.
  - intros t x y. reflexivity.
  - split; [exact Hr|].
    apply (Hpair 1%nat).
    + lia.
    + split; reflexivity.
    + intros j Hj [_ Hc]. assert (j = 0)%nat as -> by lia. discriminate Hc.
Defined.


(* ================================================================== *)
(** * Further results on the helpers *)

(** ** Clamping *)

(** [safe_clamp] never returns less than the lower bound; it returns the
    value itself when the value is within the bounds; and with inverted
    bounds (max below min) it returns the lower bound, which then exceeds
    the upper one. *)
Theorem safe_clamp_cases (value min_val max_val : Z) :
  min_val <= utils.safe_clamp value min_val max_val
  /\ (min_val <= value <= max_val ->
      utils.safe_clamp value min_val max_val = value)
  /\ (max_val < min_val ->
      utils.safe_clamp value min_val max_val = min_val)
  /\ utils.safe_clamp (utils.safe_clamp value min_val max_val) min_val max_val
     = utils.safe_clamp value min_val max_val.
Proof. unfold utils.safe_clamp. repeat split; lia. Qed.

Lemma safe_clamp_cases_witness :
  utils.safe_clamp 7 0 10 = 7 /\ utils.safe_clamp 7 20 10 = 20.
Proof.
  split.
  - apply (proj1 (proj2 (safe_clamp_cases 7 0 10))). lia.
  - apply (proj1 (proj2 (proj2 (safe_clamp_cases 7 20 10)))). lia.
Defined.

(** ** Quality score *)

Lemma size_score_range (height : Q) :
  (50 <= utils.size_score height <= 100)%Q.
Proof.
  unfold utils.size_score.
  destruct (Qle_bool 12 height && Qle_bool height 25);
    [split; intro H; discriminate H|].
  destruct (Qle_bool 8 height && negb (Qle_bool 12 height));
    [split; intro H; discriminate H|].
  destruct (negb (Qle_bool height 25) && Qle_bool height 35);
    [split; intro H; discriminate H|].
  destruct (negb (Qle_bool 8 height)); split; intro H; discriminate H.
Qed.

Lemma Qmin_le_100 (c : Q) : (utils.Qmin c 100 <= 100)%Q.
Proof. unfold utils.Qmin. destruct (Qlt_le_dec 100 c); lra. Qed.

Lemma Qmin_nonneg (c : Q) : (0 <= c)%Q -> (0 <= utils.Qmin c 100)%Q.
Proof. unfold utils.Qmin. destruct (Qlt_le_dec 100 c); lra. Qed.

Lemma inject_min_le_100 (z : Z) : (inject_Z (Z.min z 100) <= 100)%Q.
Proof. change 100%Q with (inject_Z 100). rewrite <- Zle_Qle. lia. Qed.

Lemma inject_min_nonneg (z : Z) : 0 <= z -> (0 <= inject_Z (Z.min z 100))%Q.
Proof. intros H. change 0%Q with (inject_Z 0). rewrite <- Zle_Qle. lia. Qed.

(** With the default weights the quality score never exceeds 100, whatever
    the inputs; it is at least 10 when the confidence and the two counts
    are not negative (the size term alone gives 10); and it does not change
    once the readable-word count is 4 or more, or the text count 7 or
    more. *)
Theorem quality_score_range
    (confidence height : Q) (text_count readable_words : Z) :
  (utils.calculate_quality_score confidence height text_count readable_words
     default_weights <= 100)%Q
  /\ ((0 <= confidence)%Q -> 0 <= text_count -> 0 <= readable_words ->
      (10 <= utils.calculate_quality_score confidence height text_count
               readable_words default_weights)%Q)
  /\ (4 <= readable_words ->
      utils.calculate_quality_score confidence height text_count
        readable_words default_weights
      = utils.calculate_quality_score confidence height text_count 4
          default_weights)
  /\ (7 <= text_count ->
      utils.calculate_quality_score confidence height text_count
        readable_words default_weights
      = utils.calculate_quality_score confidence height 7 readable_words
          default_weights).
Proof.
  pose proof (size_score_range height) as Hs.
  pose proof (Qmin_le_100 confidence) as Hc.
  pose proof (inject_min_le_100 (text_count * 15)) as Ht.
  pose proof (inject_min_le_100 (readable_words * 25)) as Hr.
  split; [|split; [|split]].
  - unfold utils.calculate_quality_score; cbn. lra.
  - intros H0 H1 H2.
    pose proof (Qmin_nonneg confidence H0) as Hc0.
    pose proof (inject_min_nonneg (text_count * 15) ltac:(lia)) as Ht0.
    pose proof (inject_min_nonneg (readable_words * 25) ltac:(lia)) as Hr0.
    unfold utils.calculate_quality_score; cbn. lra.
  - intros H. unfold utils.calculate_quality_score.
    now replace (Z.min (readable_words * 25) 100) with (Z.min (4 * 25) 100)
      by lia.
  - intros H. unfold utils.calculate_quality_score.
    now replace (Z.min (text_count * 15) 100) with (Z.min (7 * 15) 100)
      by lia.
Qed.

Lemma quality_score_range_witness :
  (10 <= utils.calculate_quality_score 0 3 0 0 default_weights)%Q
  /\ utils.calculate_quality_score 55 18 9 6 default_weights
     = utils.calculate_quality_score 55 18 9 4 default_weights
  /\ utils.calculate_quality_score 55 18 9 6 default_weights
     = utils.calculate_quality_score 55 18 7 6 default_weights.
Proof.
  split; [|split].
  - apply (proj1 (proj2 (quality_score_range 0%Q 3%Q 0 0)));
      [intro H; discriminate H | lia | lia].
  - apply (proj1 (proj2 (proj2 (quality_score_range 55%Q 18%Q 9 6)))). lia.
  - apply (proj2 (proj2 (proj2 (quality_score_range 55%Q 18%Q 9 6)))). lia.
Defined.


(** ** Truncation *)

Lemma int_of_Q_nonneg (q : Q) :
  (0 <= q)%Q -> 0 <= int_of_Q q /\ (inject_Z (int_of_Q q) <= q)%Q.
Proof.
  destruct q as [n d]. unfold Qle, int_of_Q; simpl. intros H.
  rewrite Z.mul_1_r in H.
  rewrite Z.quot_div_nonneg by lia.
  split; [apply Z.div_pos; lia|].
  rewrite Z.mul_1_r, Z.mul_comm. apply Z.mul_div_le. lia.
Qed.

(** ** Binary64 arithmetic *)

(** *** Powers of two *)

Lemma pow2_pos (e : Z) : (0 < binary64.pow2 e)%Q.
Proof. apply Qpower_0_lt. reflexivity. Qed.

Lemma pow2_add (a b : Z) :
  (binary64.pow2 (a + b) == binary64.pow2 a * binary64.pow2 b)%Q.
Proof. apply Qpower_plus. discriminate. Qed.

Lemma pow2_le (a b : Z) : a <= b -> (binary64.pow2 a <= binary64.pow2 b)%Q.
Proof. intros H. apply Qpower_le_compat_l; [exact H|discriminate]. Qed.

Lemma pow2_lt (a b : Z) : a < b -> (binary64.pow2 a < binary64.pow2 b)%Q.
Proof. intros H. apply Qpower_lt_compat_l; [exact H|reflexivity]. Qed.

Lemma pow2_lt_inv (a b : Z) :
  (binary64.pow2 a < binary64.pow2 b)%Q -> a < b.
Proof. intros H. apply (Qpower_lt_compat_l_inv 2); [exact H|reflexivity]. Qed.

Lemma pow2_Z (e : Z) : 0 <= e -> (binary64.pow2 e == inject_Z (2 ^ e))%Q.
Proof. intros H. unfold binary64.pow2. now rewrite Zpower_Qpower. Qed.

Lemma pow2_succ (a : Z) : (binary64.pow2 (a + 1) == 2 * binary64.pow2 a)%Q.
Proof. rewrite pow2_add. change (binary64.pow2 1) with 2%Q. ring. Qed.

Lemma pow2_opp (a : Z) :
  (binary64.pow2 a * binary64.pow2 (- a) == 1)%Q.
Proof. rewrite <- pow2_add. now replace (a + - a) with 0 by lia. Qed.

(** Division by a power of two is multiplication by the opposite power. *)
Lemma div_pow2 (x : Q) (e : Z) :
  (x / binary64.pow2 e == x * binary64.pow2 (- e))%Q.
Proof.
  pose proof (pow2_pos e) as P. pose proof (pow2_opp e) as O.
  apply Qmult_inj_r with (binary64.pow2 e); [lra|].
  unfold Qdiv. rewrite <- !Qmult_assoc.
  rewrite (Qmult_comm (/ _)), Qmult_inv_r by lra.
  rewrite (Qmult_comm (binary64.pow2 (- e))), O. reflexivity.
Qed.

(** *** The binary logarithm *)

Lemma ilog2_spec (q : Q) :
  ~ (q == 0)%Q ->
  (binary64.pow2 (binary64.ilog2 q) <= Qabs q)%Q
  /\ (Qabs q < binary64.pow2 (binary64.ilog2 q + 1))%Q.
Proof.
  intros Hq. unfold binary64.ilog2.
  destruct q as [n d]. cbn [Qnum Qden Qabs].
  assert (Hn : 0 < Z.abs n).
  { destruct n; [elim Hq; reflexivity|reflexivity|reflexivity]. }
  set (a := Z.log2 (Z.abs n)). set (b := Z.log2 (Z.pos d)).
  destruct (Z.log2_spec (Z.abs n) Hn) as [A1 A2]. fold a in A1, A2.
  destruct (Z.log2_spec (Z.pos d) eq_refl) as [B1 B2]. fold b in B1, B2.
  assert (Ha : 0 <= a) by apply Z.log2_nonneg.
  assert (Hb : 0 <= b) by apply Z.log2_nonneg.
  set (N := inject_Z (Z.abs n)). set (D := inject_Z (Z.pos d)).
  assert (E : (Z.abs n # d == N / D)%Q) by apply Qmake_Qdiv.
  assert (PA : (binary64.pow2 a <= N)%Q)
    by (rewrite pow2_Z by exact Ha; unfold N; now rewrite <- Zle_Qle).
  assert (PA' : (N < 2 * binary64.pow2 a)%Q).
  { rewrite <- pow2_succ, pow2_Z by lia. unfold N. rewrite <- Zlt_Qlt.
    now replace (a + 1) with (Z.succ a) by lia. }
  assert (PB : (binary64.pow2 b <= D)%Q)
    by (rewrite pow2_Z by exact Hb; unfold D; now rewrite <- Zle_Qle).
  assert (PB' : (D < 2 * binary64.pow2 b)%Q).
  { rewrite <- pow2_succ, pow2_Z by lia. unfold D. rewrite <- Zlt_Qlt.
    now replace (b + 1) with (Z.succ b) by lia. }
  pose proof (pow2_pos a) as Pa. pose proof (pow2_pos b) as Pb.
  pose proof (pow2_pos (a - b)) as Pk.
  assert (K : (binary64.pow2 (a - b) * binary64.pow2 b == binary64.pow2 a)%Q).
  { rewrite <- pow2_add. now replace (a - b + b) with a by lia. }
  assert (HD : (0 < D)%Q) by lra.
  assert (Hup : (N / D < 2 * binary64.pow2 (a - b))%Q).
  { apply Qlt_shift_div_r; [exact HD|].
    apply Qlt_le_trans with (2 * binary64.pow2 a)%Q; [exact PA'|].
    rewrite <- K. nra. }
  assert (Hlow : (binary64.pow2 (a - b) < 2 * (N / D))%Q).
  { setoid_replace (2 * (N / D))%Q with ((2 * N) / D)%Q
      by (unfold Qdiv; ring).
    apply Qlt_shift_div_l; [exact HD|].
    apply Qlt_le_trans with (binary64.pow2 (a - b) * (2 * binary64.pow2 b))%Q;
      [nra|].
    setoid_replace (binary64.pow2 (a - b) * (2 * binary64.pow2 b))%Q
      with (2 * binary64.pow2 a)%Q by (rewrite <- K; ring).
    lra. }
  destruct (Qle_bool (binary64.pow2 (a - b)) (Z.abs n # d)) eqn:T.
  - apply Qle_bool_iff in T. split; [exact T|].
    rewrite pow2_succ, E. exact Hup.
  - assert (T' : (Z.abs n # d < binary64.pow2 (a - b))%Q).
    { apply Qnot_le_lt. intros L. apply Qle_bool_iff in L. congruence. }
    replace (a - b - 1 + 1) with (a - b) by lia. split; [|exact T'].
    rewrite E.
    assert (S : (binary64.pow2 (a - b) == 2 * binary64.pow2 (a - b - 1))%Q).
    { rewrite <- pow2_succ. now replace (a - b - 1 + 1) with (a - b) by lia. }
    lra.
Qed.

Lemma ilog2_le (x y : Q) :
  (0 < Qabs x)%Q -> (Qabs x <= Qabs y)%Q ->
  binary64.ilog2 x <= binary64.ilog2 y.
Proof.
  intros Hx Hxy.
  assert (Nx : ~ (x == 0)%Q).
  { intros E. rewrite E in Hx. discriminate Hx. }
  assert (Ny : ~ (y == 0)%Q).
  { intros E. rewrite E in Hxy. cbn in Hxy. lra. }
  destruct (ilog2_spec x Nx) as [X1 _].
  destruct (ilog2_spec y Ny) as [_ Y2].
  assert (L : (binary64.pow2 (binary64.ilog2 x)
               < binary64.pow2 (binary64.ilog2 y + 1))%Q) by lra.
  apply pow2_lt_inv in L. lia.
Qed.

(** *** Rounding to the nearest integer, ties to even *)

Lemma round_half_even_bounds (x : Q) :
  Qfloor x <= round_half_even x <= Qfloor x + 1.
Proof.
  unfold round_half_even. cbv zeta.
  destruct (Qle_bool _ _); [destruct (Qle_bool _ _)|];
    [destruct (Z.even _)| |]; lia.
Qed.

Lemma round_half_even_le (x y : Q) :
  (x <= y)%Q -> round_half_even x <= round_half_even y.
Proof.
  intros H. pose proof (Qfloor_resp_le x y H) as F.
  pose proof (round_half_even_bounds x) as Bx.
  pose proof (round_half_even_bounds y) as By.
  destruct (Z.eq_dec (Qfloor x) (Qfloor y)) as [E|E]; [|lia].
  unfold round_half_even. cbv zeta. rewrite <- E.
  set (f := Qfloor x) in *.
  destruct (Qle_bool (x - inject_Z f) (1 # 2)) eqn:X1;
    destruct (Qle_bool (y - inject_Z f) (1 # 2)) eqn:Y1;
    try (destruct (Qle_bool (1 # 2) (x - inject_Z f)) eqn:X2);
    try (destruct (Qle_bool (1 # 2) (y - inject_Z f)) eqn:Y2);
    try (destruct (Z.even f)); try lia; exfalso;
    repeat match goal with
      | H : Qle_bool _ _ = true |- _ => apply Qle_bool_iff in H
      | H : Qle_bool ?a ?b = false |- _ =>
          assert (b < a)%Q
            by (apply Qnot_le_lt; intros L; apply Qle_bool_iff in L; congruence);
          clear H
      end; lra.
Qed.

Lemma round_half_even_Z (n : Z) : round_half_even (inject_Z n) = n.
Proof.
  unfold round_half_even. cbv zeta. rewrite Qfloor_Z.
  assert (E : (inject_Z n - inject_Z n == 0)%Q) by ring.
  destruct (Qle_bool (inject_Z n - inject_Z n) (1 # 2)) eqn:A.
  - destruct (Qle_bool (1 # 2) (inject_Z n - inject_Z n)) eqn:B; [|reflexivity].
    apply Qle_bool_iff in B. lra.
  - assert (L : (inject_Z n - inject_Z n <= 1 # 2)%Q) by lra.
    apply Qle_bool_iff in L. congruence.
Qed.

Lemma round_half_even_eq (x y : Q) :
  (x == y)%Q -> round_half_even x = round_half_even y.
Proof.
  intros E. apply Z.le_antisymm; apply round_half_even_le; rewrite E;
    apply Qle_refl.
Qed.

Lemma round_half_even_nonneg (x : Q) : (0 <= x)%Q -> 0 <= round_half_even x.
Proof.
  intros H. rewrite <- (round_half_even_Z 0). now apply round_half_even_le.
Qed.

(** *** Rounding of magnitudes *)

Lemma scaled_le (x y : Q) (e : Z) :
  (x <= y)%Q -> (x / binary64.pow2 e <= y / binary64.pow2 e)%Q.
Proof.
  intros H. rewrite !div_pow2. pose proof (pow2_pos (- e)). nra.
Qed.

Lemma scaled_pow2 (a e : Z) :
  (binary64.pow2 a / binary64.pow2 e == binary64.pow2 (a - e))%Q.
Proof. rewrite div_pow2, <- pow2_add. now replace (a + - e) with (a - e) by lia. Qed.

Lemma pow2_53 : (binary64.pow2 53 == inject_Z (2 ^ 53))%Q.
Proof. now apply pow2_Z. Qed.

Lemma pow2_52 : (binary64.pow2 52 == inject_Z (2 ^ 52))%Q.
Proof. now apply pow2_Z. Qed.

Lemma ulp_exponent_spec (q : Q) :
  (0 < q)%Q ->
  binary64.emin <= binary64.ulp_exponent q
  /\ (q < binary64.pow2 (binary64.ulp_exponent q + 53))%Q
  /\ (binary64.emin < binary64.ulp_exponent q ->
      (binary64.pow2 (binary64.ulp_exponent q + 52) <= q)%Q).
Proof.
  intros H.
  assert (N : ~ (q == 0)%Q) by lra.
  destruct (ilog2_spec q N) as [L U]. rewrite Qabs_pos in L, U by lra.
  unfold binary64.ulp_exponent. split; [lia|]. split.
  - apply Qlt_le_trans with (binary64.pow2 (binary64.ilog2 q + 1));
      [exact U|]. apply pow2_le. lia.
  - intros G.
    replace (Z.max (binary64.ilog2 q - 52) binary64.emin + 52)
      with (binary64.ilog2 q) by lia.
    exact L.
Qed.

Lemma round_magnitude_nonneg (q : Q) :
  (0 < q)%Q -> (0 <= binary64.round_magnitude q)%Q.
Proof.
  intros H. unfold binary64.round_magnitude. cbv zeta.
  pose proof (pow2_pos (binary64.ulp_exponent q)) as P.
  assert (0 <= round_half_even (q / binary64.pow2 (binary64.ulp_exponent q))).
  { apply round_half_even_nonneg. apply Qle_shift_div_l; [exact P|]. lra. }
  assert ((0 <= inject_Z (round_half_even
                            (q / binary64.pow2 (binary64.ulp_exponent q))))%Q)
    by (change 0%Q with (inject_Z 0); now rewrite <- Zle_Qle).
  nra.
Qed.

Lemma round_magnitude_le (x y : Q) :
  (0 < x)%Q -> (x <= y)%Q ->
  (binary64.round_magnitude x <= binary64.round_magnitude y)%Q.
Proof.
  intros Hx Hxy. assert (Hy : (0 < y)%Q) by lra.
  destruct (ulp_exponent_spec x Hx) as (Ex & Ux & _).
  destruct (ulp_exponent_spec y Hy) as (Ey & _ & Ly).
  assert (Le : binary64.ulp_exponent x <= binary64.ulp_exponent y).
  { unfold binary64.ulp_exponent.
    assert (binary64.ilog2 x <= binary64.ilog2 y).
    { apply ilog2_le; rewrite ?Qabs_pos; lra. }
    lia. }
  unfold binary64.round_magnitude. cbv zeta.
  set (ex := binary64.ulp_exponent x) in *.
  set (ey := binary64.ulp_exponent y) in *.
  pose proof (pow2_pos ex) as Px. pose proof (pow2_pos ey) as Py.
  destruct (Z.eq_dec ex ey) as [E|E].
  - rewrite <- E.
    assert (R : round_half_even (x / binary64.pow2 ex)
                <= round_half_even (y / binary64.pow2 ex))
      by (apply round_half_even_le, scaled_le, Hxy).
    rewrite Zle_Qle in R. nra.
  - assert (Lt : ex < ey) by lia.
    apply Qle_trans with (binary64.pow2 (ey + 52)).
    + apply Qle_trans with (binary64.pow2 (ex + 53)); [|apply pow2_le; lia].
      assert (R : round_half_even (x / binary64.pow2 ex) <= 2 ^ 53).
      { rewrite <- (round_half_even_Z (2 ^ 53)).
        apply round_half_even_le. rewrite <- pow2_53.
        apply Qle_shift_div_r; [exact Px|].
        rewrite <- pow2_add. replace (53 + ex) with (ex + 53) by lia. lra. }
      rewrite Zle_Qle, <- pow2_53 in R.
      rewrite (Z.add_comm ex 53), pow2_add. nra.
    + specialize (Ly ltac:(lia)).
      assert (R : 2 ^ 52 <= round_half_even (y / binary64.pow2 ey)).
      { rewrite <- (round_half_even_Z (2 ^ 52)).
        apply round_half_even_le. rewrite <- pow2_52.
        apply Qle_shift_div_l; [exact Py|].
        rewrite <- pow2_add. replace (52 + ey) with (ey + 52) by lia. lra. }
      rewrite Zle_Qle, <- pow2_52 in R.
      rewrite (Z.add_comm ey 52), pow2_add. nra.
Qed.

Lemma round_magnitude_exact (q : Q) (m e : Z) :
  0 < m < 2 ^ 53 -> binary64.emin <= e ->
  (q == inject_Z m * binary64.pow2 e)%Q ->
  (binary64.round_magnitude q == q)%Q.
Proof.
  intros [M0 M1] He Hq.
  pose proof (pow2_pos e) as Pe.
  assert (Hm0 : (0 < inject_Z m)%Q)
    by (change 0%Q with (inject_Z 0); now rewrite <- Zlt_Qlt).
  assert (Hm1 : (inject_Z m < binary64.pow2 53)%Q)
    by (rewrite pow2_53; now rewrite <- Zlt_Qlt).
  assert (Hpos : (0 < q)%Q) by (rewrite Hq; nra).
  assert (N : ~ (q == 0)%Q) by lra.
  destruct (ilog2_spec q N) as [L _]. rewrite Qabs_pos in L by lra.
  assert (I : binary64.ilog2 q < 53 + e).
  { apply pow2_lt_inv. apply Qle_lt_trans with q; [exact L|].
    rewrite Hq, pow2_add. nra. }
  unfold binary64.round_magnitude. cbv zeta.
  set (ex := binary64.ulp_exponent q).
  assert (Hex : ex <= e) by (unfold ex, binary64.ulp_exponent; lia).
  assert (S : (q / binary64.pow2 ex == inject_Z (m * 2 ^ (e - ex)))%Q).
  { rewrite inject_Z_mult, <- pow2_Z by lia.
    rewrite div_pow2, Hq, <- Qmult_assoc, <- pow2_add.
    now replace (e + - ex) with (e - ex) by lia. }
  rewrite (round_half_even_eq _ _ S), round_half_even_Z.
  rewrite inject_Z_mult, <- pow2_Z by lia.
  rewrite <- Qmult_assoc, <- pow2_add.
  replace (e - ex + ex) with e by lia. now rewrite Hq.
Qed.

(** *** Rounding *)

Lemma sign_cases (q : Q) :
  (Qnum q = 0 /\ (q == 0)%Q)
  \/ ((exists p, Qnum q = Zpos p) /\ (0 < q)%Q)
  \/ ((exists p, Qnum q = Zneg p) /\ (q < 0)%Q).
Proof.
  destruct q as [[|p|p] d]; cbn [Qnum].
  - left. split; reflexivity.
  - right. left. split; [now exists p|reflexivity].
  - right. right. split; [now exists p|reflexivity].
Qed.

Lemma round_pos (q : Q) :
  (0 < q)%Q -> binary64.round q = binary64.round_magnitude q.
Proof.
  intros H. unfold binary64.round.
  destruct (sign_cases q) as [[_ E]|[[[p ->] _]|[_ L]]];
    [lra|reflexivity|lra].
Qed.

Lemma round_neg (q : Q) :
  (q < 0)%Q -> binary64.round q = (- binary64.round_magnitude (- q))%Q.
Proof.
  intros H. unfold binary64.round.
  destruct (sign_cases q) as [[_ E]|[[_ L]|[[p ->] _]]];
    [lra|lra|reflexivity].
Qed.

Lemma round_zero (q : Q) : (q == 0)%Q -> binary64.round q = 0%Q.
Proof.
  intros H. unfold binary64.round.
  destruct (sign_cases q) as [[-> _]|[[_ L]|[_ L]]];
    [reflexivity|lra|lra].
Qed.

Lemma round_nonneg (q : Q) : (0 <= q)%Q -> (0 <= binary64.round q)%Q.
Proof.
  intros H. destruct (Qlt_le_dec 0 q) as [P|P].
  - rewrite round_pos by exact P. now apply round_magnitude_nonneg.
  - rewrite round_zero by lra. lra.
Qed.

Lemma round_nonpos (q : Q) : (q <= 0)%Q -> (binary64.round q <= 0)%Q.
Proof.
  intros H. destruct (Qlt_le_dec q 0) as [P|P].
  - rewrite round_neg by exact P.
    assert ((0 <= binary64.round_magnitude (- q))%Q)
      by (apply round_magnitude_nonneg; lra).
    lra.
  - rewrite round_zero by lra. lra.
Qed.

(** Rounding keeps the order. *)
Lemma round_le (x y : Q) :
  (x <= y)%Q -> (binary64.round x <= binary64.round y)%Q.
Proof.
  intros H.
  destruct (Qlt_le_dec 0 x) as [Px|Px].
  - rewrite (round_pos x), (round_pos y) by lra.
    now apply round_magnitude_le.
  - destruct (Qlt_le_dec y 0) as [Py|Py].
    + rewrite (round_neg x), (round_neg y) by lra.
      assert ((binary64.round_magnitude (- y)
               <= binary64.round_magnitude (- x))%Q)
        by (apply round_magnitude_le; lra).
      lra.
    + pose proof (round_nonpos x Px). pose proof (round_nonneg y Py). lra.
Qed.

(** A number of at most 53 significant bits, above the subnormal range,
    is its own rounding. *)
Lemma round_exact (q : Q) (m e : Z) :
  Z.abs m <= 2 ^ 53 -> binary64.emin <= e ->
  (q == inject_Z m * binary64.pow2 e)%Q ->
  (binary64.round q == q)%Q.
Proof.
  intros Hm He Hq.
  pose proof (pow2_pos e) as Pe.
  assert (Top : forall x, (x == inject_Z (2 ^ 53) * binary64.pow2 e)%Q ->
                          (binary64.round_magnitude x == x)%Q).
  { intros x Hx. apply (round_magnitude_exact x (2 ^ 52) (e + 1));
      [split; reflexivity|lia|].
    rewrite Hx, pow2_succ. change (2 ^ 53) with (2 * 2 ^ 52).
    rewrite inject_Z_mult. ring. }
  destruct (Z.lt_trichotomy m 0) as [Neg|[Zero|Pos]].
  - assert (Hm' : (inject_Z m < 0)%Q)
      by (change 0%Q with (inject_Z 0); now rewrite <- Zlt_Qlt).
    assert (Hneg : (q < 0)%Q) by (rewrite Hq; nra).
    rewrite round_neg by exact Hneg.
    assert (E : (- q == inject_Z (- m) * binary64.pow2 e)%Q)
      by (rewrite Hq, inject_Z_opp; ring).
    destruct (Z.eq_dec (- m) (2 ^ 53)) as [T|T].
    + rewrite T in E. rewrite (Top _ E). ring.
    + rewrite (round_magnitude_exact (- q) (- m) e); [ring|lia|exact He|exact E].
  - subst m. rewrite round_zero; [|rewrite Hq; ring]. rewrite Hq. ring.
  - assert (Hm' : (0 < inject_Z m)%Q)
      by (change 0%Q with (inject_Z 0); now rewrite <- Zlt_Qlt).
    assert (Hpos : (0 < q)%Q) by (rewrite Hq; nra).
    rewrite round_pos by exact Hpos.
    destruct (Z.eq_dec m (2 ^ 53)) as [T|T].
    + rewrite T in Hq. now apply Top.
    + apply (round_magnitude_exact q m e); [lia|exact He|exact Hq].
Qed.

Lemma round_Z (n : Z) :
  Z.abs n <= 2 ^ 53 -> (binary64.round (inject_Z n) == inject_Z n)%Q.
Proof.
  intros H. apply (round_exact _ n 0); [exact H|discriminate|].
  change (binary64.pow2 0) with 1%Q. ring.
Qed.

(** On numbers of magnitude up to [2 ** (53 - k)] the multiples of
    [2 ** -k] are representable, so rounding moves a number by at most
    [2 ** -k]. *)
Lemma round_error (k : Z) (x : Q) :
  binary64.emin <= - k ->
  (Qabs x <= binary64.pow2 (53 - k))%Q ->
  (x - binary64.pow2 (- k) <= binary64.round x)%Q
  /\ (binary64.round x <= x + binary64.pow2 (- k))%Q.
Proof.
  intros Hk Hx.
  pose proof (pow2_pos k) as Pk. pose proof (pow2_pos (- k)) as Pk'.
  pose proof (pow2_opp k) as O.
  set (y := (x * binary64.pow2 k)%Q).
  assert (Hy : (Qabs y <= inject_Z (2 ^ 53))%Q).
  { unfold y. rewrite Qabs_Qmult, (Qabs_pos (binary64.pow2 k)) by lra.
    rewrite <- pow2_53.
    setoid_replace (binary64.pow2 53)
      with (binary64.pow2 (53 - k) * binary64.pow2 k)%Q
      by (rewrite <- pow2_add; now replace (53 - k + k) with 53 by lia).
    pose proof (Qabs_nonneg x). nra. }
  apply Qabs_Qle_condition in Hy. destruct Hy as [Y1 Y2].
  assert (F1 : - 2 ^ 53 <= Qfloor y).
  { rewrite <- (Qfloor_Z (- 2 ^ 53)). apply Qfloor_resp_le.
    now rewrite inject_Z_opp. }
  assert (C2 : Qceiling y <= 2 ^ 53).
  { rewrite <- (Qceiling_Z (2 ^ 53)). now apply Qceiling_resp_le. }
  assert (FC : Qfloor y <= Qceiling y)
    by (rewrite Zle_Qle; apply Qle_floor_ceiling).
  assert (C1 : Qceiling y <= Qfloor y + 1).
  { rewrite <- (Qceiling_Z (Qfloor y + 1)). apply Qceiling_resp_le.
    apply Qlt_le_weak, Qlt_floor. }
  pose proof (Qfloor_le y) as Fy. pose proof (Qle_ceiling y) as Cy.
  set (lo := (inject_Z (Qfloor y) * binary64.pow2 (- k))%Q).
  set (hi := (inject_Z (Qceiling y) * binary64.pow2 (- k))%Q).
  assert (X : (x == y * binary64.pow2 (- k))%Q).
  { unfold y. rewrite <- Qmult_assoc, O. ring. }
  assert (Lo : (lo <= x)%Q) by (unfold lo; rewrite X; nra).
  assert (Hi : (x <= hi)%Q) by (unfold hi; rewrite X; nra).
  assert (Rlo : (binary64.round lo == lo)%Q)
    by (apply (round_exact lo (Qfloor y) (- k)); [lia|exact Hk|reflexivity]).
  assert (Rhi : (binary64.round hi == hi)%Q)
    by (apply (round_exact hi (Qceiling y) (- k)); [lia|exact Hk|reflexivity]).
  pose proof (round_le lo x Lo) as M1. pose proof (round_le x hi Hi) as M2.
  rewrite Rlo in M1. rewrite Rhi in M2.
  assert (W : (hi - lo <= binary64.pow2 (- k))%Q).
  { unfold hi, lo. rewrite Zle_Qle, inject_Z_plus in C1.
    change (inject_Z 1) with 1%Q in C1. nra. }
  split; lra.
Qed.

(** Two numbers two grid steps apart stay one grid step apart when
    rounded. *)
Lemma round_gap (k : Z) (x y : Q) :
  binary64.emin <= - k ->
  (- binary64.pow2 (53 - k) <= x)%Q -> (y <= binary64.pow2 (53 - k))%Q ->
  (x + 2 * binary64.pow2 (- k) <= y)%Q ->
  (binary64.round x + binary64.pow2 (- k) <= binary64.round y)%Q.
Proof.
  intros Hk Hx Hy Hxy.
  pose proof (pow2_pos k) as Pk. pose proof (pow2_pos (- k)) as Pk'.
  pose proof (pow2_opp k) as O.
  assert (S53 : (binary64.pow2 (53 - k) * binary64.pow2 k
                 == inject_Z (2 ^ 53))%Q).
  { rewrite <- pow2_add, <- pow2_53. now replace (53 - k + k) with 53 by lia. }
  set (n := Qfloor (x * binary64.pow2 k) + 1).
  pose proof (Qfloor_le (x * binary64.pow2 k)) as F1.
  pose proof (Qlt_floor (x * binary64.pow2 k)) as F2. fold n in F2.
  assert (N1 : - 2 ^ 53 <= n - 1).
  { unfold n. replace (Qfloor (x * binary64.pow2 k) + 1 - 1)
      with (Qfloor (x * binary64.pow2 k)) by lia.
    rewrite <- (Qfloor_Z (- 2 ^ 53)). apply Qfloor_resp_le.
    rewrite inject_Z_opp, <- S53. nra. }
  set (p1 := (inject_Z n * binary64.pow2 (- k))%Q).
  set (p2 := (inject_Z (n + 1) * binary64.pow2 (- k))%Q).
  assert (X : (x == (x * binary64.pow2 k) * binary64.pow2 (- k))%Q)
    by (rewrite <- Qmult_assoc, O; ring).
  assert (A1 : (x <= p1)%Q) by (unfold p1; rewrite X at 1; nra).
  assert (A2 : (p1 <= x + binary64.pow2 (- k))%Q).
  { unfold p1, n. rewrite inject_Z_plus. change (inject_Z 1) with 1%Q.
    rewrite X at 2. nra. }
  assert (A3 : (p2 == p1 + binary64.pow2 (- k))%Q).
  { unfold p2, p1. rewrite inject_Z_plus. change (inject_Z 1) with 1%Q. ring. }
  assert (A4 : (p2 <= y)%Q) by lra.
  assert (N2 : n + 1 <= 2 ^ 53).
  { rewrite Zle_Qle, <- S53.
    assert (E : (inject_Z (n + 1) == p2 * binary64.pow2 k)%Q).
    { unfold p2. rewrite <- Qmult_assoc, (Qmult_comm (binary64.pow2 (- k))), O.
      ring. }
    rewrite E. nra. }
  assert (R1 : (binary64.round p1 == p1)%Q)
    by (apply (round_exact p1 n (- k)); [lia|exact Hk|reflexivity]).
  assert (R2 : (binary64.round p2 == p2)%Q)
    by (apply (round_exact p2 (n + 1) (- k)); [lia|exact Hk|reflexivity]).
  pose proof (round_le x p1 A1) as M1. pose proof (round_le p2 y A4) as M2.
  rewrite R1 in M1. rewrite R2 in M2. lra.
Qed.

(** *** Sample values *)

(** The doubles of some decimal literals, a tie that goes to the even
    significand, a tie between subnormal numbers, and an integer beyond
    [2 ** 53]. *)
Lemma round_samples :
  (binary64.round (1 # 10) == 3602879701896397 # 36028797018963968)%Q
  /\ (binary64.round (3 # 10) == 5404319552844595 # 18014398509481984)%Q
  /\ (binary64.round (35 # 100) == 3152519739159347 # 9007199254740992)%Q
  /\ (binary64.round (inject_Z (2 ^ 53 + 1)) == inject_Z (2 ^ 53))%Q
  /\ (binary64.round (inject_Z (2 ^ 53 + 3)) == inject_Z (2 ^ 53 + 4))%Q
  /\ (binary64.round (3 * binary64.pow2 (-1075)) == binary64.pow2 (-1073))%Q
  /\ (binary64.round (binary64.pow2 (-1075)) == 0)%Q.
Proof. vm_compute. repeat split. Qed.

(** *** The operations keep the order *)

Lemma add_le (a a' b b' : Q) :
  (a <= a')%Q -> (b <= b')%Q -> (binary64.add a b <= binary64.add a' b')%Q.
Proof. intros H1 H2. apply round_le. lra. Qed.

Lemma mul_le (a a' w : Q) :
  (0 <= w)%Q -> (a <= a')%Q -> (binary64.mul a w <= binary64.mul a' w)%Q.
Proof. intros H1 H2. apply round_le. nra. Qed.

Lemma of_Z_le (n m : Z) : n <= m -> (binary64.of_Z n <= binary64.of_Z m)%Q.
Proof. intros H. apply round_le. now rewrite <- Zle_Qle. Qed.

Lemma Qmin_le (a b : Q) : (a <= b)%Q -> (utils.Qmin a 100 <= utils.Qmin b 100)%Q.
Proof.
  intros H. unfold utils.Qmin.
  destruct (Qlt_le_dec 100 a), (Qlt_le_dec 100 b); lra.
Qed.

(** *** The default weights as doubles *)

Lemma weight_3_10 :
  (binary64.round (3 # 10) == 5404319552844595 # 18014398509481984)%Q.
Proof. reflexivity. Qed.

Lemma weight_2_10 :
  (binary64.round (2 # 10) == 3602879701896397 # 18014398509481984)%Q.
Proof. reflexivity. Qed.

(** The terms of the score at the ends of their ranges. *)
Lemma confidence_term_0 : (binary64.mul 0 (binary64.round (3 # 10)) == 0)%Q.
Proof. reflexivity. Qed.
Lemma confidence_term_100 : (binary64.mul 100 (binary64.round (3 # 10)) == 30)%Q.
Proof. reflexivity. Qed.
Lemma size_term_50 : (binary64.mul 50 (binary64.round (2 # 10)) == 10)%Q.
Proof. reflexivity. Qed.
Lemma size_term_100 : (binary64.mul 100 (binary64.round (2 # 10)) == 20)%Q.
Proof. reflexivity. Qed.
Lemma count_term_0 :
  (binary64.mul (binary64.of_Z 0) (binary64.round (2 # 10)) == 0)%Q.
Proof. reflexivity. Qed.
Lemma count_term_100 :
  (binary64.mul (binary64.of_Z 100) (binary64.round (2 # 10)) == 20)%Q.
Proof. reflexivity. Qed.

Lemma readability_term (r : Z) :
  0 <= r <= 4 ->
  (binary64.mul (binary64.of_Z (Z.min (r * 25) 100)) (binary64.round (3 # 10))
   == (15 # 2) * inject_Z r)%Q.
Proof.
  intros H.
  assert (C : r = 0 \/ r = 1 \/ r = 2 \/ r = 3 \/ r = 4) by lia.
  destruct C as [->|[->|[->|[->| ->]]]]; reflexivity.
Qed.

Lemma readability_term_range (r : Z) :
  0 <= r ->
  (0 <= binary64.mul (binary64.of_Z (Z.min (r * 25) 100))
                     (binary64.round (3 # 10)) <= 30)%Q.
Proof.
  intros H.
  assert (W : (0 <= binary64.round (3 # 10))%Q) by (rewrite weight_3_10; lra).
  split.
  - assert (L : (binary64.mul (binary64.of_Z 0) (binary64.round (3 # 10))
                 <= binary64.mul (binary64.of_Z (Z.min (r * 25) 100))
                                 (binary64.round (3 # 10)))%Q)
      by (apply mul_le; [exact W|apply of_Z_le; lia]).
    assert (E : (binary64.mul (binary64.of_Z 0) (binary64.round (3 # 10)) == 0)%Q)
      by reflexivity.
    lra.
  - assert (L : (binary64.mul (binary64.of_Z (Z.min (r * 25) 100))
                              (binary64.round (3 # 10))
                 <= binary64.mul (binary64.of_Z 100) (binary64.round (3 # 10)))%Q)
      by (apply mul_le; [exact W|apply of_Z_le; lia]).
    assert (E : (binary64.mul (binary64.of_Z 100) (binary64.round (3 # 10)) == 30)%Q)
      by reflexivity.
    lra.
Qed.

Lemma count_term_range (n : Z) :
  0 <= n ->
  (0 <= binary64.mul (binary64.of_Z (Z.min (n * 15) 100))
                     (binary64.round (2 # 10)) <= 20)%Q.
Proof.
  intros H.
  assert (W : (0 <= binary64.round (2 # 10))%Q) by (rewrite weight_2_10; lra).
  split.
  - assert (L : (binary64.mul (binary64.of_Z 0) (binary64.round (2 # 10))
                 <= binary64.mul (binary64.of_Z (Z.min (n * 15) 100))
                                 (binary64.round (2 # 10)))%Q)
      by (apply mul_le; [exact W|apply of_Z_le; lia]).
    pose proof count_term_0. lra.
  - assert (L : (binary64.mul (binary64.of_Z (Z.min (n * 15) 100))
                              (binary64.round (2 # 10))
                 <= binary64.mul (binary64.of_Z 100) (binary64.round (2 # 10)))%Q)
      by (apply mul_le; [exact W|apply of_Z_le; lia]).
    pose proof count_term_100. lra.
Qed.

Lemma size_term_range (height : Q) :
  (10 <= binary64.mul (utils.size_score height) (binary64.round (2 # 10))
   <= 20)%Q.
Proof.
  assert (W : (0 <= binary64.round (2 # 10))%Q) by (rewrite weight_2_10; lra).
  pose proof (size_score_range height) as [S1 S2].
  pose proof (mul_le _ _ _ W S1). pose proof (mul_le _ _ _ W S2).
  pose proof size_term_50. pose proof size_term_100. lra.
Qed.

Lemma confidence_term_range (c : Q) :
  (0 <= c)%Q ->
  (0 <= binary64.mul (utils.Qmin c 100) (binary64.round (3 # 10)) <= 30)%Q.
Proof.
  intros H.
  assert (W : (0 <= binary64.round (3 # 10))%Q) by (rewrite weight_3_10; lra).
  assert (M : (0 <= utils.Qmin c 100 <= 100)%Q)
    by (unfold utils.Qmin; destruct (Qlt_le_dec 100 c); lra).
  destruct M as [M1 M2].
  pose proof (mul_le _ _ _ W M1). pose proof (mul_le _ _ _ W M2).
  pose proof confidence_term_0. pose proof confidence_term_100. lra.
Qed.

(** Sums of bounded terms are bounded. *)
Lemma add_range (a b : Q) (lo hi : Z) :
  Z.abs lo <= 2 ^ 53 -> Z.abs hi <= 2 ^ 53 ->
  (inject_Z lo <= a + b <= inject_Z hi)%Q ->
  (inject_Z lo <= binary64.add a b <= inject_Z hi)%Q.
Proof.
  intros Hlo Hhi [H1 H2].
  pose proof (round_le _ _ H1) as R1. pose proof (round_le _ _ H2) as R2.
  rewrite round_Z in R1 by exact Hlo. rewrite round_Z in R2 by exact Hhi.
  now split.
Qed.

(** ** The quality score in binary64 *)

Lemma pow2_17 : (binary64.pow2 17 == 131072)%Q. Proof. reflexivity. Qed.
Lemma pow2_18 : (binary64.pow2 18 == 262144)%Q. Proof. reflexivity. Qed.
Lemma pow2_19 : (binary64.pow2 19 == 524288)%Q. Proof. reflexivity. Qed.
Lemma pow2_20 : (binary64.pow2 20 == 1048576)%Q. Proof. reflexivity. Qed.
Lemma pow2_m33 : (binary64.pow2 (-33) == 1 # 8589934592)%Q. Proof. reflexivity. Qed.
Lemma pow2_m34 : (binary64.pow2 (-34) == 1 # 17179869184)%Q. Proof. reflexivity. Qed.
Lemma pow2_m35 : (binary64.pow2 (-35) == 1 # 34359738368)%Q. Proof. reflexivity. Qed.
Lemma pow2_m36 : (binary64.pow2 (-36) == 1 # 68719476736)%Q. Proof. reflexivity. Qed.

(** The score without its last term. *)
Lemma partial_score_range (c height : Q) (n : Z) :
  (0 <= c)%Q -> 0 <= n ->
  (0 <= binary64.add
          (binary64.add
             (binary64.mul (utils.Qmin c 100) (binary64.round (3 # 10)))
             (binary64.mul (utils.size_score height) (binary64.round (2 # 10))))
          (binary64.mul (binary64.of_Z (Z.min (n * 15) 100))
                        (binary64.round (2 # 10)))
   <= 70)%Q.
Proof.
  intros Hc Hn.
  pose proof (confidence_term_range c Hc) as [A1 A2].
  pose proof (size_term_range height) as [S1 S2].
  pose proof (count_term_range n Hn) as [T1 T2].
  assert (B : (inject_Z 0 <= binary64.add
                 (binary64.mul (utils.Qmin c 100) (binary64.round (3 # 10)))
                 (binary64.mul (utils.size_score height) (binary64.round (2 # 10)))
               <= inject_Z 50)%Q).
  { apply add_range; [discriminate|discriminate|].
    change (inject_Z 0) with 0%Q. change (inject_Z 50) with 50%Q. split; lra. }
  change (inject_Z 0) with 0%Q in B. change (inject_Z 50) with 50%Q in B.
  destruct B as [B1 B2].
  change 0%Q with (inject_Z 0). change 70%Q with (inject_Z 70).
  apply add_range; [discriminate|discriminate|].
  change (inject_Z 0) with 0%Q. change (inject_Z 70) with 70%Q. split; lra.
Qed.

(** C8, as the code computes it.  In binary64 arithmetic and with the
    default weights, the quality score never decreases when the
    confidence increases; it strictly increases when the two confidences
    lie between 0 and 100 and differ by at least one billionth (counts
    not negative); and it strictly increases with the readable-word
    count between 0 and 4 (confidence and text count not negative). *)
Theorem quality_score_monotone_in_binary64
    (c1 c2 height : Q) (text_count readable_words r1 r2 : Z) :
  let score := fun c r =>
    utils_binary64.calculate_quality_score c height text_count r
      (as_binary64 default_weights) in
  ((c1 <= c2)%Q -> (score c1 readable_words <= score c2 readable_words)%Q)
  /\ ((0 <= c1)%Q -> (c1 + (1 # 1000000000) <= c2)%Q -> (c2 <= 100)%Q ->
      0 <= text_count -> 0 <= readable_words ->
      (score c1 readable_words < score c2 readable_words)%Q)
  /\ ((0 <= c1)%Q -> 0 <= text_count -> 0 <= r1 -> r1 < r2 <= 4 ->
      (score c1 r1 < score c1 r2)%Q).
Proof.
  cbv zeta. unfold utils_binary64.calculate_quality_score. cbv zeta.
  cbn [as_binary64 default_weights utils.w_confidence utils.w_size
       utils.w_count utils.w_readability].
  assert (W : (0 <= binary64.round (3 # 10))%Q) by (rewrite weight_3_10; lra).
  set (s := binary64.mul (utils.size_score height) (binary64.round (2 # 10))).
  set (t := binary64.mul (binary64.of_Z (Z.min (text_count * 15) 100))
                         (binary64.round (2 # 10))).
  split; [|split].
  - intros H. repeat apply add_le; try apply Qle_refl.
    apply mul_le; [exact W|]. now apply Qmin_le.
  - intros H0 Hgap H100 Hn Hr.
    set (u := binary64.mul (binary64.of_Z (Z.min (readable_words * 25) 100))
                           (binary64.round (3 # 10))).
    pose proof (size_term_range height) as [S1 S2]. fold s in S1, S2.
    pose proof (count_term_range text_count Hn) as [T1 T2]. fold t in T1, T2.
    pose proof (readability_term_range readable_words Hr) as [U1 U2].
    fold u in U1, U2.
    assert (M1 : utils.Qmin c1 100 = c1)
      by (unfold utils.Qmin; destruct (Qlt_le_dec 100 c1); [lra|reflexivity]).
    assert (M2 : utils.Qmin c2 100 = c2)
      by (unfold utils.Qmin; destruct (Qlt_le_dec 100 c2); [lra|reflexivity]).
    rewrite M1, M2.
    pose proof (confidence_term_range c1 H0) as [A1 A1'].
    pose proof (confidence_term_range c2 ltac:(lra)) as [A2 A2'].
    rewrite M1 in A1, A1'. rewrite M2 in A2, A2'.
    pose proof weight_3_10 as V.
    pose proof pow2_17 as P17. pose proof pow2_18 as P18.
    pose proof pow2_19 as P19. pose proof pow2_20 as P20.
    pose proof pow2_m33 as Q33. pose proof pow2_m34 as Q34.
    pose proof pow2_m35 as Q35. pose proof pow2_m36 as Q36.
    set (w := binary64.round (3 # 10)) in *.
    assert (Wlo : (1 # 4 <= w)%Q) by lra.
    assert (Whi : (w <= 1)%Q) by lra.
    assert (P1 : (0 <= c1 * w)%Q) by (apply Qmult_le_0_compat; lra).
    assert (P2 : (c2 * w <= 100 * w)%Q) by (apply Qmult_le_compat_r; lra).
    assert (P3 : ((1 # 1000000000) * w <= (c2 - c1) * w)%Q)
      by (apply Qmult_le_compat_r; lra).
    assert (P4 : ((c2 - c1) * w == c2 * w - c1 * w)%Q) by ring.
    rewrite P4 in P3. clear P4.
    unfold binary64.mul.
    set (p1 := (c1 * w)%Q) in *. set (p2 := (c2 * w)%Q) in *.
    assert (G1 : (binary64.round p1 + binary64.pow2 (- 33)
                  <= binary64.round p2)%Q).
    { apply (round_gap 33); [discriminate| | |].
      - change (53 - 33) with 20. lra.
      - change (53 - 33) with 20. lra.
      - change (binary64.pow2 (Z.opp 33)) with (binary64.pow2 (-33)). lra. }
    fold (binary64.mul c1 w) in *. fold (binary64.mul c2 w) in *.
    unfold p1, p2 in G1. fold (binary64.mul c1 w) in G1.
    fold (binary64.mul c2 w) in G1.
    set (a1 := binary64.mul c1 w) in *. set (a2 := binary64.mul c2 w) in *.
    assert (G2 : (binary64.add a1 s + binary64.pow2 (- 34)
                  <= binary64.add a2 s)%Q).
    { apply (round_gap 34); [discriminate| | |].
      - change (53 - 34) with 19. lra.
      - change (53 - 34) with 19. lra.
      - change (binary64.pow2 (Z.opp 34)) with (binary64.pow2 (-34)).
        change (binary64.pow2 (Z.opp 33)) with (binary64.pow2 (-33)) in G1.
        lra. }
    assert (B1 : (0 <= binary64.add a1 s <= 50)%Q).
    { change 0%Q with (inject_Z 0). change 50%Q with (inject_Z 50).
      apply add_range; [discriminate|discriminate|].
      change (inject_Z 0) with 0%Q. change (inject_Z 50) with 50%Q.
      split; lra. }
    assert (B2 : (0 <= binary64.add a2 s <= 50)%Q).
    { change 0%Q with (inject_Z 0). change 50%Q with (inject_Z 50).
      apply add_range; [discriminate|discriminate|].
      change (inject_Z 0) with 0%Q. change (inject_Z 50) with 50%Q.
      split; lra. }
    set (b1 := binary64.add a1 s) in *. set (b2 := binary64.add a2 s) in *.
    assert (G3 : (binary64.add b1 t + binary64.pow2 (- 35)
                  <= binary64.add b2 t)%Q).
    { apply (round_gap 35); [discriminate| | |].
      - change (53 - 35) with 18. lra.
      - change (53 - 35) with 18. lra.
      - change (binary64.pow2 (Z.opp 35)) with (binary64.pow2 (-35)).
        change (binary64.pow2 (Z.opp 34)) with (binary64.pow2 (-34)) in G2.
        lra. }
    assert (C1 : (0 <= binary64.add b1 t <= 70)%Q).
    { change 0%Q with (inject_Z 0). change 70%Q with (inject_Z 70).
      apply add_range; [discriminate|discriminate|].
      change (inject_Z 0) with 0%Q. change (inject_Z 70) with 70%Q.
      split; lra. }
    assert (C2 : (0 <= binary64.add b2 t <= 70)%Q).
    { change 0%Q with (inject_Z 0). change 70%Q with (inject_Z 70).
      apply add_range; [discriminate|discriminate|].
      change (inject_Z 0) with 0%Q. change (inject_Z 70) with 70%Q.
      split; lra. }
    set (d1 := binary64.add b1 t) in *. set (d2 := binary64.add b2 t) in *.
    assert (G4 : (binary64.add d1 u + binary64.pow2 (- 36)
                  <= binary64.add d2 u)%Q).
    { apply (round_gap 36); [discriminate| | |].
      - change (53 - 36) with 17. lra.
      - change (53 - 36) with 17. lra.
      - change (binary64.pow2 (Z.opp 36)) with (binary64.pow2 (-36)).
        change (binary64.pow2 (Z.opp 35)) with (binary64.pow2 (-35)) in G3.
        lra. }
    change (binary64.pow2 (Z.opp 36)) with (binary64.pow2 (-36)) in G4.
    change (binary64.add d1 u < binary64.add d2 u)%Q. lra.
  - intros H0 Hn Hr1 Hr.
    pose proof (partial_score_range c1 height text_count H0 Hn) as [D1 D2].
    fold s t in D1, D2.
    pose proof (readability_term r1 ltac:(lia)) as E1.
    pose proof (readability_term r2 ltac:(lia)) as E2.
    set (d := binary64.add
                (binary64.add
                   (binary64.mul (utils.Qmin c1 100) (binary64.round (3 # 10)))
                   s) t) in *.
    set (u1 := binary64.mul (binary64.of_Z (Z.min (r1 * 25) 100))
                            (binary64.round (3 # 10))) in *.
    set (u2 := binary64.mul (binary64.of_Z (Z.min (r2 * 25) 100))
                            (binary64.round (3 # 10))) in *.
    assert (R : (inject_Z r1 + 1 <= inject_Z r2)%Q).
    { change 1%Q with (inject_Z 1). rewrite <- inject_Z_plus, <- Zle_Qle. lia. }
    assert (R0 : (0 <= inject_Z r1)%Q)
      by (change 0%Q with (inject_Z 0); now rewrite <- Zle_Qle).
    assert (R4 : (inject_Z r2 <= 4)%Q)
      by (change 4%Q with (inject_Z 4); rewrite <- Zle_Qle; lia).
    pose proof pow2_53 as P53.
    assert (G : (binary64.add d u1 + binary64.pow2 (- 0)
                 <= binary64.add d u2)%Q).
    { apply (round_gap 0); [discriminate| | |].
      - change (53 - 0) with 53. rewrite P53.
        change (inject_Z (2 ^ 53)) with 9007199254740992%Q. lra.
      - change (53 - 0) with 53. rewrite P53.
        change (inject_Z (2 ^ 53)) with 9007199254740992%Q. lra.
      - change (binary64.pow2 (- 0)) with 1%Q. lra. }
    change (binary64.pow2 (- 0)) with 1%Q in G. lra.
Qed.

Lemma quality_score_monotone_in_binary64_witness :
  let score := fun c r =>
    utils_binary64.calculate_quality_score c 18 3 r
      (as_binary64 default_weights) in
  (score 40%Q 2%Z <= score (81 # 2)%Q 2%Z)%Q
  /\ (score 40%Q 2%Z < score (81 # 2)%Q 2%Z)%Q
  /\ (score 40%Q 1%Z < score 40%Q 2%Z)%Q.
Proof.
  intros score.
  destruct (quality_score_monotone_in_binary64 40 (81 # 2) 18 3 2 1 2)
    as (H1 & H2 & H3).
  split; [|split].
  - apply H1. vm_compute. discriminate.
  - apply H2; [vm_compute; discriminate|vm_compute; discriminate
              |vm_compute; discriminate|lia|lia].
  - apply H3; [vm_compute; discriminate|lia|lia|lia].
Defined.

(** The strict order of C8 fails in the code's arithmetic: 40.0 and the
    next double above it, both below 100, give the same score 56.0. *)
Lemma quality_score_not_strict_in_binary64 :
  let c1 := 40%Q in
  let c2 := (40 + binary64.pow2 (-47))%Q in
  is_binary64 c1 = true /\ is_binary64 c2 = true
  /\ (c1 < c2)%Q /\ (c2 <= 100)%Q
  /\ (utils_binary64.calculate_quality_score c1 18 3 2
        (as_binary64 default_weights) == 56)%Q
  /\ (utils_binary64.calculate_quality_score c2 18 3 2
        (as_binary64 default_weights) == 56)%Q
  /\ ~ (utils_binary64.calculate_quality_score c1 18 3 2
          (as_binary64 default_weights)
        < utils_binary64.calculate_quality_score c2 18 3 2
            (as_binary64 default_weights))%Q.
Proof.
  cbv zeta. split; [vm_compute; reflexivity|].
  split; [vm_compute; reflexivity|].
  split; [vm_compute; reflexivity|].
  split; [vm_compute; discriminate|].
  split; [vm_compute; reflexivity|].
  split; [vm_compute; reflexivity|].
  apply Qle_not_lt. vm_compute. discriminate.
Qed.

(** ** The range of the quality score in binary64 *)

(** In binary64 as in exact arithmetic, with the default weights the
    quality score never exceeds 100, whatever the inputs; it is at least
    10 when the confidence and the two counts are not negative; and it
    does not change once the readable-word count is 4 or more, or the
    text count 7 or more. *)
Theorem quality_score_range_in_binary64
    (confidence height : Q) (text_count readable_words : Z) :
  let score := fun c n r =>
    utils_binary64.calculate_quality_score c height n r
      (as_binary64 default_weights) in
  (score confidence text_count readable_words <= 100)%Q
  /\ ((0 <= confidence)%Q -> 0 <= text_count -> 0 <= readable_words ->
      (10 <= score confidence text_count readable_words)%Q)
  /\ (4 <= readable_words ->
      score confidence text_count readable_words
      = score confidence text_count 4)
  /\ (7 <= text_count ->
      score confidence text_count readable_words
      = score confidence 7 readable_words).
Proof.
  cbv zeta. unfold utils_binary64.calculate_quality_score. cbv zeta.
  cbn [as_binary64 default_weights utils.w_confidence utils.w_size
       utils.w_count utils.w_readability].
  assert (W3 : (0 <= binary64.round (3 # 10))%Q) by (rewrite weight_3_10; lra).
  assert (W2 : (0 <= binary64.round (2 # 10))%Q) by (rewrite weight_2_10; lra).
  pose proof (size_term_range height) as [S1 S2].
  split; [|split; [|split]].
  - assert (A : (binary64.mul (utils.Qmin confidence 100)
                              (binary64.round (3 # 10)) <= 30)%Q).
    { pose proof (Qmin_le_100 confidence) as M.
      pose proof (mul_le _ _ _ W3 M). pose proof confidence_term_100. lra. }
    assert (T : (binary64.mul (binary64.of_Z (Z.min (text_count * 15) 100))
                              (binary64.round (2 # 10)) <= 20)%Q).
    { assert (L : (binary64.mul (binary64.of_Z (Z.min (text_count * 15) 100))
                                (binary64.round (2 # 10))
                   <= binary64.mul (binary64.of_Z 100)
                                   (binary64.round (2 # 10)))%Q)
        by (apply mul_le; [exact W2|apply of_Z_le; lia]).
      pose proof count_term_100. lra. }
    assert (U : (binary64.mul (binary64.of_Z (Z.min (readable_words * 25) 100))
                              (binary64.round (3 # 10)) <= 30)%Q).
    { assert (L : (binary64.mul (binary64.of_Z (Z.min (readable_words * 25) 100))
                                (binary64.round (3 # 10))
                   <= binary64.mul (binary64.of_Z 100)
                                   (binary64.round (3 # 10)))%Q)
        by (apply mul_le; [exact W3|apply of_Z_le; lia]).
      assert (E : (binary64.mul (binary64.of_Z 100) (binary64.round (3 # 10))
                   == 30)%Q) by reflexivity.
      lra. }
    set (a := binary64.mul (utils.Qmin confidence 100) (binary64.round (3 # 10)))
      in *.
    set (s := binary64.mul (utils.size_score height) (binary64.round (2 # 10)))
      in *.
    set (t := binary64.mul (binary64.of_Z (Z.min (text_count * 15) 100))
                           (binary64.round (2 # 10))) in *.
    set (u := binary64.mul (binary64.of_Z (Z.min (readable_words * 25) 100))
                           (binary64.round (3 # 10))) in *.
    assert (B : (binary64.add a s <= 50)%Q).
    { pose proof (round_le (a + s) 50 ltac:(lra)) as R.
      pose proof (round_Z 50 ltac:(discriminate)) as E.
      change (inject_Z 50) with 50%Q in E. unfold binary64.add. lra. }
    assert (C : (binary64.add (binary64.add a s) t <= 70)%Q).
    { pose proof (round_le (binary64.add a s + t) 70 ltac:(lra)) as R.
      pose proof (round_Z 70 ltac:(discriminate)) as E.
      change (inject_Z 70) with 70%Q in E. unfold binary64.add at 1. lra. }
    pose proof (round_le (binary64.add (binary64.add a s) t + u) 100
                  ltac:(lra)) as R.
    pose proof (round_Z 100 ltac:(discriminate)) as E.
    change (inject_Z 100) with 100%Q in E. unfold binary64.add at 1. lra.
  - intros Hc Hn Hr.
    pose proof (confidence_term_range confidence Hc) as [A1 _].
    pose proof (count_term_range text_count Hn) as [T1 _].
    pose proof (readability_term_range readable_words Hr) as [U1 _].
    set (a := binary64.mul (utils.Qmin confidence 100) (binary64.round (3 # 10)))
      in *.
    set (s := binary64.mul (utils.size_score height) (binary64.round (2 # 10)))
      in *.
    set (t := binary64.mul (binary64.of_Z (Z.min (text_count * 15) 100))
                           (binary64.round (2 # 10))) in *.
    set (u := binary64.mul (binary64.of_Z (Z.min (readable_words * 25) 100))
                           (binary64.round (3 # 10))) in *.
    pose proof (round_Z 10 ltac:(discriminate)) as E.
    change (inject_Z 10) with 10%Q in E.
    assert (B : (10 <= binary64.add a s)%Q).
    { pose proof (round_le 10 (a + s) ltac:(lra)) as R.
      unfold binary64.add. lra. }
    assert (C : (10 <= binary64.add (binary64.add a s) t)%Q).
    { pose proof (round_le 10 (binary64.add a s + t) ltac:(lra)) as R.
      unfold binary64.add at 1. lra. }
    pose proof (round_le 10 (binary64.add (binary64.add a s) t + u)
                  ltac:(lra)) as R.
    unfold binary64.add at 1. lra.
  - intros H.
    now replace (Z.min (readable_words * 25) 100) with (Z.min (4 * 25) 100)
      by lia.
  - intros H.
    now replace (Z.min (text_count * 15) 100) with (Z.min (7 * 15) 100) by lia.
Qed.

Lemma quality_score_range_in_binary64_witness :
  let score := fun c n r =>
    utils_binary64.calculate_quality_score c 18 n r
      (as_binary64 default_weights) in
  (10 <= score 55%Q 9%Z 6%Z)%Q
  /\ score 55%Q 9 6 = score 55%Q 9 4
  /\ score 55%Q 9 6 = score 55%Q 7 6.
Proof.
  intros score.
  destruct (quality_score_range_in_binary64 55 18 9 6) as (_ & H1 & H2 & H3).
  split; [|split].
  - apply H1; [vm_compute; discriminate|lia|lia].
  - apply H2. lia.
  - apply H3. lia.
Defined.

(** ** Step size for a target overlap *)

Lemma pow2_0 : (binary64.pow2 0 == 1)%Q. Proof. reflexivity. Qed.
Lemma pow2_31 : (binary64.pow2 31 == 2147483648)%Q. Proof. reflexivity. Qed.
Lemma pow2_m53 : (binary64.pow2 (-53) == 1 # 9007199254740992)%Q.
Proof. reflexivity. Qed.
Lemma pow2_m22 : (binary64.pow2 (-22) == 1 # 4194304)%Q.
Proof. reflexivity. Qed.

Lemma round_1 : (binary64.round 1 == 1)%Q. Proof. reflexivity. Qed.

(** The factor [1 - overlap_percent / 100] as the code computes it. *)
Lemma overlap_factor (overlap_percent : Q) :
  (0 <= overlap_percent <= 100)%Q ->
  let s := binary64.sub 1 (binary64.div overlap_percent 100) in
  (0 <= s <= 1)%Q
  /\ (s <= 1 - overlap_percent / 100 + (1 # 4503599627370496))%Q.
Proof.
  intros [H0 H1]. cbv zeta.
  assert (Hx : (0 <= overlap_percent / 100 <= 1)%Q).
  { unfold Qdiv. setoid_replace (/ 100)%Q with (1 # 100)%Q by reflexivity.
    lra. }
  set (x := (overlap_percent / 100)%Q) in *. destruct Hx as [X0 X1].
  unfold binary64.div. fold x.
  pose proof pow2_0 as P0. pose proof pow2_m53 as P53. pose proof round_1 as R1.
  assert (D0 : (0 <= binary64.round x)%Q) by now apply round_nonneg.
  assert (D1 : (binary64.round x <= 1)%Q)
    by (pose proof (round_le x 1 X1); lra).
  assert (De : (x - binary64.pow2 (Z.opp 53) <= binary64.round x)%Q).
  { apply (round_error 53); [discriminate|].
    change (53 - 53) with 0. rewrite Qabs_pos by exact X0. lra. }
  change (binary64.pow2 (Z.opp 53)) with (binary64.pow2 (-53)) in De.
  set (d := binary64.round x) in *. unfold binary64.sub.
  assert (S0 : (0 <= binary64.round (1 - d))%Q) by (apply round_nonneg; lra).
  assert (S1 : (binary64.round (1 - d) <= 1)%Q)
    by (pose proof (round_le (1 - d) 1 ltac:(lra)); lra).
  assert (Se : (binary64.round (1 - d) <= 1 - d + binary64.pow2 (Z.opp 53))%Q).
  { apply (round_error 53); [discriminate|].
    change (53 - 53) with 0. rewrite Qabs_pos by lra. lra. }
  change (binary64.pow2 (Z.opp 53)) with (binary64.pow2 (-53)) in Se.
  split; [split; assumption|]. lra.
Qed.

(** The product [capture_size * factor] as the code computes it. *)
Lemma overlap_product (capture_size : Z) (s : Q) :
  0 <= capture_size <= 2 ^ 53 -> (0 <= s <= 1)%Q ->
  let t := binary64.mul (binary64.of_Z capture_size) s in
  (0 <= t <= inject_Z capture_size)%Q
  /\ (capture_size <= 2 ^ 31 ->
      (t <= inject_Z capture_size * s + (1 # 4194304))%Q).
Proof.
  intros [Z0 Z1] [S0 S1]. cbv zeta. unfold binary64.mul, binary64.of_Z.
  assert (E : (binary64.round (inject_Z capture_size) == inject_Z capture_size)%Q)
    by (apply round_Z; lia).
  assert (Hz : (0 <= inject_Z capture_size)%Q)
    by (change 0%Q with (inject_Z 0); now rewrite <- Zle_Qle).
  set (c := binary64.round (inject_Z capture_size)) in *.
  assert (P : (0 <= c * s <= inject_Z capture_size)%Q) by (split; nra).
  destruct P as [P0 P1].
  assert (T0 : (0 <= binary64.round (c * s))%Q) by now apply round_nonneg.
  assert (T1 : (binary64.round (c * s) <= inject_Z capture_size)%Q).
  { pose proof (round_le _ _ P1) as R.
    pose proof (round_Z capture_size ltac:(lia)) as RZ. lra. }
  split; [split; assumption|]. intros Z31.
  pose proof pow2_31 as P31. pose proof pow2_m22 as P22.
  assert (Hz31 : (inject_Z capture_size <= 2147483648)%Q).
  { change 2147483648%Q with (inject_Z (2 ^ 31)). now rewrite <- Zle_Qle. }
  assert (Te : (binary64.round (c * s) <= c * s + binary64.pow2 (Z.opp 22))%Q).
  { apply (round_error 22); [discriminate|].
    change (53 - 22) with 31. rewrite Qabs_pos by exact P0. lra. }
  change (binary64.pow2 (Z.opp 22)) with (binary64.pow2 (-22)) in Te.
  assert (Cs : (c * s == inject_Z capture_size * s)%Q) by (rewrite E; ring).
  lra.
Qed.

Lemma overlap_step_range (capture_size : Z) (overlap_percent : Q) :
  0 <= capture_size <= 2 ^ 53 -> (0 <= overlap_percent <= 100)%Q ->
  0 <= utils_binary64.calculate_overlap_step capture_size overlap_percent
    <= capture_size.
Proof.
  intros Hz Hp. unfold utils_binary64.calculate_overlap_step.
  destruct (overlap_factor overlap_percent Hp) as [Hs _].
  destruct (overlap_product capture_size _ Hz Hs) as [[T0 T1] _].
  destruct (int_of_Q_nonneg _ T0) as [I0 I1].
  split; [exact I0|]. rewrite Zle_Qle. lra.
Qed.

(** For a capture size between 0 and [2 ** 31] and an overlap percentage
    between 0 and 100, the step the code computes lies between 0 and the
    capture size, and two frames one step apart overlap by at least the
    requested percentage of the capture size less one millionth of a
    pixel.  For 400 pixels and 15% the step is 340; for 90 pixels and 30%
    it is 62, one less than in exact arithmetic; for 400 pixels and a
    percentage of 1e-15 it is 400, so the frames do not overlap at all. *)
Theorem overlap_step_keeps_overlap (capture_size : Z) (overlap_percent : Q) :
  0 <= capture_size <= 2 ^ 31 -> (0 <= overlap_percent <= 100)%Q ->
  0 <= utils_binary64.calculate_overlap_step capture_size overlap_percent
    <= capture_size
  /\ (inject_Z capture_size * (overlap_percent / 100) - (1 # 1000000)
      <= inject_Z (capture_size
                   - utils_binary64.calculate_overlap_step capture_size
                       overlap_percent))%Q
  /\ utils_binary64.calculate_overlap_step 400 15 = 340
  /\ utils_binary64.calculate_overlap_step 90 30 = 62
  /\ utils_binary64.calculate_overlap_step 400 (1 # 1000000000000000) = 400.
Proof.
  intros [Z0 Z1] Hp.
  split; [apply overlap_step_range; [lia|exact Hp]|].
  split; [|repeat split; vm_compute; reflexivity].
  unfold utils_binary64.calculate_overlap_step.
  destruct (overlap_factor overlap_percent Hp) as [Hs He].
  destruct (overlap_product capture_size _ ltac:(lia) Hs) as [[T0 T1] Te].
  specialize (Te Z1).
  destruct (int_of_Q_nonneg _ T0) as [I0 I1].
  set (s := binary64.sub 1 (binary64.div overlap_percent 100)) in *.
  set (t := binary64.mul (binary64.of_Z capture_size) s) in *.
  set (x := (overlap_percent / 100)%Q) in *.
  unfold Zminus. rewrite inject_Z_plus, inject_Z_opp.
  assert (Hz : (0 <= inject_Z capture_size)%Q)
    by (change 0%Q with (inject_Z 0); now rewrite <- Zle_Qle).
  assert (Hz31 : (inject_Z capture_size <= 2147483648)%Q).
  { change 2147483648%Q with (inject_Z (2 ^ 31)). now rewrite <- Zle_Qle. }
  assert (Ps : (inject_Z capture_size * s
                <= inject_Z capture_size * (1 - x + (1 # 4503599627370496)))%Q)
    by (rewrite !(Qmult_comm (inject_Z capture_size));
        apply Qmult_le_compat_r; lra).
  assert (Pe : (inject_Z capture_size * (1 # 4503599627370496)
                <= 2147483648 * (1 # 4503599627370496))%Q)
    by (apply Qmult_le_compat_r; lra).
  assert (Eq : (inject_Z capture_size * (1 - x + (1 # 4503599627370496))
                == inject_Z capture_size - inject_Z capture_size * x
                   + inject_Z capture_size * (1 # 4503599627370496))%Q) by ring.
  clearbody s t x. lra.
Qed.

Lemma overlap_step_keeps_overlap_witness :
  0 <= utils_binary64.calculate_overlap_step 500 15 <= 500
  /\ (inject_Z 500 * (15 / 100) - (1 # 1000000)
      <= inject_Z (500 - utils_binary64.calculate_overlap_step 500 15))%Q
  /\ utils_binary64.calculate_overlap_step 400 15 = 340
  /\ utils_binary64.calculate_overlap_step 90 30 = 62
  /\ utils_binary64.calculate_overlap_step 400 (1 # 1000000000000000) = 400.
Proof.
  apply (overlap_step_keeps_overlap 500 15%Q); [lia|].
  split; intro H; discriminate H.
Defined.

(** ** Effective game area *)

Lemma default_margins_from_config :
  match getattr config.WindowConfig "UI_MARGINS" with
  | Return v => margins_of v
  | Raise _ => None
  end = Some default_margins.
Proof. reflexivity. Qed.

Lemma margins_fit (W : Z) (l r : Q) :
  0 <= W -> (0 <= l)%Q -> (0 <= r)%Q -> (l + r <= 1)%Q ->
  let a := int_of_Q (inject_Z W * l) in
  let b := int_of_Q (inject_Z W * r) in
  0 <= a /\ 0 <= b /\ a + b <= W
  /\ (inject_Z W * (1 - l - r) <= inject_Z (W - a - b))%Q.
Proof.
  intros HW Hl Hr Hlr a b.
  assert (Hq : (0 <= inject_Z W)%Q)
    by (change 0%Q with (inject_Z 0); now rewrite <- Zle_Qle).
  destruct (int_of_Q_nonneg (inject_Z W * l)) as [A0 A1]; [nra|].
  destruct (int_of_Q_nonneg (inject_Z W * r)) as [B0 B1]; [nra|].
  fold a in A0, A1. fold b in B0, B1.
  assert (E : (inject_Z (W - a - b) == inject_Z W - inject_Z a - inject_Z b)%Q).
  { unfold Zminus. rewrite !inject_Z_plus, !inject_Z_opp. ring. }
  assert (Hab : (inject_Z a + inject_Z b <= inject_Z W)%Q) by nra.
  rewrite <- inject_Z_plus, <- Zle_Qle in Hab.
  repeat split; try lia. rewrite E. nra.
Qed.




(** ** Strings: parts and occurrences *)

Lemma string_app_nil_r (s : string) : s ++ "" = s.
Proof. induction s as [|c r IH]; simpl; [reflexivity | now rewrite IH]. Qed.

Lemma string_app_assoc (a b c : string) : (a ++ b) ++ c = a ++ b ++ c.
Proof. induction a as [|x r IH]; simpl; [reflexivity | now rewrite IH]. Qed.

Lemma substring_refl (s : string) : substring s s.
Proof. exists "", "". simpl. now rewrite string_app_nil_r. Qed.

Lemma substring_trans (a b c : string) :
  substring a b -> substring b c -> substring a c.
Proof.
  intros (p1 & q1 & ->) (p2 & q2 & ->).
  exists (p2 ++ p1), (q1 ++ q2).
  now rewrite !string_app_assoc.
Qed.

Lemma suffix_substring (pre r : string) : substring r (pre ++ r).
Proof. exists pre, "". now rewrite string_app_nil_r. Qed.

Lemma prefix_substring (r post : string) : substring r (r ++ post).
Proof. exists "", post. reflexivity. Qed.

Lemma lstrip_suffix (s : string) : exists pre, s = pre ++ PyStr.lstrip s.
Proof.
  induction s as [|c r [pre IH]]; simpl.
  - now exists "".
  - destruct (PyStr.isspace c).
    + exists (String c pre). simpl. now rewrite <- IH.
    + now exists "".
Qed.

Lemma rstrip_prefix (s : string) : exists post, s = PyStr.rstrip s ++ post.
Proof.
  induction s as [|c r [post IH]]; simpl.
  - now exists "".
  - destruct (PyStr.rstrip r) as [|c' r'] eqn:E.
    + destruct (PyStr.isspace c).
      * exists (String c r). reflexivity.
      * exists r. reflexivity.
    + exists post. simpl. simpl in IH. now rewrite <- IH.
Qed.

Lemma strip_substring (s : string) : substring (PyStr.strip s) s.
Proof.
  unfold PyStr.strip.
  destruct (lstrip_suffix s) as [pre Hl].
  destruct (rstrip_prefix (PyStr.lstrip s)) as [post Hr].
  exists pre, post. now rewrite <- Hr.
Qed.

Lemma after_first_suffix (close : ascii) (s r : string) :
  PyStr.after_first close s = Some r -> exists pre, s = pre ++ r.
Proof.
  revert r. induction s as [|c t IH]; simpl; intros r; [discriminate|].
  destruct (Ascii.eqb c close).
  - intros [= ->]. now exists (String c "").
  - destruct (Ascii.eqb c PyStr.newline); [discriminate|].
    intros H. destruct (IH r H) as [pre ->]. now exists (String c pre).
Qed.

Lemma re_sub_substring (p : PyStr.pattern) (s : string) :
  substring (PyStr.re_sub p s) s.
Proof.
  unfold PyStr.re_sub.
  destruct (PyStr.match_front p s) as [r|] eqn:E; [|apply substring_refl].
  destruct p as [o c|c]; simpl in E.
  - destruct s as [|a t]; [discriminate|].
    destruct (Ascii.eqb a o); [|discriminate].
    destruct (after_first_suffix c t r E) as [pre ->].
    apply (suffix_substring (String a pre)).
  - destruct (after_first_suffix c s r E) as [pre ->].
    apply suffix_substring.
Qed.

Lemma fold_strip_substring (ps : list PyStr.pattern) (s : string) :
  substring (fold_left utils.strip_step ps s) s.
Proof.
  revert s. induction ps as [|p ps IH]; intros s; simpl.
  - apply substring_refl.
  - eapply substring_trans; [apply IH|]. unfold utils.strip_step.
    eapply substring_trans; [apply strip_substring | apply re_sub_substring].
Qed.

Lemma occurs_app (c : ascii) (a b : string) :
  occurs c (a ++ b) <-> occurs c a \/ occurs c b.
Proof. induction a as [|x r IH]; simpl; tauto. Qed.

Lemma occurs_substring (c : ascii) (r s : string) :
  substring r s -> occurs c r -> occurs c s.
Proof.
  intros (pre & post & ->) H. apply occurs_app. right.
  apply occurs_app. now left.
Qed.

(** ** Alliance tags, continued *)

(** Tag stripping only removes text: its result is a contiguous part of
    the input; and it never turns a name into the empty string. *)
Theorem strip_tags_keeps_part_of_input (text : string) :
  substring (utils.extract_player_name_from_alliance_tag text) text
  /\ (text <> "" -> utils.extract_player_name_from_alliance_tag text <> "").
Proof.
  unfold utils.extract_player_name_from_alliance_tag.
  pose proof (fold_strip_substring utils.patterns text) as Hs.
  destruct (fold_left utils.strip_step utils.patterns text) as [|c r] eqn:E;
    cbn [PyStr.is_empty].
  - split; [apply substring_refl | trivial].
  - split; [exact Hs | discriminate].
Qed.

Lemma strip_tags_keeps_part_of_input_witness :
  utils.extract_player_name_from_alliance_tag "[HxC]" <> "".
Proof.
  apply (proj2 (strip_tags_keeps_part_of_input "[HxC]")). discriminate.
Defined.

(** ** Target names from the command line *)

Lemma split_on_not_nil (sep : ascii) (s : string) : split_on sep s <> [].
Proof.
  induction s as [|c r IH]; simpl; [discriminate|].
  destruct (Ascii.eqb c sep); [discriminate|].
  destruct (split_on sep r); [contradiction | discriminate].
Qed.

Lemma split_on_no_sep (sep : ascii) (s piece : string) :
  In piece (split_on sep s) -> ~ occurs sep piece.
Proof.
  revert piece. induction s as [|c r IH]; simpl; intros piece.
  - intros [<-|[]]. simpl. tauto.
  - destruct (Ascii.eqb c sep) eqn:E.
    + intros [<-|H]; [simpl; tauto | now apply IH].
    + apply Ascii.eqb_neq in E.
      destruct (split_on sep r) as [|h t] eqn:Es.
      * intros [<-|[]]. simpl. tauto.
      * intros [<-|H].
        -- simpl. intros [Hc|Hc]; [contradiction|].
           apply (IH h); [now left | exact Hc].
        -- apply IH. now right.
Qed.

(** Every name that [parse_target_names] returns is non-empty, carries no
    white space at either end and contains no comma; and no usable name is
    lost: each piece between commas that is not blank is returned, trimmed. *)
Theorem parse_target_names_clean (targets_str : string) :
  (forall name, In name (parse_target_names targets_str) ->
                name <> "" /\ PyStr.strip name = name
                /\ ~ occurs "," name)
  /\ (forall piece, In piece (split_on "," targets_str) ->
                    PyStr.strip piece <> "" ->
                    In (PyStr.strip piece) (parse_target_names targets_str)).
Proof.
  unfold parse_target_names. split.
  - intros name.
    destruct (PyStr.is_empty targets_str); [intros []|].
    rewrite in_map_iff. intros (piece & <- & Hin).
    apply filter_In in Hin. destruct Hin as [Hin Hne].
    split; [|split].
    + destruct (PyStr.strip piece); [discriminate Hne | discriminate].
    + apply strip_idempotent.
    + intros Hc. apply (split_on_no_sep "," targets_str piece Hin).
      apply (occurs_substring _ _ _ (strip_substring piece) Hc).
  - intros piece Hin Hne.
    destruct targets_str as [|c r]; cbn [PyStr.is_empty].
    + simpl in Hin. destruct Hin as [<-|[]]. now elim Hne.
    + apply in_map. apply filter_In. split; [exact Hin|].
      destruct (PyStr.strip piece); [now elim Hne | reflexivity].
Qed.

Lemma parse_target_names_clean_witness :
  ("Bob" <> "" /\ PyStr.strip "Bob" = "Bob" /\ ~ occurs "," "Bob")
  /\ In (PyStr.strip " [HxC]Al ")
        (parse_target_names "Bob, , [HxC]Al ,").
Proof.
  destruct (parse_target_names_clean "Bob, , [HxC]Al ,") as [Hclean Hkept].
  split.
  - apply Hclean. left. reflexivity.
  - apply Hkept; [right; right; left; reflexivity | discriminate].
Defined.


(** ** Geometry of captures and mouse targets *)

(** When the capture is wider (higher) than the effective area, the clamp
    puts the capture origin on the area's left (top) edge, and the capture
    rectangle then reaches beyond the area's right (bottom) edge. *)
Theorem capture_larger_than_area_sticks_out (cx cy w h ex ey ew eh : Z) :
  let self := {| ScreenCapture.center_x := cx;
                 ScreenCapture.center_y := cy;
                 ScreenCapture.capture_size := (w, h);
                 ScreenCapture.effective_game_area := Some (ex, ey, ew, eh) |} in
  let origin := ScreenCapture._calculate_capture_coordinates self in
  (ew < w -> fst origin = ex /\ ex + ew < fst origin + w)
  /\ (eh < h -> snd origin = ey /\ ey + eh < snd origin + h).
Proof.
  intros self origin. unfold origin, self; simpl. unfold utils.safe_clamp.
  split; intros H; split; lia.
Qed.

Lemma capture_larger_than_area_sticks_out_witness :
  let origin := ScreenCapture._calculate_capture_coordinates
                  {| ScreenCapture.center_x := 305;
                     ScreenCapture.center_y := 144;
                     ScreenCapture.capture_size := (600, 500);
                     ScreenCapture.effective_game_area :=
                       Some (30, 24, 410, 240) |} in
  (fst origin = 30 /\ 30 + 410 < fst origin + 600)
  /\ (snd origin = 24 /\ 24 + 240 < snd origin + 500).
Proof.
  destruct (capture_larger_than_area_sticks_out 305 144 600 500 30 24 410 240)
    as [Hx Hy].
  split; [apply Hx | apply Hy]; lia.
Defined.

(** With an effective area set, and at least twice the margin wide and
    high, the safe coordinates lie in the area shrunk by the margin on
    every side, whatever point was asked for (the client rectangle and the
    screen size are not consulted); a point already in the shrunk area is
    returned unchanged. *)
Theorem safe_coordinates_within_margin
    (env : Env) (self : MouseController.t) (x y margin ex ey ew eh : Z) :
  MouseController.effective_game_area self = Some (ex, ey, ew, eh) ->
  2 * margin <= ew -> 2 * margin <= eh ->
  let safe := MouseController._calculate_safe_coordinates env self x y margin in
  (ex + margin <= fst safe <= ex + ew - margin
   /\ ey + margin <= snd safe <= ey + eh - margin)
  /\ (ex + margin <= x <= ex + ew - margin ->
      ey + margin <= y <= ey + eh - margin -> safe = (x, y)).
Proof.
  intros Ha Hw Hh safe. unfold safe, MouseController._calculate_safe_coordinates.
  rewrite Ha. simpl. unfold utils.safe_clamp. split; [lia|].
  intros Hx Hy. f_equal; lia.
Qed.

Lemma safe_coordinates_within_margin_witness :
  let safe := MouseController._calculate_safe_coordinates
                (calm_env 1 "" 0 0) demo_mouse 5000 (-7) 100 in
  (115 + 100 <= fst safe <= 115 + 1574 - 100
   /\ 86 + 100 <= snd safe <= 86 + 864 - 100).
Proof.
  apply (safe_coordinates_within_margin (calm_env 1 "" 0 0) demo_mouse
           5000 (-7) 100 115 86 1574 864); [reflexivity | lia | lia].
Defined.

(** ** Window analysis and capture size *)

Lemma int_of_Q_mono (a b : Q) :
  (0 <= a)%Q -> (a <= b)%Q -> int_of_Q a <= int_of_Q b.
Proof.
  intros Ha Hab.
  assert (Hf : forall q, (0 <= q)%Q -> int_of_Q q = Qfloor q).
  { intros [n d]. unfold Qle, int_of_Q, Qfloor; simpl. intros H.
    apply Z.quot_div_nonneg; lia. }
  rewrite (Hf a Ha), (Hf b) by lra. now apply Qfloor_resp_le.
Qed.

Lemma int_of_Q_fraction (z : Z) (f : Q) :
  0 <= z -> (0 <= f <= 1)%Q ->
  0 <= int_of_Q (inject_Z z * f) <= z.
Proof.
  intros Hz [Hf0 Hf1].
  assert (Hq : (0 <= inject_Z z)%Q)
    by (change 0%Q with (inject_Z 0); now rewrite <- Zle_Qle).
  destruct (int_of_Q_nonneg (inject_Z z * f)) as [H0 H1]; [nra|].
  split; [exact H0|]. rewrite Zle_Qle. nra.
Qed.

(** Window analysis fails without a client rectangle, leaving the state as
    it was.  For a client rectangle of positive width and height it
    succeeds, stores the effective area computed with the configured
    margins, and moves the centre inside that area (hence inside the client
    rectangle). *)
Theorem window_analysis_centres_in_area (c0 c1 c2 c3 : Z) (w : World) :
  c0 < c2 -> c1 < c3 ->
  let wm := window_of (c0, c1, c2, c3) in
  let '(ex, ey, ew, eh) :=
    calculate_effective_area (c0, c1, c2, c3) default_margins in
  exists wm',
    WindowManager.analyze_window_and_calculate_areas wm w
    = (Return (true, wm'), w)
    /\ WindowManager.effective_game_area wm' = Some (ex, ey, ew, eh)
    /\ (ex <= WindowManager.center_x wm' < ex + ew
        /\ ey <= WindowManager.center_y wm' < ey + eh)
    /\ (c0 <= WindowManager.center_x wm' < c2
        /\ c1 <= WindowManager.center_y wm' < c3).
Proof.
  intros Hw Hh wm.
  destruct (margins_fit (c2 - c0) (m_left default_margins)
              (m_right default_margins))
    as (L0 & R0 & X1 & Wq); try lia; try (intro H; discriminate H).
  destruct (margins_fit (c3 - c1) (m_top default_margins)
              (m_bottom default_margins))
    as (T0 & B0 & Y1 & Hq); try lia; try (intro H; discriminate H).
  unfold calculate_effective_area.
  set (l := int_of_Q (inject_Z (c2 - c0) * m_left default_margins)) in *.
  set (r := int_of_Q (inject_Z (c2 - c0) * m_right default_margins)) in *.
  set (t := int_of_Q (inject_Z (c3 - c1) * m_top default_margins)) in *.
  set (b := int_of_Q (inject_Z (c3 - c1) * m_bottom default_margins)) in *.
  assert (Hew : 0 < c2 - c0 - l - r).
  { assert (Hc : (0 < inject_Z (c2 - c0))%Q)
      by (change 0%Q with (inject_Z 0); rewrite <- Zlt_Qlt; lia).
    cbn in Wq. rewrite Zlt_Qlt. change (inject_Z 0) with 0%Q. lra. }
  assert (Heh : 0 < c3 - c1 - t - b).
  { assert (Hc : (0 < inject_Z (c3 - c1))%Q)
      by (change 0%Q with (inject_Z 0); rewrite <- Zlt_Qlt; lia).
    cbn in Hq. rewrite Zlt_Qlt. change (inject_Z 0) with 0%Q. lra. }
  eexists. split.
  - unfold WindowManager.analyze_window_and_calculate_areas, wm, window_of.
    cbn [WindowManager.client_rect].
    change (lift WindowManager.ui_margins) with (lift (Return default_margins)).
    unfold bind, lift, calculate_effective_area. reflexivity.
  - cbn [WindowManager.effective_game_area WindowManager.center_x
         WindowManager.center_y].
    split; [reflexivity|]. fold l r t b. clearbody l r t b.
    pose proof (Z.div_pos (c2 - c0 - l - r) 2).
    pose proof (Z.div_lt (c2 - c0 - l - r) 2).
    pose proof (Z.div_pos (c3 - c1 - t - b) 2).
    pose proof (Z.div_lt (c3 - c1 - t - b) 2).
    split; split; lia.
Qed.

Lemma window_analysis_centres_in_area_witness :
  exists wm',
    WindowManager.analyze_window_and_calculate_areas
      (window_of (0, 0, 500, 300)) (world0 true)
    = (Return (true, wm'), world0 true)
    /\ WindowManager.effective_game_area wm' = Some (30, 24, 410, 240)
    /\ (30 <= WindowManager.center_x wm' < 30 + 410
        /\ 24 <= WindowManager.center_y wm' < 24 + 240)
    /\ (0 <= WindowManager.center_x wm' < 500
        /\ 0 <= WindowManager.center_y wm' < 300).
Proof.
  apply (window_analysis_centres_in_area 0 0 500 300 (world0 true)); lia.
Defined.


Lemma fraction_85 : (0 <= 85 # 100 <= 1)%Q.
Proof. split; intro H; discriminate H. Qed.

Lemma fraction_80 : (0 <= 80 # 100 <= 1)%Q.
Proof. split; intro H; discriminate H. Qed.

Lemma optimal_capture_size_value (ex ey ew eh : Z) (w : World) :
  0 < ew -> 0 < eh ->
  WindowManager.calculate_optimal_capture_size
    (analysed_window (ex, ey, ew, eh)) w
  = (Return (Z.max (int_of_Q (inject_Z ew * (85 # 100))) 600,
             Z.max (int_of_Q (inject_Z eh * (80 # 100))) 500), w).
Proof.
  intros Hw Hh. unfold WindowManager.calculate_optimal_capture_size; simpl.
  replace (ew =? 0) with false by (symmetry; apply Z.eqb_neq; lia).
  replace (eh =? 0) with false by (symmetry; apply Z.eqb_neq; lia).
  reflexivity.
Qed.

(** Without an effective area [calculate_optimal_capture_size] raises
    [AttributeError]: the default size it reaches for is an attribute of
    [CaptureConfig], not of [WindowConfig].  With an effective area of
    positive sides it returns a size of at least 600 x 500, each side being
    85% (80%) of the area's side when that is larger; so the capture is no
    wider than the area exactly when the area is at least 600 wide, and no
    higher exactly when the area is at least 500 high. *)
Theorem optimal_capture_size_cases (w : World) :
  (forall wm, WindowManager.effective_game_area wm = None ->
      WindowManager.calculate_optimal_capture_size wm w
      = (Raise (Exn AttributeError
                  "type object 'WindowConfig' has no attribute 'DEFAULT_CAPTURE_SIZE'"),
         w))
  /\ (forall ex ey ew eh, 0 < ew -> 0 < eh ->
        exists cw ch,
          WindowManager.calculate_optimal_capture_size
            (analysed_window (ex, ey, ew, eh)) w
          = (Return (cw, ch), w)
          /\ 600 <= cw /\ 500 <= ch
          /\ (cw <= ew <-> 600 <= ew)
          /\ (ch <= eh <-> 500 <= eh)).
Proof.
  split.
  - intros wm H. unfold WindowManager.calculate_optimal_capture_size.
    rewrite H. reflexivity.
  - intros ex ey ew eh Hw Hh. do 2 eexists.
    split; [now apply optimal_capture_size_value|].
    pose proof (int_of_Q_fraction ew (85 # 100) ltac:(lia) fraction_85).
    pose proof (int_of_Q_fraction eh (80 # 100) ltac:(lia) fraction_80).
    repeat split; lia.
Qed.

Lemma optimal_capture_size_cases_witness :
  exists cw ch,
    WindowManager.calculate_optimal_capture_size
      (analysed_window (30, 24, 410, 240)) (world0 true)
    = (Return (cw, ch), world0 true)
    /\ 600 <= cw /\ 500 <= ch
    /\ (cw <= 410 <-> 600 <= 410)
    /\ (ch <= 240 <-> 500 <= 240).
Proof.
  apply (proj2 (optimal_capture_size_cases (world0 true)) 30 24 410 240); lia.
Defined.

(** What [initialize] sets up for an effective area of at least 600 x 500:
    the capture size fits the area, the clamp leaves the capture origin at
    centre minus half the size, and the capture rectangle lies inside the
    area. *)
Theorem initial_capture_is_centred (ex ey ew eh : Z) (w : World) :
  600 <= ew -> 500 <= eh ->
  let wm := analysed_window (ex, ey, ew, eh) in
  exists cw ch,
    WindowManager.calculate_optimal_capture_size wm w = (Return (cw, ch), w)
    /\ ScreenCapture._calculate_capture_coordinates (initial_capture wm (cw, ch))
       = (WindowManager.center_x wm - cw / 2, WindowManager.center_y wm - ch / 2)
    /\ (ex <= WindowManager.center_x wm - cw / 2
        /\ WindowManager.center_x wm - cw / 2 + cw <= ex + ew)
    /\ (ey <= WindowManager.center_y wm - ch / 2
        /\ WindowManager.center_y wm - ch / 2 + ch <= ey + eh).
Proof.
  intros Hw Hh wm. do 2 eexists.
  split; [apply optimal_capture_size_value; lia|].
  pose proof (int_of_Q_fraction ew (85 # 100) ltac:(lia) fraction_85) as Hcw.
  pose proof (int_of_Q_fraction eh (80 # 100) ltac:(lia) fraction_80) as Hch.
  set (cw := Z.max (int_of_Q (inject_Z ew * (85 # 100))) 600).
  set (ch := Z.max (int_of_Q (inject_Z eh * (80 # 100))) 500).
  assert (Hcw' : 600 <= cw <= ew) by (unfold cw; lia).
  assert (Hch' : 500 <= ch <= eh) by (unfold ch; lia).
  clearbody cw ch.
  unfold ScreenCapture._calculate_capture_coordinates, initial_capture, wm,
    analysed_window, utils.safe_clamp; simpl.
  split; [f_equal|split]; Z.to_euclidean_division_equations; lia.
Qed.

Lemma initial_capture_is_centred_witness :
  let wm := analysed_window (115, 86, 1574, 864) in
  exists cw ch,
    WindowManager.calculate_optimal_capture_size wm (world0 true)
    = (Return (cw, ch), world0 true)
    /\ ScreenCapture._calculate_capture_coordinates (initial_capture wm (cw, ch))
       = (WindowManager.center_x wm - cw / 2, WindowManager.center_y wm - ch / 2)
    /\ (115 <= WindowManager.center_x wm - cw / 2
        /\ WindowManager.center_x wm - cw / 2 + cw <= 115 + 1574)
    /\ (86 <= WindowManager.center_y wm - ch / 2
        /\ WindowManager.center_y wm - ch / 2 + ch <= 86 + 864).
Proof.
  apply (initial_capture_is_centred 115 86 1574 864 (world0 true)); lia.
Defined.

(** ** Step sizes *)

Lemma pow2_m1 : (binary64.pow2 (-1) == 1 # 2)%Q. Proof. reflexivity. Qed.

(** The step recommended for a width is at most half the width. *)
Lemma recommended_step_range (effective_width : Z) (factor : Q) :
  0 <= effective_width <= 2 ^ 53 ->
  (0 <= binary64.round factor <= 1 # 2)%Q ->
  0 <= int_of_Q (binary64.mul (binary64.of_Z effective_width)
                              (binary64.round factor))
  /\ (inject_Z (int_of_Q (binary64.mul (binary64.of_Z effective_width)
                                       (binary64.round factor)))
      <= inject_Z effective_width * (1 # 2))%Q.
Proof.
  intros [Z0 Z1] [F0 F1]. unfold binary64.mul, binary64.of_Z.
  assert (E : (binary64.round (inject_Z effective_width)
               == inject_Z effective_width)%Q) by (apply round_Z; lia).
  assert (Hz : (0 <= inject_Z effective_width)%Q)
    by (change 0%Q with (inject_Z 0); now rewrite <- Zle_Qle).
  set (c := binary64.round (inject_Z effective_width)) in *.
  set (f := binary64.round factor) in *.
  assert (P0 : (0 <= c * f)%Q) by nra.
  assert (P1 : (c * f <= inject_Z effective_width * binary64.pow2 (-1))%Q)
    by (rewrite pow2_m1; nra).
  assert (H : (binary64.round (inject_Z effective_width * binary64.pow2 (-1))
               == inject_Z effective_width * binary64.pow2 (-1))%Q)
    by (apply (round_exact _ effective_width (-1));
        [lia|discriminate|reflexivity]).
  pose proof (round_le _ _ P1) as R. rewrite H, pow2_m1 in R.
  pose proof (round_nonneg _ P0) as R0.
  destruct (int_of_Q_nonneg _ R0) as [I0 I1].
  split; [exact I0|]. lra.
Qed.

Lemma factor_35 : (0 <= binary64.round (35 # 100) <= 1 # 2)%Q.
Proof. split; vm_compute; intro H; discriminate H. Qed.
Lemma factor_30 : (0 <= binary64.round (30 # 100) <= 1 # 2)%Q.
Proof. split; vm_compute; intro H; discriminate H. Qed.
Lemma factor_25 : (0 <= binary64.round (25 # 100) <= 1 # 2)%Q.
Proof. split; vm_compute; intro H; discriminate H. Qed.

Lemma percent_15 : (0 <= inject_Z 15 <= 100)%Q.
Proof. split; intro H; discriminate H. Qed.

(** After the screen-size optimisation, for an effective area of positive
    sides (up to [2 ** 53]) and the capture size chosen for it: the
    horizontal step is at least 400 and at most the capture width, the
    vertical step is at least 150 and at most the capture height (so
    neighbouring tiles do not leave a gap), the column limit is 75, 100
    or 150, and the row limit is untouched.  The steps are those of the
    code's binary64 arithmetic: for an effective width of 2580 the step is
    902, where exact arithmetic would give 903. *)
Theorem optimized_steps_leave_no_gap
    (self : MapScanner.t) (ex ey ew eh : Z) (w : World) :
  0 < ew <= 2 ^ 53 -> 0 < eh <= 2 ^ 53 ->
  exists cw ch self',
    WindowManager.calculate_optimal_capture_size
      (analysed_window (ex, ey, ew, eh)) w = (Return (cw, ch), w)
    /\ _optimize_for_screen_size self (Some (ex, ey, ew, eh)) (cw, ch) w
       = (Return self', w)
    /\ 400 <= MapScanner.step_size self' <= cw
    /\ 150 <= MapScanner.vertical_step_size self' <= ch
    /\ In (MapScanner.max_columns_per_row self') [75; 100; 150]
    /\ MapScanner.max_rows_total self' = MapScanner.max_rows_total self
    /\ (ew = 2580 -> MapScanner.step_size self' = 902).
Proof.
  intros [Hw Hw'] [Hh Hh'].
  set (cw := Z.max (int_of_Q (inject_Z ew * (85 # 100))) 600).
  set (ch := Z.max (int_of_Q (inject_Z eh * (80 # 100))) 500).
  assert (Hq : (0 < inject_Z ew)%Q)
    by (change 0%Q with (inject_Z 0); now rewrite <- Zlt_Qlt).
  assert (Hcw : forall z, (inject_Z z <= inject_Z ew * (1 # 2))%Q ->
                          z <= int_of_Q (inject_Z ew * (85 # 100))).
  { intros z Hz.
    assert (F : int_of_Q (inject_Z ew * (85 # 100))
                = Qfloor (inject_Z ew * (85 # 100))).
    { destruct (inject_Z ew * (85 # 100))%Q as [n d] eqn:E.
      assert (0 <= n # d)%Q by (rewrite <- E; nra).
      unfold int_of_Q, Qfloor. cbn [Qnum Qden].
      apply Z.quot_div_nonneg; [|lia].
      unfold Qle in H. cbn in H. lia. }
    rewrite F, <- (Qfloor_Z z). apply Qfloor_resp_le. nra. }
  destruct (recommended_step_range ew (35 # 100) ltac:(lia) factor_35)
    as [A35 B35].
  destruct (recommended_step_range ew (30 # 100) ltac:(lia) factor_30)
    as [A30 B30].
  destruct (recommended_step_range ew (25 # 100) ltac:(lia) factor_25)
    as [A25 B25].
  apply Hcw in B35, B30, B25.
  assert (Hch : 500 <= ch <= 2 ^ 53).
  { split; [unfold ch; lia|].
    pose proof (int_of_Q_fraction eh (80 # 100) ltac:(lia) fraction_80).
    unfold ch. lia. }
  pose proof (overlap_step_range ch (inject_Z 15) ltac:(lia) percent_15)
    as Hv.
  exists cw, ch.
  unfold _optimize_for_screen_size.
  change (attr_float config.CaptureConfig "TARGET_OVERLAP_PERCENT")
    with (@lift Q (Return (inject_Z 15))).
  unfold bind, lift, ret. cbn [snd].
  destruct (1600 <=? ew) eqn:E16; [|destruct (1200 <=? ew) eqn:E12];
    (eexists;
     split; [apply optimal_capture_size_value; assumption|];
     split; [reflexivity|];
     cbn [MapScanner.step_size MapScanner.vertical_step_size
          MapScanner.max_columns_per_row MapScanner.max_rows_total];
     split; [unfold cw; lia|];
     split; [lia|];
     split; [simpl; tauto|];
     split; [reflexivity|];
     intros ->; first [discriminate|vm_compute; reflexivity]).
Qed.

Lemma optimized_steps_leave_no_gap_witness :
  exists cw ch self',
    WindowManager.calculate_optimal_capture_size
      (analysed_window (115, 86, 2580, 1240)) (world0 true)
    = (Return (cw, ch), world0 true)
    /\ _optimize_for_screen_size (demo_scanner (calm_env 1 "" 0 0))
         (Some (115, 86, 2580, 1240)) (cw, ch) (world0 true)
       = (Return self', world0 true)
    /\ 400 <= MapScanner.step_size self' <= cw
    /\ 150 <= MapScanner.vertical_step_size self' <= ch
    /\ In (MapScanner.max_columns_per_row self') [75; 100; 150]
    /\ MapScanner.max_rows_total self'
       = MapScanner.max_rows_total (demo_scanner (calm_env 1 "" 0 0))
    /\ (2580 = 2580 -> MapScanner.step_size self' = 902).
Proof.
  apply (optimized_steps_leave_no_gap (demo_scanner (calm_env 1 "" 0 0))
           115 86 2580 1240 (world0 true));
    (split; [lia|apply Z.leb_le; reflexivity]).
Defined.


(* ================================================================== *)
(** * Further results on the effectful code *)

(** ** Invariants kept by the primitive steps *)

Section Preserve.
Variable I : World -> Prop.

Lemma pres_ret {A} (a : A) : preserves I (ret a).
Proof. intros w H. exact H. Qed.

Lemma pres_raise {A} (e : exn) : preserves I (@raise A e).
Proof. intros w H. exact H. Qed.

Lemma pres_lift {A} (o : outcome A) : preserves I (lift o).
Proof. intros w H. exact H. Qed.

Lemma pres_extcall {A} (r : ext A) : preserves I (extcall r).
Proof. destruct r; intros w H; exact H. Qed.

Lemma pres_get_running : preserves I get_running.
Proof. intros w H. exact H. Qed.

Lemma pres_bind {A B} (m : M A) (k : A -> M B) :
  preserves I m -> (forall a, preserves I (k a)) -> preserves I (bind m k).
Proof.
  intros Hm Hk w H. unfold bind. specialize (Hm w H).
  destruct (m w) as [[a|e] w1]; simpl in *; [now apply Hk | exact Hm].
Qed.

Lemma pres_try {A} (m : M A) (h : exn -> M A) :
  preserves I m -> (forall e, preserves I (h e)) ->
  preserves I (try_except m h).
Proof.
  intros Hm Hh w H. unfold try_except. specialize (Hm w H).
  destruct (m w) as [[a|e] w1]; simpl in *; [exact Hm | now apply Hh].
Qed.

Lemma pres_reraise {A} (h : exn -> M A) (e : exn) :
  preserves I (h e) -> preserves I (reraise_SafetyExit h e).
Proof.
  unfold reraise_SafetyExit.
  destruct (is_SafetyExit e); [intros _; apply pres_raise | trivial].
Qed.

Lemma pres_catching {A} (m : M A) :
  preserves I m -> preserves I (catching m).
Proof.
  intros Hm. unfold catching. apply pres_try.
  - apply pres_bind; [exact Hm | intros a; apply pres_ret].
  - intros e. apply pres_ret.
Qed.

Hypothesis Iobs : observable I.

Lemma pres_tick : preserves I tick.
Proof. intros w H. apply (Iobs w); [reflexivity | exact H]. Qed.

Lemma pres_act (a : Action) : preserves I (act a).
Proof. intros w H. apply (Iobs w); [reflexivity | exact H]. Qed.

Lemma pres_log_error (msg : string) : preserves I (logger ERROR msg).
Proof. intros w H. apply (Iobs w); [reflexivity | exact H]. Qed.

Lemma pres_log_warning (msg : string) : preserves I (logger WARNING msg).
Proof. intros w H. apply (Iobs w); [reflexivity | exact H]. Qed.

End Preserve.

Ltac pres_step :=
  first
    [ apply pres_ret | apply pres_raise | apply pres_lift | apply pres_extcall
    | apply pres_get_running
    | apply pres_tick; assumption | apply pres_act; assumption
    | apply pres_log_error; assumption | apply pres_log_warning; assumption
    | apply pres_bind; [|intros ?]
    | apply pres_try; [|intros ?]
    | apply pres_reraise
    | progress cbv zeta
    | match goal with
      | |- preserves _ (if ?b then _ else _) => destruct b
      | |- preserves _ (match ?x with _ => _ end) => destruct x
      end ].

Ltac pres := repeat pres_step.

Section PreservedByComponents.
Variable env : Env.
Variable I : World -> Prop.
Hypothesis Iobs : observable I.

Lemma pres_add_variance (v : Q) (r : Q * Q) : preserves I (add_variance env v r).
Proof. unfold add_variance. pres. Qed.

Lemma pres_moveTo (x y : Z) (d : Q) :
  preserves I (MouseController.moveTo env x y d).
Proof. unfold MouseController.moveTo. pres. Qed.

Lemma pres_safe_move_mouse (mc : MouseController.t) (x y : Z) (d : Q)
      (f : bool) :
  preserves I (MouseController.safe_move_mouse env mc x y d f).
Proof.
  unfold MouseController.safe_move_mouse.
  repeat first [ apply pres_moveTo | pres_step ].
Qed.

Lemma pres_zoom_control (c : Z) (f : bool) :
  preserves I (MouseController.zoom_control env c f).
Proof. unfold MouseController.zoom_control, attr_float. pres. Qed.

Lemma pres_safe_drag (mc : MouseController.t) (dx dy : Z) (d : Q) (f : bool) :
  preserves I (MouseController.safe_drag env mc dx dy d f).
Proof.
  unfold MouseController.safe_drag, MouseController._ensure_centered_start,
    MouseController._recenter_mouse, attr_range, attr_float.
  repeat first [ apply pres_add_variance | apply pres_moveTo | pres_step ].
Qed.

Lemma pres_capture_screen (sc : ScreenCapture.t) (f : bool) :
  preserves I (ScreenCapture.capture_screen env sc f).
Proof. unfold ScreenCapture.capture_screen. pres. Qed.

Lemma pres_detect_movement (b a : option Frame) :
  preserves I (ScreenCapture.detect_movement env b a).
Proof. unfold ScreenCapture.detect_movement, attr_float. pres. Qed.

Lemma pres_capture_and_detect_movement (sc : ScreenCapture.t)
      (mc : MouseController.t) (dx dy : Z) (d : Q) (f : bool) :
  preserves I (ScreenCapture.capture_and_detect_movement env sc mc dx dy d f).
Proof.
  unfold ScreenCapture.capture_and_detect_movement.
  repeat first [ apply pres_capture_screen | apply pres_safe_drag
               | apply pres_detect_movement | pres_step ].
Qed.

End PreservedByComponents.

Lemma same_view_observable (v : bool * Z * list string) :
  observable (fun w => view w = v).
Proof. intros w w' E H. now rewrite <- E. Qed.

(** ** Movement probes *)

Lemma for_bind_false {A} (m : M A) (k : A -> M (bool * string)) :
  (forall a, false_or_raises (k a)) -> false_or_raises (bind m k).
Proof.
  intros Hk w. unfold bind.
  destruct (m w) as [[a|e] w1]; [apply Hk | exact I].
Qed.

Lemma for_ret_false (info : string) : false_or_raises (ret (false, info)).
Proof. intros w. reflexivity. Qed.

Lemma try_reports_no_movement (m : M (bool * string)) (prefix : string) :
  false_or_raises m ->
  reports_no_movement
    (try_except m (fun e => logger ERROR (prefix ++ str_of e) ;;
                            ret (false, str_of e))).
Proof.
  intros Hm w. unfold try_except. specialize (Hm w).
  destruct (m w) as [[[moved info]|e] w1]; simpl in *.
  - subst moved. now exists info.
  - now exists (str_of e).
Qed.

Lemma detect_movement_false_or_raises (env : Env) (b a : option Frame) :
  false_or_raises (ScreenCapture.detect_movement env b a).
Proof.
  intros w. unfold ScreenCapture.detect_movement, try_except.
  destruct b as [b|], a as [a|]; try reflexivity.
  unfold bind at 1, extcall.
  destruct (cv2_cvtColor env b) as [gb|msg]; [|reflexivity].
  cbn [ret]. unfold bind at 1.
  destruct (cv2_cvtColor env a) as [ga|msg]; [|reflexivity].
  cbn [ret]. unfold bind at 1.
  destruct (cv2_matchTemplate env gb ga) as [c|msg]; reflexivity.
Qed.

Lemma capture_and_detect_movement_reports_none
      (env : Env) (sc : ScreenCapture.t) (mc : MouseController.t)
      (dx dy : Z) (d : Q) (f : bool) :
  reports_no_movement
    (ScreenCapture.capture_and_detect_movement env sc mc dx dy d f).
Proof.
  unfold ScreenCapture.capture_and_detect_movement.
  apply try_reports_no_movement.
  apply for_bind_false. intros [img|]; [|apply for_ret_false].
  apply for_bind_false. intros [|]; cbn [negb]; [|apply for_ret_false].
  apply for_bind_false. intros [img2|]; [|apply for_ret_false].
  apply detect_movement_false_or_raises.
Qed.

(** [capture_and_detect_movement] never raises and, for every pair of
    screens it may see, answers "no movement"; it changes neither the
    running flag, nor the stored zoom level, nor the INFO records of the
    log. *)
Theorem movement_probe_always_negative
    (env : Env) (sc : ScreenCapture.t) (mc : MouseController.t)
    (dx dy : Z) (duration : Q) (running_flag : bool) (w : World) :
  exists info w',
    ScreenCapture.capture_and_detect_movement env sc mc dx dy duration
      running_flag w = (Return (false, info), w')
    /\ view w' = view w.
Proof.
  destruct (capture_and_detect_movement_reports_none env sc mc dx dy duration
              running_flag w) as [info E].
  pose proof (pres_capture_and_detect_movement env (fun w' => view w' = view w)
                (same_view_observable (view w)) sc mc dx dy duration
                running_flag w eq_refl) as Hv.
  destruct (ScreenCapture.capture_and_detect_movement env sc mc dx dy duration
              running_flag w) as [o w'].
  simpl in E, Hv. subst o. now exists info, w'.
Qed.


(** ** What is raised, and what is returned *)

Lemma nse_ret {A} (a : A) : no_SafetyExit (ret a).
Proof. intros w. reflexivity. Qed.

Lemma nse_tick : no_SafetyExit tick.
Proof. intros w. reflexivity. Qed.

Lemma nse_act (a : Action) : no_SafetyExit (act a).
Proof. intros w. reflexivity. Qed.

Lemma nse_logger (l : Level) (msg : string) : no_SafetyExit (logger l msg).
Proof. intros w. reflexivity. Qed.

Lemma nse_extcall {A} (r : ext A) : no_SafetyExit (extcall r).
Proof. intros w. destruct r; reflexivity. Qed.

Lemma nse_lift {A} (o : outcome A) :
  is_SafetyExit_raised o = false -> no_SafetyExit (lift o).
Proof. intros H w. exact H. Qed.

Lemma nse_bind {A B} (m : M A) (k : A -> M B) :
  no_SafetyExit m -> (forall a, no_SafetyExit (k a)) -> no_SafetyExit (bind m k).
Proof.
  intros Hm Hk w. unfold bind. specialize (Hm w).
  destruct (m w) as [[a|e] w1]; [apply Hk | exact Hm].
Qed.

Ltac nse_step :=
  first
    [ apply nse_ret | apply nse_tick | apply nse_act | apply nse_logger
    | apply nse_extcall
    | apply nse_lift; reflexivity
    | apply nse_bind; [|intros ?]
    | progress cbv zeta
    | match goal with
      | |- no_SafetyExit (if ?b then _ else _) => destruct b
      | |- no_SafetyExit (match ?x with _ => _ end) => destruct x
      end ].

Lemma returns_ret {A} (a : A) : returns (ret a).
Proof. intros w. now exists a. Qed.

Lemma returns_bind {A B} (m : M A) (k : A -> M B) :
  returns m -> (forall a, returns (k a)) -> returns (bind m k).
Proof.
  intros Hm Hk w. unfold bind. destruct (Hm w) as [a E].
  destruct (m w) as [[a'|e] w1]; simpl in E; [apply Hk | discriminate E].
Qed.

Lemma returns_logger (l : Level) (msg : string) : returns (logger l msg).
Proof. intros w. now exists tt. Qed.

Lemma returns_catching {A} (m : M A) : returns (catching m).
Proof.
  intros w. unfold catching, try_except, bind.
  destruct (m w) as [[a|e] w1]; simpl; eauto.
Qed.

Lemma returns_guarded {A} (m : M A) (h : exn -> M A) :
  no_SafetyExit m -> (forall e, returns (h e)) ->
  returns (try_except m (reraise_SafetyExit h)).
Proof.
  intros Hm Hh w. unfold try_except. specialize (Hm w).
  destruct (m w) as [[a|e] w1]; simpl in *; [now exists a|].
  unfold reraise_SafetyExit. rewrite Hm. apply Hh.
Qed.

Lemma returns_log_false (msg : string) :
  returns (logger ERROR msg ;; ret false).
Proof. intros w. now exists false. Qed.

Section MouseReturns.
Variable env : Env.

Lemma nse_add_variance (v : Q) (r : Q * Q) : no_SafetyExit (add_variance env v r).
Proof. unfold add_variance. repeat nse_step. Qed.

Lemma nse_moveTo (x y : Z) (d : Q) :
  no_SafetyExit (MouseController.moveTo env x y d).
Proof. unfold MouseController.moveTo. repeat nse_step. Qed.

Lemma returns_safe_move_mouse (mc : MouseController.t) (x y : Z) (d : Q) :
  returns (MouseController.safe_move_mouse env mc x y d true).
Proof.
  unfold MouseController.safe_move_mouse. cbn [negb].
  apply returns_guarded; [|intros e; apply returns_log_false].
  repeat first [ apply nse_moveTo | nse_step ].
Qed.

Lemma returns_zoom_control (c : Z) :
  returns (MouseController.zoom_control env c true).
Proof.
  unfold MouseController.zoom_control, attr_float. cbn [negb].
  apply returns_guarded; [|intros e; apply returns_log_false].
  repeat nse_step.
Qed.

Lemma returns_safe_drag (mc : MouseController.t) (dx dy : Z) (d : Q) :
  returns (MouseController.safe_drag env mc dx dy d true).
Proof.
  unfold MouseController.safe_drag, MouseController._ensure_centered_start,
    MouseController._recenter_mouse, attr_range, attr_float. cbn [negb].
  apply returns_guarded; [|intros e; apply returns_log_false].
  repeat first [ apply nse_add_variance | apply nse_moveTo | nse_step ].
Qed.

End MouseReturns.

(** The three mouse operations raise [SafetyExit] when their running flag
    is false, before any call to the mouse, leaving the world as it is;
    with the flag true they never raise: a failure of the mouse library
    becomes the result [False].  [zoom_control] returns [True] exactly when
    the scroll call succeeds. *)
Theorem mouse_operations_raise_only_when_stopped
    (env : Env) (mc : MouseController.t) (x y dx dy clicks : Z) (d : Q)
    (w : World) :
  MouseController.safe_move_mouse env mc x y d false w
  = (Raise (Exn SafetyExit "Mouse movement stopped"), w)
  /\ MouseController.safe_drag env mc dx dy d false w
     = (Raise (Exn SafetyExit "Drag operation stopped"), w)
  /\ MouseController.zoom_control env clicks false w
     = (Raise (Exn SafetyExit "Zoom operation stopped"), w)
  /\ (exists b, fst (MouseController.safe_move_mouse env mc x y d true w)
                = Return b)
  /\ (exists b, fst (MouseController.safe_drag env mc dx dy d true w)
                = Return b)
  /\ fst (MouseController.zoom_control env clicks true w)
     = Return (is_ok (pyautogui_scroll env (clock w) clicks)).
Proof.
  split; [reflexivity|]. split; [reflexivity|]. split; [reflexivity|].
  split; [apply returns_safe_move_mouse|].
  split; [apply returns_safe_drag|].
  unfold MouseController.zoom_control, try_except, bind, tick, act, extcall.
  cbn [negb fst]. destruct (pyautogui_scroll env (clock w) clicks); reflexivity.
Qed.

(** ** Exceptions leaving the orchestrator *)

(** [calibrate_zoom] lets no exception out but [CalibrationError]: every
    exception raised inside, [SafetyExit] included, is re-raised as
    [CalibrationError] with the message prefixed; with the running flag
    false, the cancellation raised by the first mouse move arrives as a
    [CalibrationError]. *)
Theorem calibration_wraps_every_exception
    (env : Env) (self : MapScanner.t) (w : World)
    (z : Z) (c : nat) (a : list Action) (l : list (Level * string)) :
  ((exists b, fst (MapScanner.calibrate_zoom env self w) = Return b)
   \/ (exists msg, fst (MapScanner.calibrate_zoom env self w)
                   = Raise (Exn CalibrationError
                              ("Zoom calibration failed: " ++ msg))))
  /\ fst (MapScanner.calibrate_zoom env self (stopped_world z c a l))
     = Raise (Exn CalibrationError
                "Zoom calibration failed: Mouse movement stopped").
Proof.
  split; [|reflexivity].
  unfold MapScanner.calibrate_zoom, try_except.
  match goal with
  | |- context [match ?body w with _ => _ end] =>
      destruct (body w) as [[b|e] w1]
  end.
  - left. now exists b.
  - right. now exists (str_of e).
Qed.

Lemma returns_scan_failed (found : list TargetMatch) (e : exn) :
  returns (MapScanner.scan_failed found e).
Proof. intros w. now exists found. Qed.

Lemma returns_scan_rows (env : Env) (self : MapScanner.t)
      (target_names : list string) (max_rows scan_count : Z)
      (rows : list Z) :
  forall found,
    returns (MapScanner.scan_rows env self rows target_names max_rows
               scan_count found).
Proof.
  induction rows as [|row rest IH]; intros found; cbn [MapScanner.scan_rows].
  - apply returns_ret.
  - apply returns_bind; [apply returns_catching|].
    intros [e|got]; [apply returns_scan_failed|]. cbv zeta.
    destruct (row <? max_rows - 1); [|apply IH].
    apply returns_bind; [apply returns_catching|].
    intros [e|[moved info]]; [apply returns_scan_failed|].
    destruct (negb moved); [apply returns_ret | apply IH].
Qed.

(** [perform_scan] never raises, whatever its screen capture component and
    the outside world do: every exception, [SafetyExit] included, ends the
    scan with a normal return of the targets found so far. *)
Theorem perform_scan_never_raises
    (env : Env) (self : MapScanner.t) (target_names : list string)
    (max_rows : Z) (w : World) :
  exists found,
    fst (MapScanner.perform_scan env self target_names max_rows w)
    = Return found.
Proof.
  revert w. change (returns (MapScanner.perform_scan env self target_names
                               max_rows)).
  unfold MapScanner.perform_scan. cbv zeta.
  apply returns_bind; [apply returns_catching|].
  intros [e|[|]];
    [apply returns_scan_failed | apply returns_scan_rows | apply returns_ret].
Qed.


(** ** The row scan *)

Lemma bind_ext {A B} (m : M A) (k k' : A -> M B) (w : World) :
  (forall a w', k a w' = k' a w') -> bind m k w = bind m k' w.
Proof.
  intros H. unfold bind.
  destruct (m w) as [[a|e] w1]; [apply H | reflexivity].
Qed.

Ltac to_loop_exit :=
  cbn [Nat.add MapScanner._scan_row_loop];
  repeat (apply bind_ext; intros ? ?);
  match goal with
  | |- (let (_, _) := ?p in _) _ = _ =>
      let moved := fresh "moved" in
      let info := fresh "info" in
      destruct p as [moved info]; destruct (negb moved); [reflexivity|]
  end.

Lemma scan_row_loop_fuel (env : Env) (self : MapScanner.t) (fuel : nat) :
  forall (extra : nat) (row : Z) (target_names : list string)
         (step_dx col scan_count : Z) (found : list TargetMatch) (w : World),
    MapScanner.max_columns_per_row self - col <= Z.of_nat fuel ->
    MapScanner._scan_row_loop env self (fuel + extra) row target_names step_dx
      col scan_count found w
    = MapScanner._scan_row_loop env self fuel row target_names step_dx
        col scan_count found w.
Proof.
  induction fuel as [|fuel IH]; intros extra row target_names step_dx col
    scan_count found w Hfuel.
  - destruct extra as [|extra]; [reflexivity|].
    to_loop_exit.
    destruct (col + 1 >? MapScanner.max_columns_per_row self) eqn:E;
      [reflexivity|].
    rewrite Z.gtb_ltb in E. apply Z.ltb_ge in E. simpl in Hfuel. lia.
  - to_loop_exit.
    destruct (col + 1 >? MapScanner.max_columns_per_row self);
      [reflexivity|].
    apply IH. lia.
Qed.

(** The [while True] loop of [_scan_row] always ends through one of its
    [break]s within [max_columns_per_row] columns, whatever the screen
    capture reports: allowing the loop any number of further iterations
    changes neither its result nor the world it leaves. *)
Theorem scan_row_ends_within_column_limit
    (env : Env) (self : MapScanner.t) (row : Z) (target_names : list string)
    (scan_count : Z) (extra : nat) (w : World) :
  let step_dx := if row mod 2 =? 0 then MapScanner.step_size self
                 else - MapScanner.step_size self in
  MapScanner._scan_row_loop env self
    (Z.to_nat (MapScanner.max_columns_per_row self - 1) + extra)
    row target_names step_dx 1 scan_count [] w
  = MapScanner._scan_row env self row target_names scan_count w.
Proof.
  intros step_dx. unfold MapScanner._scan_row. apply scan_row_loop_fuel. lia.
Qed.

(** ** The package's own screen capture inside the orchestrator *)

Lemma probe_negative (env : Env) (sc : ScreenCapture.t) (mc : MouseController.t)
      (dx dy : Z) (d : Q) (f : bool) (w : World) :
  exists info w',
    ScreenCapture.capture_and_detect_movement env sc mc dx dy d f w
    = (Return (false, info), w') /\ view w' = view w.
Proof.
  destruct (capture_and_detect_movement_reports_none env sc mc dx dy d f w)
    as [info E].
  pose proof (pres_capture_and_detect_movement env (fun w' => view w' = view w)
                (same_view_observable (view w)) sc mc dx dy d f w eq_refl)
    as Hv.
  destruct (ScreenCapture.capture_and_detect_movement env sc mc dx dy d f w)
    as [o w'].
  simpl in E, Hv. subst o. now exists info, w'.
Qed.

Lemma safe_move_mouse_succeeds (env : Env) (mc : MouseController.t)
      (x y : Z) (d : Q) (w : World) :
  (forall t x y, pyautogui_moveTo env t x y = Ok tt) ->
  exists w', MouseController.safe_move_mouse env mc x y d true w
             = (Return true, w') /\ view w' = view w.
Proof.
  intros Hmove. unfold MouseController.safe_move_mouse, try_except.
  cbn [negb].
  destruct (MouseController._calculate_safe_coordinates env mc x y 50)
    as [sx sy].
  unfold MouseController.moveTo, bind, tick, act, extcall, ret.
  rewrite Hmove. eexists. split; reflexivity.
Qed.

Section RealCorner.
Variable env : Env.
Variable sc : ScreenCapture.t.
Variable self : MapScanner.t.
Hypothesis real : MapScanner.screen_capture self = ScreenCapture_obj env sc.
Hypothesis window_stays : forall t, window_is_valid env t = true.

Lemma view_running (w w' : World) : view w' = view w -> running w' = running w.
Proof. unfold view. congruence. Qed.
Lemma view_info (w w' : World) : view w' = view w -> info_records w' = info_records w.
Proof. unfold view. congruence. Qed.

Lemma first_attempt_hits_corner (w : World) :
  running w = true ->
  exists w', MapScanner.corner_attempt env self 450 0 w = (Return (Some true), w')
    /\ view w' = (true, optimal_zoom_level w,
                  "✓ TOP-LEFT CORNER REACHED" :: MapScanner.attempt_message 0 false
                    :: info_records w).
Proof.
  intros Hr. unfold MapScanner.corner_attempt, MapScanner._check_safety_exit.
  rewrite real. cbn [sc_capture_and_detect_movement ScreenCapture_obj].
  unfold bind at 1. unfold bind at 1. unfold get_running at 1. rewrite Hr.
  cbn [negb]. unfold bind at 1. unfold tick at 1. rewrite window_stays.
  cbn [negb ret]. unfold bind at 1. unfold get_running at 1. cbn [running].
  unfold bind at 1.
  match goal with
  | |- context [ScreenCapture.capture_and_detect_movement ?e ?s ?m ?dx ?dy ?d ?f ?w0] =>
      destruct (probe_negative e s m dx dy d f w0) as (i1 & w1 & E1 & V1)
  end.
  rewrite E1. change ((0 mod 10 =? 0) || negb false) with true. cbv iota.
  unfold bind at 1. unfold logger at 1. cbn [negb]. cbv beta iota.
  unfold get_running at 1. cbv beta iota. cbn [running]. unfold bind.
  match goal with
  | |- context [ScreenCapture.capture_and_detect_movement ?e ?s ?m ?dx ?dy ?d ?f ?w0] =>
      destruct (probe_negative e s m dx dy d f w0) as (i2 & w2 & E2 & V2)
  end.
  rewrite E2. cbn [negb]. unfold logger, ret.
  eexists. split; [reflexivity|].
  unfold view in *. cbn [running optimal_zoom_level log info_records] in *.
  unfold info_records in *. cbn [log flat_map fst snd app] in *.
  injection V1 as R1 Z1 L1. injection V2 as R2 Z2 L2.
  rewrite R2, R1, Z2, Z1, L2, L1, Hr. reflexivity.
Qed.
Lemma ens_ret {A} (P : A -> Prop) (a : A) : P a -> ensures P (ret a).
Proof. intros H w. exact H. Qed.

Lemma ens_bind_any {A B} (P : B -> Prop) (m : M A) (k : A -> M B) :
  (forall a, ensures P (k a)) -> ensures P (bind m k).
Proof.
  intros Hk w. unfold bind. destruct (m w) as [[a|e] w1]; [apply Hk | exact I].
Qed.

Lemma ens_bind {A B} (Q : A -> Prop) (P : B -> Prop) (m : M A) (k : A -> M B) :
  ensures Q m -> (forall a, Q a -> ensures P (k a)) -> ensures P (bind m k).
Proof.
  intros Hm Hk w. unfold bind. specialize (Hm w).
  destruct (m w) as [[a|e] w1]; [now apply Hk | exact I].
Qed.

Lemma ens_catching {A} (P : A -> Prop) (m : M A) :
  ensures P m ->
  ensures (fun r => match r with inr a => P a | inl _ => True end) (catching m).
Proof.
  intros Hm w. unfold catching, try_except, bind. specialize (Hm w).
  destruct (m w) as [[a|e] w1]; simpl in *; [exact Hm | exact I].
Qed.

Lemma ens_probe (mc : MouseController.t) (dx dy : Z) (d : Q) (f : bool) :
  ensures (fun r => fst r = false)
    (sc_capture_and_detect_movement (MapScanner.screen_capture self) mc dx dy d f).
Proof.
  rewrite real. cbn [sc_capture_and_detect_movement ScreenCapture_obj].
  intros w.
  destruct (capture_and_detect_movement_reports_none env sc mc dx dy d f w)
    as [info E].
  rewrite E. reflexivity.
Qed.

Lemma ens_search (image : option Frame) (target_names : list string)
      (found : list TargetMatch) (row col scan_count : Z) :
  found = [] ->
  ensures (fun l : list TargetMatch => (List.length l <= 1)%nat)
    ('(hit, target_info) <- MapScanner.search_for_targets env image target_names ;;
     match hit, target_info with
     | true, Some target_info =>
         ret (found ++
              [ {| name := name target_info;
                   detected_text := detected_text target_info;
                   matched_word := matched_word target_info;
                   match_type := match_type target_info;
                   confidence := confidence target_info;
                   ocr_strategy := ocr_strategy target_info;
                   scan_position :=
                     Some ("Row " ++ Z_to_string (row + 1) ++ ", Col "
                           ++ Z_to_string col)%string;
                   scan_count := Some scan_count |} ])%list
     | _, _ => ret found
     end).
Proof.
  intros ->. apply ens_bind_any. intros [[|] [ti|]]; apply ens_ret; simpl; lia.
Qed.

Lemma scan_row_one_tile (fuel : nat) (row : Z) (target_names : list string)
      (step_dx col scan_count : Z) :
  ensures (fun l : list TargetMatch => (List.length l <= 1)%nat)
    (MapScanner._scan_row_loop env self fuel row target_names step_dx col
       scan_count []).
Proof.
  destruct fuel; cbn [MapScanner._scan_row_loop];
    (apply ens_bind_any; intros _;
     apply ens_bind_any; intros running;
     apply ens_bind_any; intros image;
     apply (ens_bind (fun l : list TargetMatch => (List.length l <= 1)%nat));
     [ destruct image; [now apply ens_search | apply ens_ret; simpl; lia]
     | intros found Hfound;
       apply ens_bind_any; intros delay;
       apply ens_bind_any; intros running';
       apply (ens_bind (fun r : bool * string => fst r = false));
       [ apply ens_probe
       | intros [moved info] Hm; simpl in Hm; subst moved; cbn [negb];
         now apply ens_ret ] ]).
Qed.

Lemma range_pos (n : Z) :
  0 < n -> range n = 0 :: map Z.of_nat (seq 1 (Z.to_nat n - 1)).
Proof.
  intros H. unfold range. destruct (Z.to_nat n) as [|k] eqn:E; [lia|].
  simpl. now rewrite Nat.sub_0_r.
Qed.

Lemma ens_scan_failed (found : list TargetMatch) (e : exn) :
  (List.length found <= 1)%nat ->
  ensures (fun l : list TargetMatch => (List.length l <= 1)%nat)
    (MapScanner.scan_failed found e).
Proof. intros H w. exact H. Qed.

Lemma scan_rows_one_tile (target_names : list string) (max_rows scan_count n : Z) :
  n <= max_rows ->
  ensures (fun l : list TargetMatch => (List.length l <= 1)%nat)
    (MapScanner.scan_rows env self (range n) target_names max_rows
       scan_count []).
Proof.
  intros Hn. destruct (Z_lt_le_dec 0 n) as [Hpos|Hneg].
  2:{ unfold range. replace (Z.to_nat n) with 0%nat by lia.
      apply ens_ret. simpl. lia. }
  rewrite (range_pos n Hpos). cbn [MapScanner.scan_rows].
  apply (ens_bind (fun r : exn + list TargetMatch =>
                     match r with
                     | inr l => (List.length l <= 1)%nat
                     | inl _ => True
                     end)).
  { apply ens_catching. apply ens_bind_any. intros _.
    unfold MapScanner._scan_row. apply scan_row_one_tile. }
  intros [e|got] Hgot; [apply ens_scan_failed; simpl; lia|].
  cbv zeta. cbn [app].
  destruct (0 <? max_rows - 1) eqn:E.
  - apply (ens_bind (fun r : exn + bool * string =>
                       match r with
                       | inr p => fst p = false
                       | inl _ => True
                       end)).
    { apply ens_catching. apply ens_bind_any. intros delay.
      apply ens_bind_any. intros running. apply ens_probe. }
    intros [e|[moved info]] Hm; [now apply ens_scan_failed|].
    simpl in Hm. subst moved. cbn [negb]. now apply ens_ret.
  - apply Z.ltb_ge in E.
    replace (Z.to_nat n - 1)%nat with 0%nat by lia.
    cbn [seq map MapScanner.scan_rows]. now apply ens_ret.
Qed.
End RealCorner.

(** With the package's own [ScreenCapture] as screen capture component,
    the corner search ends in its first attempt, whatever the screen shows:
    when the scanner is running, the window stays valid and the first mouse
    move succeeds, it returns success and the INFO records it writes are
    the two opening lines, the line of attempt 1 with CORNER HIT, and the
    line that the corner is reached, as the code writes them. *)
Theorem corner_search_with_own_capture
    (env : Env) (sc : ScreenCapture.t) (self : MapScanner.t) (w : World) :
  MapScanner.screen_capture self = ScreenCapture_obj env sc ->
  running w = true ->
  (forall t, window_is_valid env t = true) ->
  (forall t x y, pyautogui_moveTo env t x y = Ok tt) ->
  exists w',
    MapScanner.find_top_left_corner env self w = (Return true, w')
    /\ view w' = (true, optimal_zoom_level w,
                  ["✓ TOP-LEFT CORNER REACHED"; MapScanner.attempt_message 0 false;
                   "Moving toward top-left corner...";
                   "🎯 FINDING TOP-LEFT CORNER"] ++ info_records w)%list.
Proof.
  intros real Hr Hwin Hmove. unfold MapScanner.find_top_left_corner.
  unfold bind at 1. unfold logger at 1. unfold bind at 1.
  unfold get_running at 1. cbn [running]. rewrite Hr. unfold bind at 1.
  match goal with
  | |- context [MouseController.safe_move_mouse ?e ?m ?x ?y ?d true ?w0] =>
      destruct (safe_move_mouse_succeeds e m x y d w0 Hmove)
        as (w1 & E1 & V1)
  end.
  rewrite E1. cbn [negb]. cbv zeta.
  change (attr_int config.CaptureConfig "MAX_CORNER_SEARCH_ATTEMPTS")
    with (@lift Z (Return 200)).
  unfold bind at 1. unfold logger at 1. unfold bind at 1. unfold lift at 1.
  replace (range 200) with (0 :: map Z.of_nat (seq 1 199)) by reflexivity.
  unfold bind at 1. rewrite for_each_cons.
  match goal with
  | |- context [MapScanner.corner_attempt env self 450 0 ?w0] =>
      destruct (first_attempt_hits_corner env sc self real Hwin w0)
        as (w2 & E2 & V2)
  end.
  - cbn [running]. rewrite (view_running _ _ V1). reflexivity.
  - rewrite E2. unfold ret. eexists. split; [reflexivity|].
    rewrite V2. unfold view in V1. cbn [running optimal_zoom_level log] in *.
    unfold info_records in *. cbn [log flat_map fst snd app] in *.
    injection V1 as R1 Z1 L1. rewrite Z1, L1. reflexivity.
Qed.

Lemma corner_search_with_own_capture_witness :
  let env := calm_env (1 # 2) "" 0 0 in
  exists w',
    MapScanner.find_top_left_corner env (demo_scanner env) (world0 true)
    = (Return true, w')
    /\ view w' = (true, 0,
                  ["✓ TOP-LEFT CORNER REACHED"; MapScanner.attempt_message 0 false;
                   "Moving toward top-left corner...";
                   "🎯 FINDING TOP-LEFT CORNER"]).
Proof.
  intros env.
  apply (corner_search_with_own_capture env demo_capture (demo_scanner env)
           (world0 true)); reflexivity.
Defined.


(** With the package's own [ScreenCapture] as screen capture component,
    [perform_scan] always returns, and returns at most one target: every
    movement probe answers "no movement", so the first row ends after its
    first tile and the scan after its first row. *)
Theorem scan_with_own_capture_reads_one_tile
    (env : Env) (sc : ScreenCapture.t) (self : MapScanner.t)
    (target_names : list string) (max_rows : Z) (w : World) :
  MapScanner.screen_capture self = ScreenCapture_obj env sc ->
  exists found w',
    MapScanner.perform_scan env self target_names max_rows w
    = (Return found, w')
    /\ (List.length found <= 1)%nat.
Proof.
  intros real.
  assert (Hret : returns (MapScanner.perform_scan env self target_names
                            max_rows)).
  { unfold MapScanner.perform_scan. cbv zeta.
    apply returns_bind; [apply returns_catching|].
    intros [e|[|]];
      [apply returns_scan_failed | apply returns_scan_rows | apply returns_ret]. }
  assert (Hens : ensures (fun l : list TargetMatch => (List.length l <= 1)%nat)
                   (MapScanner.perform_scan env self target_names max_rows)).
  { unfold MapScanner.perform_scan. cbv zeta. apply ens_bind_any.
    intros [e|[|]].
    - apply ens_scan_failed. simpl. lia.
    - apply (scan_rows_one_tile env sc self real). lia.
    - apply ens_ret. simpl. lia. }
  destruct (Hret w) as [found E]. specialize (Hens w).
  destruct (MapScanner.perform_scan env self target_names max_rows w)
    as [o w'].
  simpl in E, Hens. subst o. now exists found, w'.
Qed.

Lemma scan_with_own_capture_reads_one_tile_witness :
  let env := calm_env (1 # 2) "alice bob" 60 60 in
  exists found w',
    MapScanner.perform_scan env (demo_scanner env) ["Alice"; "Bob"] 20
      (world0 true)
    = (Return found, w')
    /\ (List.length found <= 1)%nat.
Proof.
  intros env.
  apply (scan_with_own_capture_reads_one_tile env demo_capture
           (demo_scanner env) ["Alice"; "Bob"] 20 (world0 true)).
  reflexivity.
Defined.


(** ** Soundness of target matching *)

Lemma first_word_match_sound (o : OcrResults) (t tl tw : string)
      (words : list string) (m : TargetMatch) :
  MapScanner.first_word_match o t tl tw words = Some m ->
  name m = t /\ detected_text m = best_text o
  /\ confidence m = best_confidence o /\ match_type m = "exact_word"
  /\ exists word, matched_word m = Some word /\ In word words
                  /\ MapScanner.word_matches tl tw word = true.
Proof.
  induction words as [|word rest IH]; simpl; [discriminate|].
  destruct (MapScanner.word_matches tl tw word) eqn:E.
  - intros [= <-]. simpl. repeat split. exists word. auto.
  - intros H. destruct (IH H) as (H1 & H2 & H3 & H4 & word' & H5 & H6 & H7).
    repeat split; try assumption. exists word'. auto.
Qed.

Lemma match_target_genuine (o : OcrResults) (target_names : list string)
      (t : string) (m : TargetMatch) :
  In t target_names ->
  MapScanner.match_target o (PyStr.lower (best_text o)) t = Some m ->
  genuine_match o target_names m.
Proof.
  intros Hin. unfold MapScanner.match_target, genuine_match. cbv zeta.
  destruct (PyStr.contains (PyStr.lower t) (PyStr.lower (best_text o))) eqn:E.
  - intros [= <-]. simpl. repeat split; try assumption. left. auto.
  - intros H. apply first_word_match_sound in H.
    destruct H as (-> & H2 & H3 & H4 & word & H5 & H6 & H7).
    repeat split; try assumption. right. repeat split; try assumption.
    exists word. auto.
Qed.

(** [search_for_targets] never raises; without an image, or with an empty
    target list, it reports nothing; and whenever it reports a target, the
    match is genuine: the name is one of the names asked for, the text and
    confidence are those of the OCR result, and either the lower-cased name
    occurs in the lower-cased text ("exact_full") or it does not but one of
    the words of the text matches the name, with or without alliance tags
    ("exact_word"). *)
Theorem reported_target_is_genuine
    (env : Env) (image : Frame) (target_names : list string) (w : World) :
  fst (MapScanner.search_for_targets env None target_names w)
  = Return (false, None)
  /\ fst (MapScanner.search_for_targets env (Some image) [] w)
     = Return (false, None)
  /\ (fst (MapScanner.search_for_targets env (Some image) target_names w)
      = Return (false, None)
      \/ exists m,
           fst (MapScanner.search_for_targets env (Some image) target_names w)
           = Return (true, Some m)
           /\ genuine_match (ocr_extract_text_comprehensive env image)
                target_names m).
Proof.
  split; [reflexivity|]. split.
  - unfold MapScanner.search_for_targets, try_except.
    destruct (PyStr.is_empty _); reflexivity.
  - unfold MapScanner.search_for_targets, try_except.
    set (o := ocr_extract_text_comprehensive env image).
    destruct (PyStr.is_empty (best_text o)); [now left|].
    rewrite py_max_found, found_targets_flat_map, hd_found.
    destruct (find _ target_names) as [t|] eqn:Ef; [|now left].
    apply find_some in Ef. destruct Ef as [Hin Hsome].
    destruct (MapScanner.match_target o (PyStr.lower (best_text o)) t)
      as [m|] eqn:Em; [|discriminate Hsome].
    right. exists m. split; [reflexivity|].
    now apply (match_target_genuine o target_names t).
Qed.



(** ** The zoom calibration, step by step *)


Lemma zoom_events_after (r : bool) (z : Z) (c c' : nat) (a : list Action)
      (l l' : list (Level * string)) (b : Action) :
  zoom_events {| running := r; optimal_zoom_level := z; clock := c;
                 actions := b :: a; log := l |}
  = (zoom_events {| running := r; optimal_zoom_level := z; clock := c';
                    actions := a; log := l' |}
     ++ (if is_zoom_event b then [b] else []))%list.
Proof.
  unfold zoom_events. cbn [actions rev]. rewrite filter_app. cbn [filter].
  now destruct (is_zoom_event b).
Qed.

Lemma Qlt_bool_true (a b : Q) : Qlt_bool a b = true -> (a < b)%Q.
Proof.
  unfold Qlt_bool. intros H. apply negb_true_iff in H.
  apply Qnot_le_lt. intros L. apply Qle_bool_iff in L. congruence.
Qed.

Lemma Qlt_bool_false (a b : Q) : Qlt_bool a b = false -> (b <= a)%Q.
Proof.
  unfold Qlt_bool. intros H. apply negb_false_iff in H.
  now apply Qle_bool_iff.
Qed.

Lemma first_maximum_single {A} (key : A -> Q) (x : A) :
  first_maximum key x [x].
Proof. exists [], []. repeat split; intros y []. Qed.

Lemma first_maximum_keep {A} (key : A -> Q) (best x : A) (l : list A) :
  first_maximum key best l -> (key x <= key best)%Q ->
  first_maximum key best (l ++ [x]).
Proof.
  intros (before & after & -> & Hb & Ha) Hx.
  exists before, (after ++ [x])%list. split.
  - now rewrite <- app_assoc.
  - split; [exact Hb|]. intros y Hy. apply in_app_or in Hy as [Hy|[<-|[]]].
    + now apply Ha.
    + exact Hx.
Qed.

Lemma first_maximum_replace {A} (key : A -> Q) (best x : A) (l : list A) :
  first_maximum key best l -> (key best < key x)%Q ->
  first_maximum key x (l ++ [x]).
Proof.
  intros (before & after & -> & Hb & Ha) Hx.
  exists (before ++ best :: after)%list, []. split; [reflexivity|].
  split; [|intros y []].
  intros y Hy. apply in_app_or in Hy as [Hy|[<-|Hy]].
  - apply Qlt_trans with (key best); [now apply Hb|exact Hx].
  - exact Hx.
  - apply Qle_lt_trans with (key best); [now apply Ha|exact Hx].
Qed.

Section Calibration.
Variable env : Env.
Variable sc : ScreenCapture.t.
Variable self : MapScanner.t.
Variable frames : nat -> Frame.
Hypothesis real : MapScanner.screen_capture self = ScreenCapture_obj env sc.
Hypothesis window_stays : forall t, window_is_valid env t = true.
Hypothesis move_succeeds : forall t x y, pyautogui_moveTo env t x y = Ok tt.
Hypothesis scroll_succeeds : forall t c, pyautogui_scroll env t c = Ok tt.
Hypothesis screenshots :
  forall t, pyautogui_screenshot env t (capture_rect sc) = Ok (frames t).

Lemma calibration_capture (w : World) :
  exists w', sc_capture_screen (MapScanner.screen_capture self) true w
             = (Return (Some (frames (clock w))), w')
             /\ timed_state w'
                = (running w, optimal_zoom_level w,
                   (zoom_events w ++ [shot_of sc])%list, S (clock w)).
Proof.
  rewrite real. cbn [sc_capture_screen ScreenCapture_obj].
  unfold ScreenCapture.capture_screen, try_except. cbn [negb].
  pose proof (screenshots (clock w)) as H. unfold capture_rect in H.
  unfold shot_of.
  destruct (ScreenCapture._calculate_capture_coordinates sc) as [x y].
  destruct (ScreenCapture.capture_size sc) as [cw ch].
  unfold bind, tick, act, extcall. rewrite H.
  eexists. split; [reflexivity|].
  unfold timed_state. cbn [running optimal_zoom_level actions log clock].
  destruct w as [r z c0 a l]. cbn [running optimal_zoom_level clock actions log].
  do 2 f_equal. apply zoom_events_after.
Qed.

Lemma calibration_scroll (c : Z) (w : World) :
  exists w', MouseController.zoom_control env c true w = (Return true, w')
             /\ timed_state w'
                = (running w, optimal_zoom_level w,
                   (zoom_events w ++ [Scroll c])%list, S (clock w)).
Proof.
  unfold MouseController.zoom_control, try_except, bind, tick, act, extcall.
  cbn [negb]. rewrite scroll_succeeds.
  eexists. split; [reflexivity|].
  unfold timed_state. cbn [running optimal_zoom_level clock].
  destruct w as [r z c0 a l]. cbn [running optimal_zoom_level clock actions log].
  do 2 f_equal. apply zoom_events_after.
Qed.

Lemma calibration_check (w : World) :
  running w = true ->
  exists w', MapScanner._check_safety_exit env w = (Return tt, w')
             /\ timed_state w'
                = (running w, optimal_zoom_level w, zoom_events w, S (clock w)).
Proof.
  intros Hr. unfold MapScanner._check_safety_exit, bind, get_running, tick.
  rewrite Hr. cbn [negb]. rewrite window_stays. cbn [negb].
  eexists. split; [reflexivity|].
  unfold timed_state, zoom_events.
  cbn [running optimal_zoom_level clock actions]. now rewrite Hr.
Qed.

Lemma calibration_move (mc : MouseController.t) (x y : Z) (d : Q) (w : World) :
  exists w', MouseController.safe_move_mouse env mc x y d true w
             = (Return true, w')
             /\ timed_state w'
                = (running w, optimal_zoom_level w, zoom_events w, S (clock w)).
Proof.
  unfold MouseController.safe_move_mouse, try_except. cbn [negb].
  destruct (MouseController._calculate_safe_coordinates env mc x y 50)
    as [sx sy].
  unfold MouseController.moveTo, bind, tick, act, extcall, ret.
  rewrite move_succeeds. eexists. split; [reflexivity|].
  unfold timed_state. cbn [running optimal_zoom_level clock].
  destruct w as [r z c0 a l]. cbn [running optimal_zoom_level clock actions log].
  do 2 f_equal. rewrite (zoom_events_after r z (S c0) c0 a l l).
  cbn [is_zoom_event]. apply app_nil_r.
Qed.

Lemma state_running (w : World) (r : bool) (z : Z) (e : list Action) (c : nat) :
  timed_state w = (r, z, e, c) -> running w = r.
Proof. unfold timed_state. congruence. Qed.

Lemma state_clock (w : World) (r : bool) (z : Z) (e : list Action) (c : nat) :
  timed_state w = (r, z, e, c) -> clock w = c.
Proof. unfold timed_state. congruence. Qed.

(** The test loop: every level is scrolled to and photographed, and the
    best level at the end is the first maximum of all readings. *)
Lemma levels_tested (levels : list (Z * Z)) :
  forall (results : list (Z * Q)) (seen : list (Z * nat)) (best : Z * nat)
         (w : World),
    running w = true ->
    first_maximum (reading env frames) best seen ->
    exists results' best' w',
      MapScanner.test_zoom_levels env self levels
        (results, reading env frames best, fst best) w
      = (Return (results', reading env frames best', fst best'), w')
      /\ map fst results' = (map fst results ++ map fst levels)%list
      /\ first_maximum (reading env frames) best'
           (seen ++ timed_levels (clock w) levels)%list
      /\ timed_state w'
         = (true, optimal_zoom_level w,
            (zoom_events w
             ++ flat_map (fun lc =>
                  [Scroll (MapScanner.zoom_clicks_of (fst lc) (snd lc));
                   shot_of sc]) levels)%list,
            (clock w + 3 * List.length levels)%nat).
Proof.
  induction levels as [|[level cpl] rest IH];
    intros results seen best w Hr Hmax.
  - exists results, best, w.
    cbn [MapScanner.test_zoom_levels map flat_map timed_levels List.length].
    rewrite !app_nil_r. unfold timed_state. rewrite Hr.
    repeat split; try assumption. do 2 f_equal. lia.
  - cbn [MapScanner.test_zoom_levels]. unfold bind at 1.
    destruct (calibration_check w Hr) as (w1 & E1 & V1). rewrite E1.
    cbv zeta. unfold bind at 1. unfold get_running at 1.
    assert (R1 : running w1 = true) by (apply state_running in V1; congruence).
    rewrite R1. unfold bind at 1.
    destruct (calibration_scroll (MapScanner.zoom_clicks_of level cpl) w1)
      as (w2 & E2 & V2).
    rewrite E2. cbn [negb]. unfold bind at 1. unfold get_running at 1.
    assert (R2 : running w2 = true) by (apply state_running in V2; congruence).
    rewrite R2. unfold bind at 1.
    destruct (calibration_capture w2) as (w3 & E3 & V3). rewrite E3.
    cbn [MapScanner.evaluate_quality].
    assert (R3 : running w3 = true) by (apply state_running in V3; congruence).
    assert (C2 : clock w2 = (clock w + 2)%nat).
    { apply state_clock in V1, V2. lia. }
    assert (EV : timed_state w3
                 = (true, optimal_zoom_level w,
                    (zoom_events w
                     ++ [Scroll (MapScanner.zoom_clicks_of level cpl);
                         shot_of sc])%list,
                    (clock w + 3)%nat)).
    { unfold timed_state in *.
      injection V1 as _ Z1 S1 K1. injection V2 as _ Z2 S2 K2.
      injection V3 as _ Z3 S3 K3.
      rewrite R3, Z3, Z2, Z1, S3, S2, S1, K3, K2, K1.
      rewrite <- app_assoc. do 2 f_equal. lia. }
    rewrite C2.
    change (ocr_evaluate_quality env (frames (clock w + 2)))
      with (reading env frames (level, (clock w + 2)%nat)).
    set (e := (level, (clock w + 2)%nat)).
    assert (K3 : clock w3 = (clock w + 3)%nat) by (now apply state_clock in EV).
    assert (Z3 : optimal_zoom_level w3 = optimal_zoom_level w)
      by (unfold timed_state in EV; congruence).
    assert (S3 : zoom_events w3
                 = (zoom_events w
                    ++ [Scroll (MapScanner.zoom_clicks_of level cpl);
                        shot_of sc])%list)
      by (unfold timed_state in EV; congruence).
    destruct (Qlt_bool (reading env frames best) (reading env frames e))
      eqn:Better.
    + apply Qlt_bool_true in Better.
      destruct (IH (results ++ [(level, reading env frames e)])%list
                   (seen ++ [e])%list
                   e w3 R3 (first_maximum_replace _ _ _ _ Hmax Better))
        as (res & best' & w4 & E4 & M4 & F4 & V4).
      exists res, best', w4. split; [exact E4|]. split; [|split].
      * rewrite M4, map_app. cbn [map fst]. now rewrite <- app_assoc.
      * cbn [timed_levels]. rewrite K3 in F4. rewrite <- app_assoc in F4.
        exact F4.
      * rewrite V4, Z3, S3, K3. cbn [flat_map fst snd List.length].
        f_equal; [f_equal; now rewrite <- app_assoc|lia].
    + apply Qlt_bool_false in Better.
      destruct (IH (results ++ [(level, reading env frames e)])%list
                   (seen ++ [e])%list
                   best w3 R3 (first_maximum_keep _ _ _ _ Hmax Better))
        as (res & best' & w4 & E4 & M4 & F4 & V4).
      exists res, best', w4. split; [exact E4|]. split; [|split].
      * rewrite M4, map_app. cbn [map fst]. now rewrite <- app_assoc.
      * cbn [timed_levels]. rewrite K3 in F4. rewrite <- app_assoc in F4.
        exact F4.
      * rewrite V4, Z3, S3, K3. cbn [flat_map fst snd List.length].
        f_equal; [f_equal; now rewrite <- app_assoc|lia].
Qed.

Lemma map_fst_tl {A B C : Type} (f : A -> C) (l : list (A * B)) :
  map (fun r => f (fst r)) (tl l) = map f (tl (map fst l)).
Proof. destruct l as [|x l]; [reflexivity|]. cbn [tl map]. now rewrite map_map. Qed.

(** With every configured level tested the recorded levels sum to zero,
    so no reset scroll is issued; the best level, when not 0, is
    applied with one scroll of twice its value. *)
Lemma optimal_zoom_applied (results : list (Z * Q)) (best : Z) (w : World) :
  running w = true ->
  map fst results = [0; 1; 2; 3; -1; -2; -3] ->
  exists w', MapScanner._reset_and_apply_optimal_zoom env results best w
             = (Return tt, w')
    /\ timed_state w'
       = (true,
          (if best =? 0 then optimal_zoom_level w else best),
          (zoom_events w ++ (if best =? 0 then [] else [Scroll (best * 2)]))%list,
          (clock w + (if (best =? 0)%Z then 0 else 1))%nat).
Proof.
  intros Hr Hm. unfold MapScanner._reset_and_apply_optimal_zoom.
  rewrite (map_fst_tl (fun l => Z.abs l * 2)), (map_fst_tl (fun l => - l * 2)), Hm.
  cbv zeta.
  change (MapScanner.sum_Z (map (fun l => Z.abs l * 2) (tl [0; 1; 2; 3; -1; -2; -3])))
    with 24.
  change (MapScanner.sum_Z (map (fun l => - l * 2) (tl [0; 1; 2; 3; -1; -2; -3])))
    with 0.
  cbn [Z.gtb Z.compare Z.eqb negb]. unfold bind at 1. unfold ret at 1.
  destruct (best =? 0) eqn:B; cbn [negb].
  - exists w. split; [reflexivity|]. unfold timed_state.
    rewrite Hr, app_nil_r. do 2 f_equal. lia.
  - unfold bind at 1. unfold get_running at 1. rewrite Hr. unfold bind at 1.
    destruct (calibration_scroll (best * 2) w) as (w1 & E1 & V1). rewrite E1.
    unfold set_optimal_zoom_level. eexists. split; [reflexivity|].
    unfold timed_state in *. injection V1 as R1 Z1 S1 K1.
    cbn [running optimal_zoom_level clock]. rewrite R1, Hr, K1.
    destruct w1 as [r z c0 a l]. unfold zoom_events in *.
    cbn [actions] in *. rewrite S1. do 2 f_equal. lia.
Qed.
End Calibration.

(** A calibration during which the window stays valid and every mouse
    move, wheel scroll and screenshot succeeds returns, and issues exactly
    these screenshots and scrolls, in this order: a screenshot; then for
    each of the six configured levels a scroll of +2 (levels 1, 2, 3) or
    -2 (levels -1, -2, -3) followed by a screenshot; no reset scroll; one
    scroll of twice the best level unless the best level is 0; a last
    screenshot.  With [frames t] the frame that the screen gives at
    reading [t] of the clock, starting at [c], the levels 0, 1, 2, 3, -1,
    -2, -3 are read off the frames of [c+1], [c+4], ..., [c+19], and the
    best level is the first of them whose quality is the greatest.  The
    result tells whether the quality of the last frame, the one taken
    after the best level is applied, reaches 25.  [optimal_zoom_level]
    becomes the best level unless that is 0, and the best level differs
    from 0 only if its frame reads strictly better than the first one. *)
Theorem calibration_zoom_sequence
    (env : Env) (sc : ScreenCapture.t) (self : MapScanner.t)
    (frames : nat -> Frame) (w : World) :
  MapScanner.screen_capture self = ScreenCapture_obj env sc ->
  (forall t, window_is_valid env t = true) ->
  (forall t x y, pyautogui_moveTo env t x y = Ok tt) ->
  (forall t c, pyautogui_scroll env t c = Ok tt) ->
  (forall t, pyautogui_screenshot env t (capture_rect sc) = Ok (frames t)) ->
  running w = true ->
  let c := clock w in
  let readings :=
    [(0, (c + 1)%nat); (1, (c + 4)%nat); (2, (c + 7)%nat);
     (3, (c + 10)%nat); (-1, (c + 13)%nat); (-2, (c + 16)%nat);
     (-3, (c + 19)%nat)] in
  exists (best : Z * nat) (w' : World),
    first_maximum (reading env frames) best readings
    /\ MapScanner.calibrate_zoom env self w
       = (Return (Qle_bool 25
                    (ocr_evaluate_quality env
                       (frames (c + 20
                                + (if (fst best =? 0)%Z then 0 else 1))%nat))),
          w')
    /\ zoom_events w'
       = (zoom_events w
          ++ [shot_of sc;
              Scroll 2; shot_of sc; Scroll 2; shot_of sc; Scroll 2; shot_of sc;
              Scroll (-2); shot_of sc; Scroll (-2); shot_of sc;
              Scroll (-2); shot_of sc]
          ++ (if fst best =? 0 then [] else [Scroll (fst best * 2)])
          ++ [shot_of sc])%list
    /\ optimal_zoom_level w'
       = (if fst best =? 0 then optimal_zoom_level w else fst best)
    /\ running w' = true
    /\ (fst best <> 0 ->
        (reading env frames (0%Z, (c + 1)%nat) < reading env frames best)%Q).
Proof.
  intros real Hwin Hmove Hscroll Hshot Hr. cbv zeta.
  unfold MapScanner.calibrate_zoom, try_except.
  unfold bind at 1. unfold get_running at 1. rewrite Hr. unfold bind at 1.
  destruct (calibration_move env Hmove (MapScanner.mouse_controller self)
              (MapScanner.window_center_x self) (MapScanner.window_center_y self)
              (3 # 10) w) as (w1 & E1 & V1).
  rewrite E1. cbn [negb]. unfold bind at 1. unfold get_running at 1.
  assert (R1 : running w1 = true) by (apply state_running in V1; congruence).
  rewrite R1. unfold bind at 1.
  destruct (calibration_capture env sc self frames real Hshot w1)
    as (w2 & E2 & V2).
  rewrite E2. cbn [MapScanner.evaluate_quality]. cbv zeta.
  assert (K1 : clock w1 = (clock w + 1)%nat)
    by (apply state_clock in V1; lia).
  rewrite K1.
  change (ocr_evaluate_quality env (frames (clock w + 1)%nat))
    with (reading env frames (0, (clock w + 1)%nat)).
  unfold bind at 1.
  change (lift (obind (getattr config.ScanConfig "ZOOM_LEVELS_TO_TEST")
                      as_zoom_levels) w2)
    with (@Return (list (Z * Z)) zoom_levels, w2).
  unfold bind at 1.
  assert (R2 : running w2 = true) by (apply state_running in V2; congruence).
  assert (K2 : clock w2 = (clock w + 2)%nat)
    by (apply state_clock in V2; lia).
  set (first := (0, (clock w + 1)%nat)).
  destruct (levels_tested env sc self frames real Hwin Hscroll Hshot zoom_levels
              [(0, reading env frames first)] [first] first w2 R2
              (first_maximum_single _ _))
    as (res & best & w3 & E3 & M3 & F3 & V3).
  change (fst first) with 0 in E3. rewrite E3. unfold bind at 1.
  assert (R3 : running w3 = true) by (apply state_running in V3; congruence).
  destruct (optimal_zoom_applied env Hscroll res (fst best) w3 R3 M3)
    as (w4 & E4 & V4).
  rewrite E4. unfold bind at 1. unfold get_running at 1.
  assert (R4 : running w4 = true) by (apply state_running in V4; congruence).
  rewrite R4. unfold bind at 1.
  destruct (calibration_capture env sc self frames real Hshot w4)
    as (w5 & E5 & V5).
  rewrite E5. cbn [MapScanner.evaluate_quality]. cbv zeta.
  unfold bind at 1.
  change (attr_float config.OCRConfig "MIN_QUALITY_THRESHOLD" w5)
    with (@Return Q 25%Q, w5).
  unfold ret.
  assert (K4 : clock w4
               = (clock w + 20 + (if (fst best =? 0)%Z then 0 else 1))%nat).
  { apply state_clock in V3, V4. rewrite V4, V3, K2.
    cbn [zoom_levels List.length]. lia. }
  rewrite K4.
  assert (Readings :
            ([first] ++ timed_levels (clock w2) zoom_levels)%list
            = [(0, (clock w + 1)%nat); (1, (clock w + 4)%nat);
               (2, (clock w + 7)%nat); (3, (clock w + 10)%nat);
               (-1, (clock w + 13)%nat); (-2, (clock w + 16)%nat);
               (-3, (clock w + 19)%nat)]).
  { rewrite K2. unfold first. cbn [zoom_levels timed_levels app].
    repeat (f_equal; try lia). }
  rewrite Readings in F3.
  exists best, w5. split; [exact F3|]. split; [reflexivity|].
  unfold timed_state in *.
  injection V1 as _ Z1 S1 _. injection V2 as _ Z2 S2 _.
  injection V3 as _ Z3 S3 _. injection V4 as _ Z4 S4 _.
  injection V5 as R5 Z5 S5 _.
  split; [|split; [|split]].
  - rewrite S5, S4, S3, S2, S1. cbn [flat_map zoom_levels fst snd app].
    rewrite <- !app_assoc. reflexivity.
  - rewrite Z5, Z4, Z3, Z2, Z1. reflexivity.
  - now rewrite R5.
  - intros Hb. destruct F3 as (before & after & Eq & Hbefore & _).
    destruct before as [|x before].
    + cbn [app] in Eq. injection Eq as Eq _. rewrite <- Eq in Hb.
      now elim Hb.
    + cbn [app] in Eq. injection Eq as Eq _. apply Hbefore. left.
      now rewrite <- Eq.
Qed.

Lemma calibration_zoom_sequence_witness :
  let env := calm_env (98 # 100) "" 0 60 in
  let readings :=
    [(0, (0 + 1)%nat); (1, (0 + 4)%nat); (2, (0 + 7)%nat);
     (3, (0 + 10)%nat); (-1, (0 + 13)%nat); (-2, (0 + 16)%nat);
     (-3, (0 + 19)%nat)] in
  exists (best : Z * nat) (w' : World),
    first_maximum (reading env (fun _ => blank_frame)) best readings
    /\ MapScanner.calibrate_zoom env (demo_scanner env) (world0 true)
       = (Return (Qle_bool 25
                    (ocr_evaluate_quality env
                       ((fun _ => blank_frame)
                          (0 + 20 + (if (fst best =? 0)%Z then 0 else 1))%nat))),
          w')
    /\ zoom_events w'
       = (zoom_events (world0 true)
          ++ [shot_of demo_capture;
              Scroll 2; shot_of demo_capture; Scroll 2; shot_of demo_capture;
              Scroll 2; shot_of demo_capture;
              Scroll (-2); shot_of demo_capture; Scroll (-2); shot_of demo_capture;
              Scroll (-2); shot_of demo_capture]
          ++ (if fst best =? 0 then [] else [Scroll (fst best * 2)])
          ++ [shot_of demo_capture])%list
    /\ optimal_zoom_level w'
       = (if fst best =? 0 then optimal_zoom_level (world0 true) else fst best)
    /\ running w' = true
    /\ (fst best <> 0 ->
        (reading env (fun _ => blank_frame) (0%Z, (0 + 1)%nat)
         < reading env (fun _ => blank_frame) best)%Q).
Proof.
  intros env.
  apply (calibration_zoom_sequence env demo_capture (demo_scanner env)
           (fun _ => blank_frame) (world0 true)); reflexivity.
Defined.


(** ** The OCR engine *)
Lemma process_ocr_data_spec (ocr_data : list OCREngine.Word) (ps oc : string) :
  forall (ts : list string) (cs : list Z) (dets : list OCREngine.Detection),
    let new := map (detection_of ps oc) (filter is_kept ocr_data) in
    OCREngine._process_ocr_data ocr_data ps oc ts cs dets
    = (Return ((ts ++ map OCREngine.det_text new)%list,
               (cs ++ map OCREngine.det_confidence new)%list),
       (dets ++ new)%list).
Proof.
  induction ocr_data as [|row rest IH]; intros ts cs dets; cbn zeta.
  - cbn. now rewrite !app_nil_r.
  - cbn [OCREngine._process_ocr_data filter].
    change (obind (getattr config.OCRConfig "MIN_TEXT_LENGTH") as_int)
      with (@Return Z 2).
    change (obind (getattr config.OCRConfig "MIN_CONFIDENCE_THRESHOLD") as_int)
      with (@Return Z 20).
    cbv zeta beta iota. rewrite Z.geb_leb, Z.gtb_ltb.
    assert (K : is_kept row
                = (2 <=? Z.of_nat (String.length (PyStr.strip (OCREngine.word_text row))))
                  && (20 <? OCREngine.word_conf row)) by reflexivity.
    rewrite K.
    destruct (2 <=? Z.of_nat (String.length (PyStr.strip (OCREngine.word_text row))));
      cbn [andb]; [|apply IH].
    destruct (20 <? OCREngine.word_conf row); [|apply IH].
    rewrite IH. cbn [map detection_of OCREngine.det_text OCREngine.det_confidence].
    now rewrite <- !app_assoc.
Qed.

Lemma kept_passes_filter (ps oc : string) (row : OCREngine.Word) :
  is_kept row = true -> passes_filter (detection_of ps oc row).
Proof.
  unfold is_kept, passes_filter. intros H.
  apply andb_true_iff in H as [H1 H2].
  cbn [detection_of OCREngine.det_text OCREngine.det_confidence].
  apply Z.leb_le in H1. apply Z.ltb_lt in H2.
  split; [lia|]. split; [exact H2|]. apply strip_idempotent.
Qed.

Section EngineFacts.
Variable image_to_data : string -> string -> Frame -> ext (list OCREngine.Word).
Variable image : Frame.

Lemma try_strategy_detections (r : OCREngine.Results) (s : string * string) :
  OCREngine.all_detections (OCREngine.try_strategy image_to_data image r s)
  = (OCREngine.all_detections r ++ detections_of image_to_data image s)%list.
Proof.
  destruct s as [ps oc]. unfold OCREngine.try_strategy, detections_of.
  cbn [fst snd]. destruct (image_to_data ps oc image) as [rows|msg].
  - rewrite process_ocr_data_spec. cbn [app].
    destruct (map OCREngine.det_text
                  (map (detection_of ps oc) (filter is_kept rows))); reflexivity.
  - now rewrite app_nil_r.
Qed.

Lemma fold_strategies_detections (l : list (string * string)) :
  forall r,
    OCREngine.all_detections
      (fold_left (OCREngine.try_strategy image_to_data image) l r)
    = (OCREngine.all_detections r
       ++ flat_map (detections_of image_to_data image) l)%list.
Proof.
  induction l as [|s l IH]; intros r; cbn [fold_left flat_map].
  - now rewrite app_nil_r.
  - rewrite IH, try_strategy_detections. now rewrite <- app_assoc.
Qed.

Lemma cleanup_detections (r : OCREngine.Results) :
  OCREngine.all_detections (OCREngine.cleanup r) = OCREngine.all_detections r.
Proof. unfold OCREngine.cleanup. now destruct (PyStr.is_empty _). Qed.

Lemma extract_detections :
  OCREngine.all_detections
    (OCREngine.extract_text_comprehensive image_to_data image)
  = flat_map (detections_of image_to_data image) OCR_STRATEGIES.
Proof.
  unfold OCREngine.extract_text_comprehensive.
  now rewrite cleanup_detections, fold_strategies_detections.
Qed.

Lemma detections_of_pass (s : string * string) (d : OCREngine.Detection) :
  In d (detections_of image_to_data image s) -> passes_filter d.
Proof.
  unfold detections_of. destruct (image_to_data (fst s) (snd s) image);
    [|intros []].
  intros H. apply in_map_iff in H as (row & <- & H).
  apply filter_In in H as [_ H]. now apply kept_passes_filter.
Qed.

Lemma extracted_pass (d : OCREngine.Detection) :
  In d (OCREngine.all_detections
          (OCREngine.extract_text_comprehensive image_to_data image)) ->
  passes_filter d.
Proof.
  rewrite extract_detections. intros H.
  apply in_flat_map in H as (s & _ & H). now apply detections_of_pass in H.
Qed.

(** The detections of [extract_text_comprehensive] are exactly the
    words, stripped, that some strategy of [OCR_STRATEGIES] read with
    at least 2 characters and a confidence above 20; each of them is
    recorded with the strategy that read it. *)
Theorem detections_are_the_kept_words (d : OCREngine.Detection) :
  In d (OCREngine.all_detections
          (OCREngine.extract_text_comprehensive image_to_data image))
  <-> exists preprocess_strategy ocr_config ocr_data row,
        In (preprocess_strategy, ocr_config) OCR_STRATEGIES
        /\ image_to_data preprocess_strategy ocr_config image = Ok ocr_data
        /\ In row ocr_data
        /\ (2 <= String.length (PyStr.strip (OCREngine.word_text row)))%nat
        /\ 20 < OCREngine.word_conf row
        /\ d = detection_of preprocess_strategy ocr_config row.
Proof.
  rewrite extract_detections, in_flat_map. split.
  - intros ([ps oc] & Hs & H). unfold detections_of in H. cbn [fst snd] in H.
    destruct (image_to_data ps oc image) as [rows|msg] eqn:E; [|destruct H].
    apply in_map_iff in H as (row & <- & H).
    apply filter_In in H as [Hin K]. unfold is_kept in K.
    apply andb_true_iff in K as [K1 K2].
    apply Z.leb_le in K1. apply Z.ltb_lt in K2.
    exists ps, oc, rows, row. repeat split; try assumption. lia.
  - intros (ps & oc & rows & row & Hs & E & Hin & K1 & K2 & ->).
    exists (ps, oc). split; [exact Hs|]. unfold detections_of. cbn [fst snd].
    rewrite E. apply in_map, filter_In. split; [exact Hin|].
    unfold is_kept. apply andb_true_iff. split.
    + apply Z.leb_le. lia.
    + now apply Z.ltb_lt.
Qed.
End EngineFacts.

Lemma detections_are_the_kept_words_witness :
  In (detection_of "game_text" "game_names" demo_word)
     (OCREngine.all_detections
        (OCREngine.extract_text_comprehensive demo_image_to_data blank_frame)).
Proof.
  apply (proj2 (detections_are_the_kept_words demo_image_to_data blank_frame
                  (detection_of "game_text" "game_names" demo_word))).
  exists "game_text", "game_names".
  eexists. exists demo_word.
  split; [left; reflexivity|].
  split; [reflexivity|].
  split; [left; reflexivity|].
  split; [vm_compute; lia|].
  split; [reflexivity|reflexivity].
Defined.

Lemma sum_lower (k : Z) (l : list Z) :
  (forall x, In x l -> k <= x) ->
  k * Z.of_nat (List.length l) <= fold_right Z.add 0 l.
Proof.
  induction l as [|x l IH]; intros H; [cbn; lia|].
  cbn [fold_right List.length]. rewrite Nat2Z.inj_succ.
  pose proof (H x (or_introl eq_refl)).
  pose proof (IH (fun y Hy => H y (or_intror Hy))). lia.
Qed.

Lemma mean_lower (k : Z) (l : list Z) :
  l <> [] -> (forall x, In x l -> k <= x) -> (inject_Z k <= mean l)%Q.
Proof.
  intros Hne H. unfold mean.
  assert (Hn : 0 < Z.of_nat (List.length l)) by (destruct l; [congruence|cbn; lia]).
  apply Qle_shift_div_l.
  - change 0%Q with (inject_Z 0). now rewrite <- Zlt_Qlt.
  - rewrite <- inject_Z_mult, <- Zle_Qle. now apply sum_lower.
Qed.

Lemma starts_word_app (a b : string) : starts_word a -> starts_word (a ++ b).
Proof. destruct a; [intros []|trivial]. Qed.

Lemma join_starts_word (x : string) (r : list string) :
  starts_word x -> starts_word (join " " (x :: r)).
Proof.
  intros H. cbn [join]. destruct r; [exact H|]. now apply starts_word_app.
Qed.

Lemma passes_filter_starts_word (d : OCREngine.Detection) :
  passes_filter d -> starts_word (OCREngine.det_text d).
Proof.
  intros (Hlen & _ & Hs).
  assert (C : starts_clean (OCREngine.det_text d)).
  { rewrite <- Hs. apply rstrip_starts_clean, lstrip_starts_clean. }
  destruct (OCREngine.det_text d); [cbn in Hlen; lia|exact C].
Qed.

Lemma rev_string_not_empty (s acc : string) :
  acc <> "" -> PyStr.rev_string acc s <> "".
Proof.
  revert acc. induction s as [|c s IH]; intros acc H; cbn; [exact H|].
  apply IH. discriminate.
Qed.

Lemma split_from_word (s cur : string) :
  cur <> "" ->
  exists w ws, PyStr.split_from cur s = w :: ws /\ w <> "".
Proof.
  revert cur. induction s as [|c s IH]; intros cur H.
  - cbn. destruct cur as [|a cur]; [congruence|].
    eexists _, _. split; [reflexivity|]. cbn. apply rev_string_not_empty.
    discriminate.
  - cbn [PyStr.split_from]. destruct (PyStr.isspace c).
    + destruct cur as [|a cur]; [congruence|]. cbn [PyStr.flush].
      eexists _, _. split; [reflexivity|]. cbn. apply rev_string_not_empty.
      discriminate.
    + apply IH. discriminate.
Qed.

Lemma normalised_not_empty (s : string) :
  starts_word s -> join " " (PyStr.split s) <> "".
Proof.
  destruct s as [|c s]; [intros []|]. cbn [starts_word]. intros H.
  unfold PyStr.split. cbn [PyStr.split_from]. rewrite H.
  destruct (split_from_word s (String c "")) as (w & ws & -> & Hw);
    [discriminate|].
  cbn [join]. destruct ws; [exact Hw|].
  destruct w; [congruence|discriminate].
Qed.

Section EngineBest.
Variable image_to_data : string -> string -> Frame -> ext (list OCREngine.Word).
Variable image : Frame.

Lemma try_strategy_consistent (r : OCREngine.Results) (s : string * string) :
  consistent r -> consistent (OCREngine.try_strategy image_to_data image r s).
Proof.
  intros [Hc Hb]. destruct s as [ps oc]. unfold OCREngine.try_strategy.
  destruct (image_to_data ps oc image) as [rows|msg]; [|now split].
  rewrite process_ocr_data_spec. cbn [app].
  assert (Hnew : forall d, In d (map (detection_of ps oc) (filter is_kept rows))
                           -> passes_filter d).
  { intros d H. apply in_map_iff in H as (row & <- & H).
    apply filter_In in H as [_ H]. now apply kept_passes_filter. }
  destruct (map (detection_of ps oc) (filter is_kept rows)) as [|d new].
  - cbn [map]. rewrite app_nil_r. unfold OCREngine.with_detections.
    split; [exact Hc|exact Hb].
  - cbn [map].
    set (avg := mean (OCREngine.det_confidence d
                      :: map OCREngine.det_confidence new)).
    assert (Havg : (20 < avg)%Q).
    { apply Qlt_le_trans with (inject_Z 21); [reflexivity|].
      apply mean_lower; [discriminate|].
      intros x Hx. change (In x (map OCREngine.det_confidence (d :: new))) in Hx.
      apply in_map_iff in Hx as (d' & <- & Hd').
      destruct (Hnew d' Hd') as (_ & H & _). lia. }
    assert (Hword : starts_word
                      (join " " (OCREngine.det_text d
                                 :: map OCREngine.det_text new))).
    { apply join_starts_word, passes_filter_starts_word, Hnew. now left. }
    assert (Hne : (OCREngine.all_detections r ++ d :: new)%list <> []).
    { intros E. now apply app_eq_nil in E as [_ E]. }
    destruct (Qlt_bool (OCREngine.best_confidence r) avg) eqn:Better.
    + apply Qlt_bool_true in Better. split.
      * cbn [OCREngine.confidences OCREngine.best_confidence].
        apply Forall_app. split.
        -- eapply Forall_impl; [|exact Hc]. cbn beta. intros c [H1 H2].
           split; [exact H1|]. apply Qle_trans with (OCREngine.best_confidence r);
             [exact H2|now apply Qlt_le_weak].
        -- constructor; [|constructor]. split; [exact Havg|apply Qle_refl].
      * right. cbn [OCREngine.all_detections OCREngine.best_text
                    OCREngine.best_confidence OCREngine.confidences].
        split; [exact Hne|]. split; [exact Hword|].
        apply in_or_app. right. now left.
    + apply Qlt_bool_false in Better. split.
      * cbn [OCREngine.confidences OCREngine.best_confidence].
        apply Forall_app. split; [exact Hc|].
        constructor; [|constructor]. split; [exact Havg|exact Better].
      * right. cbn [OCREngine.all_detections OCREngine.best_text
                    OCREngine.best_confidence OCREngine.confidences].
        split; [exact Hne|].
        destruct Hb as [(_ & _ & Hz & _)|(_ & Hw & Hin)].
        -- rewrite Hz in Better. exfalso.
           apply (Qlt_irrefl 20). apply Qlt_le_trans with avg; [exact Havg|].
           apply Qle_trans with 0%Q; [exact Better|discriminate].
        -- split; [exact Hw|]. apply in_or_app. now left.
Qed.

Lemma fold_strategies_consistent (l : list (string * string)) :
  forall r, consistent r ->
            consistent (fold_left (OCREngine.try_strategy image_to_data image) l r).
Proof.
  induction l as [|s l IH]; intros r H; cbn [fold_left]; [exact H|].
  now apply IH, try_strategy_consistent.
Qed.

Lemma empty_results_consistent : consistent OCREngine.empty_results.
Proof. split; [constructor|]. left. repeat split. Qed.

(** [extract_text_comprehensive] reports a best text exactly when it
    recorded a detection.  With no detection the best text is empty,
    the best confidence 0 and no text is listed.  With a detection the
    best text is not empty, and the best confidence is one of the
    listed averages and exceeds 20.  In both cases every listed average
    exceeds 20 and none exceeds the best confidence. *)
Theorem best_text_iff_detection :
  let r := OCREngine.extract_text_comprehensive image_to_data image in
  (OCREngine.all_detections r = [] ->
   OCREngine.best_text r = "" /\ OCREngine.best_confidence r = 0%Q
   /\ OCREngine.texts r = [])
  /\ (OCREngine.all_detections r <> [] ->
      OCREngine.best_text r <> "" /\ (20 < OCREngine.best_confidence r)%Q
      /\ In (OCREngine.best_confidence r) (OCREngine.confidences r))
  /\ (forall c, In c (OCREngine.confidences r) ->
                (20 < c)%Q /\ (c <= OCREngine.best_confidence r)%Q).
Proof.
  cbv zeta. unfold OCREngine.extract_text_comprehensive.
  pose proof (fold_strategies_consistent OCR_STRATEGIES _
                empty_results_consistent) as [Hc Hb].
  set (r := fold_left (OCREngine.try_strategy image_to_data image)
                      OCR_STRATEGIES OCREngine.empty_results) in *.
  clearbody r.
  assert (E : OCREngine.all_detections (OCREngine.cleanup r)
              = OCREngine.all_detections r
              /\ OCREngine.best_confidence (OCREngine.cleanup r)
                 = OCREngine.best_confidence r
              /\ OCREngine.confidences (OCREngine.cleanup r)
                 = OCREngine.confidences r
              /\ OCREngine.texts (OCREngine.cleanup r) = OCREngine.texts r).
  { unfold OCREngine.cleanup. now destruct (PyStr.is_empty _). }
  destruct E as (E1 & E2 & E3 & E4). rewrite E1, E2, E3, E4.
  split; [|split].
  - intros Hnil. destruct Hb as [(_ & Ht & Hz & Hx)|(Hne & _)]; [|congruence].
    unfold OCREngine.cleanup. rewrite Ht. cbn. auto.
  - intros Hne. destruct Hb as [(Hnil & _)|(_ & Hw & Hin)]; [congruence|].
    split; [|split; [|exact Hin]].
    + unfold OCREngine.cleanup.
      destruct (OCREngine.best_text r) eqn:T; [destruct Hw|].
      cbn [PyStr.is_empty OCREngine.best_text].
      apply normalised_not_empty. exact Hw.
    + rewrite Forall_forall in Hc. now apply Hc.
  - intros c Hin. rewrite Forall_forall in Hc. now apply Hc.
Qed.
End EngineBest.

Lemma best_text_iff_detection_witness :
  let r := OCREngine.extract_text_comprehensive demo_image_to_data blank_frame in
  OCREngine.best_text r <> "" /\ (20 < OCREngine.best_confidence r)%Q
  /\ In (OCREngine.best_confidence r) (OCREngine.confidences r).
Proof.
  intros r.
  apply (proj1 (proj2 (best_text_iff_detection demo_image_to_data blank_frame))).
  vm_compute. discriminate.
Defined.

Section EngineQuality.
Variable image_to_data : string -> string -> Frame -> ext (list OCREngine.Word).

(** [evaluate_quality] answers 0 for a missing image and for a frame in
    which no strategy detects a word.  As soon as one word is detected
    the score is at least 19.3 and at most 100, and when one of the
    detections is a readable word (3 characters or more, one of them a
    letter) it is at least 26.8, which passes [MIN_QUALITY_THRESHOLD]. *)
Theorem quality_is_zero_or_substantial (image : Frame) :
  let detections :=
    OCREngine.all_detections
      (OCREngine.extract_text_comprehensive image_to_data image) in
  let quality := fst (OCREngine.evaluate_quality image_to_data (Some image)) in
  fst (OCREngine.evaluate_quality image_to_data None) = 0%Q
  /\ (detections = [] -> quality = 0%Q)
  /\ (detections <> [] -> (193 # 10 <= quality)%Q /\ (quality <= 100)%Q)
  /\ ((exists d, In d detections /\ OCREngine.is_readable d = true) ->
      (268 # 10 <= quality)%Q /\ Qle_bool 25 quality = true).
Proof.
  cbv zeta. unfold OCREngine.evaluate_quality.
  change (match getattr config.ScanConfig "QUALITY_WEIGHTS" with
          | Return v => weights_of v
          | Raise _ => None
          end) with (Some default_weights).
  pose proof (extracted_pass image_to_data image) as Hpass.
  set (dets := OCREngine.all_detections
                 (OCREngine.extract_text_comprehensive image_to_data image)) in *.
  clearbody dets.
  split; [reflexivity|].
  destruct dets as [|d0 rest].
  { split; [reflexivity|]. split; [congruence|].
    intros (d & [] & _). }
  cbv beta iota. cbn [fst].
  remember (d0 :: rest) as dets eqn:D.
  assert (Hne : dets <> []) by (rewrite D; discriminate).
  clear D d0 rest.
  set (avg := mean (map OCREngine.det_confidence dets)).
  set (h := mean (map OCREngine.det_height dets)).
  set (n := Z.of_nat (List.length dets)).
  set (rw := Z.of_nat (List.length (filter OCREngine.is_readable dets))).
  assert (Havg : (21 <= avg)%Q).
  { change 21%Q with (inject_Z 21). apply mean_lower.
    - destruct dets; [congruence|discriminate].
    - intros x Hx. apply in_map_iff in Hx as (d & <- & Hd).
      destruct (Hpass d Hd) as (_ & H & _). lia. }
  assert (Hn : 1 <= n) by (subst n; destruct dets; [congruence|cbn; lia]).
  assert (Hrw : 0 <= rw) by (subst rw; lia).
  pose proof (size_score_range h) as Hs.
  pose proof (Qmin_le_100 avg) as Hc.
  pose proof (inject_min_le_100 (n * 15)) as Ht.
  pose proof (inject_min_le_100 (rw * 25)) as Hr.
  assert (Hc1 : (21 <= utils.Qmin avg 100)%Q).
  { unfold utils.Qmin. destruct (Qlt_le_dec 100 avg); lra. }
  assert (Ht1 : (15 <= inject_Z (Z.min (n * 15) 100))%Q).
  { change 15%Q with (inject_Z 15). rewrite <- Zle_Qle. lia. }
  pose proof (inject_min_nonneg (rw * 25) ltac:(lia)) as Hr0.
  assert (Hrw1 : (exists d, In d dets /\ OCREngine.is_readable d = true) ->
                 1 <= rw).
  { intros (d & Hd & Hread). subst rw.
    assert (In d (filter OCREngine.is_readable dets))
      by (apply filter_In; now split).
    destruct (filter OCREngine.is_readable dets);
      [contradiction|cbn [List.length]; lia]. }
  clearbody avg h n rw.
  split; [congruence|]. split.
  - intros _. unfold utils.calculate_quality_score; cbn. split; lra.
  - intros Hread. specialize (Hrw1 Hread).
    assert (Hr1 : (25 <= inject_Z (Z.min (rw * 25) 100))%Q).
    { change 25%Q with (inject_Z 25). rewrite <- Zle_Qle. lia. }
    assert (Q : (268 # 10 <= utils.calculate_quality_score avg h n rw
                               default_weights)%Q).
    { unfold utils.calculate_quality_score; cbn. lra. }
    split; [exact Q|]. apply Qle_bool_iff. lra.
Qed.
End EngineQuality.

Lemma quality_is_zero_or_substantial_witness :
  let quality :=
    fst (OCREngine.evaluate_quality demo_image_to_data (Some blank_frame)) in
  (268 # 10 <= quality)%Q /\ Qle_bool 25 quality = true.
Proof.
  intros quality.
  apply (proj2 (proj2 (proj2 (quality_is_zero_or_substantial
                                demo_image_to_data blank_frame)))).
  exists (detection_of "game_text" "game_names" demo_word).
  split; [vm_compute; left; reflexivity|reflexivity].
Defined.



(** ** The command line *)

Lemma parsed_names_not_empty (targets_str name : string) :
  In name (parse_target_names targets_str) -> name <> "".
Proof.
  unfold parse_target_names.
  destruct (PyStr.is_empty targets_str); [intros []|].
  rewrite in_map_iff. intros (piece & <- & Hin).
  apply filter_In in Hin as [_ Hne].
  destruct (PyStr.strip piece); [discriminate Hne|discriminate].
Qed.

Lemma target_names_parse (args : main.Namespace) :
  main.target_names args = main.parse_targets (main.targets args).
Proof.
  unfold main.target_names, main.given, main.parse_targets.
  destruct (main.targets args) as [t|]; [|reflexivity].
  unfold parse_target_names. now destruct (PyStr.is_empty t).
Qed.

(** [validate_arguments] accepts the arguments exactly when [max_rows]
    lies between 1 and 100 and, unless the test mode is on, the target
    names [main] goes on to use are not an empty list; the check that
    [--targets] is given adds nothing to this.  An error message comes
    exactly with a rejection, and no target name handed to the scanner
    is the empty string. *)
Theorem accepted_arguments_have_targets (args : main.Namespace) :
  (fst (main.validate_arguments args) = true
   <-> (main.test args = "yes" \/ main.target_names args <> [])
       /\ 1 <= main.max_rows args <= 100)
  /\ (fst (main.validate_arguments args) = true
      <-> snd (main.validate_arguments args) = None)
  /\ (forall name, In name (main.target_names args) -> name <> "").
Proof.
  split; [|split].
  - rewrite target_names_parse. unfold main.validate_arguments. cbv zeta.
    destruct (String.eqb_spec (main.test args) "yes") as [T|T]; cbn [negb andb].
    + destruct (Z.leb_spec (main.max_rows args) 0);
        [cbn; split; [discriminate|lia]|].
      rewrite Z.gtb_ltb.
      destruct (Z.ltb_spec 100 (main.max_rows args)); cbn.
      * split; [discriminate|lia].
      * split; [intros _; split; [now left|lia]|reflexivity].
    + assert (G : main.given (main.targets args) = false ->
                  main.parse_targets (main.targets args) = []).
      { unfold main.given, main.parse_targets.
        destruct (main.targets args) as [t|]; [|reflexivity].
        destruct t; [reflexivity|discriminate]. }
      destruct (main.given (main.targets args)); cbn [negb].
      * destruct (main.parse_targets (main.targets args)) as [|n ns].
        -- cbn. split; [discriminate|]. intros [[E|E] _]; congruence.
        -- destruct (Z.leb_spec (main.max_rows args) 0);
             [cbn; split; [discriminate|lia]|].
           rewrite Z.gtb_ltb.
           destruct (Z.ltb_spec 100 (main.max_rows args)); cbn.
           ++ split; [discriminate|lia].
           ++ split; [intros _; split; [right; discriminate|lia]|reflexivity].
      * rewrite (G eq_refl). cbn. split; [discriminate|].
        intros [[E|E] _]; congruence.
  - unfold main.validate_arguments. cbv zeta.
    destruct (_ && _); [cbn; split; discriminate|].
    destruct (_ && _); [cbn; split; discriminate|].
    destruct (_ <=? _); [cbn; split; discriminate|].
    destruct (_ >? _); cbn; split; try discriminate; reflexivity.
  - intros name. rewrite target_names_parse. unfold main.parse_targets.
    destruct (main.targets args) as [t|]; [|intros []].
    apply parsed_names_not_empty.
Qed.
